(** * OrthoView: the planar rectification core

    A shallow embedding of the corner bookkeeping, the transform
    derivation and the coordinate read-out of [OrthoView.py].

    Python [int]s are [Z].  Python and NumPy floats are modelled by exact
    rationals ([Q], compared with [==]): every statement below about a
    float-valued quantity is a statement about the exact value the float
    computation approximates.  An attribute that an object may not yet
    have is an [option] field; reading it while it is [None] raises
    [AttributeError]. *)

From Stdlib Require Import ZArith QArith Qround List Bool Lia Lqa Permutation Sorted.
From Stdlib Require Strings.String.
Import ListNotations.
Local Open Scope Z_scope.

(** ** Values *)

(** An image point as the widget stores it: a tuple of two ints. *)
Definition point : Type := Z * Z.

(** A point with float coordinates. *)
Definition fpoint : Type := Q * Q.

Definition to_fpoint (p : point) : fpoint := (inject_Z (fst p), inject_Z (snd p)).

(** A 3x3 matrix, row by row. *)
Record Mat3 : Type := mkMat3 {
  m00 : Q; m01 : Q; m02 : Q;
  m10 : Q; m11 : Q; m12 : Q;
  m20 : Q; m21 : Q; m22 : Q }.

(** The tuple [(x, y, w, h)] returned by [cv2.boundingRect]. *)
Record Rect : Type := mkRect { rect_x : Z; rect_y : Z; rect_w : Z; rect_h : Z }.

(** ** The Python built-ins the module relies on *)

Module Py.

Inductive exn : Type :=
| AttributeError | TypeError | ValueError | IndexError
| ZeroDivisionError | cv2_error
| DevFailed.

Inductive outcome (A : Type) : Type :=
| Ok (a : A)
| Raise (e : exn).
Arguments Ok {A} a.
Arguments Raise {A} e.

(** [int(q)] on a float: truncation toward zero. *)
Definition int (q : Q) : Z := if Qle_bool 0 q then Qfloor q else Qceiling q.

(** [sorted(l, key=key)]: the stable sort, as a stable insertion sort. *)
Fixpoint insort {A : Type} (key : A -> Z) (x : A) (l : list A) : list A :=
  match l with
  | [] => [x]
  | y :: l' => if key x <=? key y then x :: l else y :: insort key x l'
  end.

Definition sorted {A : Type} (key : A -> Z) (l : list A) : list A :=
  fold_right (insort key) [] l.

(** [None in l]. *)
Definition contains_None {A : Type} (l : list (option A)) : bool :=
  existsb (fun c => match c with None => true | Some _ => false end) l.

(** [l.index(None)]. *)
Fixpoint index_None {A : Type} (l : list (option A)) : outcome Z :=
  match l with
  | [] => Raise ValueError
  | None :: _ => Ok 0
  | Some _ :: l' =>
      match index_None l' with
      | Ok i => Ok (i + 1)
      | Raise e => Raise e
      end
  end.

Fixpoint update {A : Type} (l : list A) (n : nat) (v : A) : list A :=
  match l, n with
  | [], _ => []
  | _ :: l', O => v :: l'
  | x :: l', S n' => x :: update l' n' v
  end.

(** [l[i] = v]: a negative index counts from the end, an index out of
    range raises [IndexError]. *)
Definition setitem {A : Type} (l : list A) (i : Z) (v : A) : outcome (list A) :=
  let n := Z.of_nat (length l) in
  if (0 <=? i) && (i <? n) then Ok (update l (Z.to_nat i) v)
  else if (- n <=? i) && (i <? 0) then Ok (update l (Z.to_nat (i + n)) v)
  else Raise IndexError.

(** Evaluating [ls[k]] on every element of a list whose elements are
    tuples or [None]: [None] is not subscriptable. *)
Fixpoint subscriptable {A : Type} (l : list (option A)) : outcome (list A) :=
  match l with
  | [] => Ok []
  | None :: _ => Raise TypeError
  | Some a :: l' =>
      match subscriptable l' with
      | Ok r => Ok (a :: r)
      | Raise e => Raise e
      end
  end.

(** [a, b = l]. *)
Definition unpack2 {A : Type} (l : list A) : outcome (A * A) :=
  match l with
  | [a; b] => Ok (a, b)
  | _ => Raise ValueError
  end.

End Py.

Import Py.

(** ** The OpenCV routines the module calls

    OpenCV is an external library; the widget is parameterised by the
    three routines it uses. *)

Module Cv2.

Record ops : Type := mkOps {
  (** [cv2.getPerspectiveTransform(src, dst)]; [None] stands for a
      raised [cv2.error]. *)
  getPerspectiveTransform : list fpoint -> list fpoint -> option Mat3;
  (** [cv2.perspectiveTransform(pts, M)] on one row of points. *)
  perspectiveTransform : list fpoint -> Mat3 -> list fpoint;
  (** [cv2.boundingRect(pts)]. *)
  boundingRect : list fpoint -> Rect }.

(** The projective action of a matrix on a point: homogeneous multiply,
    then divide by the third component (OpenCV yields zero when that
    component vanishes). *)
Definition homogeneous_w (M : Mat3) (p : fpoint) : Q :=
  (m20 M * fst p + m21 M * snd p + m22 M)%Q.

Definition project (M : Mat3) (p : fpoint) : fpoint :=
  let w := homogeneous_w M p in
  if Qeq_bool w 0 then (0, 0)%Q
  else (((m00 M * fst p + m01 M * snd p + m02 M) / w)%Q,
        ((m10 M * fst p + m11 M * snd p + m12 M) / w)%Q).

(** *** An exact-arithmetic instance

    The linear system OpenCV builds from four correspondences
    [(x, y) -> (u, v)], in the unknowns
    [m00 m01 m02 m10 m11 m12 m20 m21] with [m22 = 1]. *)
Definition row_x (p q : fpoint) : list Q :=
  let '(x, y) := p in let '(u, _) := q in
  [x; y; 1; 0; 0; 0; - x * u; - y * u; u]%Q.

Definition row_y (p q : fpoint) : list Q :=
  let '(x, y) := p in let '(_, v) := q in
  [0; 0; 0; x; y; 1; - x * v; - y * v; v]%Q.

Definition system (src dst : list fpoint) : list (list Q) :=
  map (fun pq => row_x (fst pq) (snd pq)) (combine src dst) ++
  map (fun pq => row_y (fst pq) (snd pq)) (combine src dst).

Definition coeff (r : list Q) (c : nat) : Q := nth c r 0%Q.

(** The first row with a non-zero entry in column [c], and the others. *)
Fixpoint pick_pivot (c : nat) (rows : list (list Q))
  : option (list Q * list (list Q)) :=
  match rows with
  | [] => None
  | r :: rows' =>
      if Qeq_bool (coeff r c) 0 then
        match pick_pivot c rows' with
        | Some (p, others) => Some (p, r :: others)
        | None => None
        end
      else Some (r, rows')
  end.

Definition scale_row (k : Q) (r : list Q) : list Q :=
  map (fun a => Qred (a * k)) r.

Definition sub_row (k : Q) (p r : list Q) : list Q :=
  map (fun ab => Qred (fst ab - k * snd ab)) (combine r p).

Definition clear_column (c : nat) (p : list Q) (rows : list (list Q))
  : list (list Q) :=
  map (fun r => sub_row (coeff r c) p r) rows.

(** Gauss-Jordan elimination over the columns [c, c+1, ..., c+n-1].
    [solved] holds the pivot rows found so far, most recent first. *)
Fixpoint eliminate (n c : nat) (solved rest : list (list Q))
  : option (list (list Q)) :=
  match n with
  | O => Some (rev solved)
  | S n' =>
      match pick_pivot c rest with
      | None => None
      | Some (p, others) =>
          let p' := scale_row (/ coeff p c) p in
          eliminate n' (S c) (p' :: clear_column c p' solved)
                    (clear_column c p' others)
      end
  end.

(** A singular system leaves the eight unknowns at zero, as OpenCV's LU
    solve does. *)
Definition solve8 (rows : list (list Q)) : list Q :=
  match eliminate 8 0 [] rows with
  | Some solved => map (fun r => coeff r 8) solved
  | None => repeat 0%Q 8
  end.

Definition exact_getPerspectiveTransform (src dst : list fpoint) : option Mat3 :=
  if (length src =? 4)%nat && (length dst =? 4)%nat then
    let x := solve8 (system src dst) in
    Some (mkMat3 (coeff x 0) (coeff x 1) (coeff x 2)
                 (coeff x 3) (coeff x 4) (coeff x 5)
                 (coeff x 6) (coeff x 7) 1)
  else None.

Definition q_min (a b : Q) : Q := if Qle_bool a b then a else b.

Definition q_max (a b : Q) : Q := if Qle_bool a b then b else a.

Definition min_list (l : list Q) : Q :=
  match l with [] => 0%Q | a :: l' => fold_left q_min l' a end.

Definition max_list (l : list Q) : Q :=
  match l with [] => 0%Q | a :: l' => fold_left q_max l' a end.

(** The integer box around float points: the floors of the extreme
    coordinates, and one more than their difference. *)
Definition exact_boundingRect (pts : list fpoint) : Rect :=
  let x0 := Qfloor (min_list (map fst pts)) in
  let y0 := Qfloor (min_list (map snd pts)) in
  let x1 := Qfloor (max_list (map fst pts)) in
  let y1 := Qfloor (max_list (map snd pts)) in
  mkRect x0 y0 (x1 - x0 + 1) (y1 - y0 + 1).

Definition exact : ops :=
  mkOps exact_getPerspectiveTransform
        (fun pts M => map (project M) pts)
        exact_boundingRect.

End Cv2.

(** ** The widget state *)

(** [PerspectiveRectButton]: the corner slots and the cursor. *)
Record PerspectiveRectButton : Type := mkBaseRect {
  corners : list (option point);
  currentDefCorner : Z;
  isChecked : bool;
  isEnabled : bool }.

(** [StraightRectButton]: the toggle of the rectified view. *)
Record StraightRectButton : Type := mkStraightRect {
  wantVisibleCorners : bool;
  straightChecked : bool;
  straightEnabled : bool }.

(** [MyMplCanvas]. *)
Record MyMplCanvas : Type := mkCanvas {
  beamPos : point;
  mouseClickPos : option point }.

(** [OrthoView].  [img] is [self.img.shape[:2]], rows first. *)
Record OrthoView : Type := mkOrthoView {
  buttonBaseRect : PerspectiveRectButton;
  scaleX : Q;
  scaleY : Q;
  buttonStraightRect : StraightRectButton;
  plotCanvas : MyMplCanvas;
  img : Z * Z;
  zoom : option Q;
  perspectiveTransform1 : option Mat3;
  boundingRect : option Rect;
  beamPosRectified : fpoint;
  targetRect : option (list point);
  perspectiveTransform2 : option Mat3 }.

Definition set_buttonBaseRect (b : PerspectiveRectButton) (s : OrthoView) : OrthoView :=
  mkOrthoView b (scaleX s) (scaleY s) (buttonStraightRect s) (plotCanvas s) (img s)
    (zoom s) (perspectiveTransform1 s) (boundingRect s) (beamPosRectified s)
    (targetRect s) (perspectiveTransform2 s).

Definition set_scaleX (q : Q) (s : OrthoView) : OrthoView :=
  mkOrthoView (buttonBaseRect s) q (scaleY s) (buttonStraightRect s) (plotCanvas s) (img s)
    (zoom s) (perspectiveTransform1 s) (boundingRect s) (beamPosRectified s)
    (targetRect s) (perspectiveTransform2 s).

Definition set_scaleY (q : Q) (s : OrthoView) : OrthoView :=
  mkOrthoView (buttonBaseRect s) (scaleX s) q (buttonStraightRect s) (plotCanvas s) (img s)
    (zoom s) (perspectiveTransform1 s) (boundingRect s) (beamPosRectified s)
    (targetRect s) (perspectiveTransform2 s).

Definition set_buttonStraightRect (b : StraightRectButton) (s : OrthoView) : OrthoView :=
  mkOrthoView (buttonBaseRect s) (scaleX s) (scaleY s) b (plotCanvas s) (img s)
    (zoom s) (perspectiveTransform1 s) (boundingRect s) (beamPosRectified s)
    (targetRect s) (perspectiveTransform2 s).

Definition set_plotCanvas (c : MyMplCanvas) (s : OrthoView) : OrthoView :=
  mkOrthoView (buttonBaseRect s) (scaleX s) (scaleY s) (buttonStraightRect s) c (img s)
    (zoom s) (perspectiveTransform1 s) (boundingRect s) (beamPosRectified s)
    (targetRect s) (perspectiveTransform2 s).

Definition set_img (i : Z * Z) (s : OrthoView) : OrthoView :=
  mkOrthoView (buttonBaseRect s) (scaleX s) (scaleY s) (buttonStraightRect s) (plotCanvas s) i
    (zoom s) (perspectiveTransform1 s) (boundingRect s) (beamPosRectified s)
    (targetRect s) (perspectiveTransform2 s).

Definition set_zoom (z : Q) (s : OrthoView) : OrthoView :=
  mkOrthoView (buttonBaseRect s) (scaleX s) (scaleY s) (buttonStraightRect s) (plotCanvas s) (img s)
    (Some z) (perspectiveTransform1 s) (boundingRect s) (beamPosRectified s)
    (targetRect s) (perspectiveTransform2 s).

Definition set_perspectiveTransform1 (M : Mat3) (s : OrthoView) : OrthoView :=
  mkOrthoView (buttonBaseRect s) (scaleX s) (scaleY s) (buttonStraightRect s) (plotCanvas s) (img s)
    (zoom s) (Some M) (boundingRect s) (beamPosRectified s)
    (targetRect s) (perspectiveTransform2 s).

Definition set_boundingRect (r : Rect) (s : OrthoView) : OrthoView :=
  mkOrthoView (buttonBaseRect s) (scaleX s) (scaleY s) (buttonStraightRect s) (plotCanvas s) (img s)
    (zoom s) (perspectiveTransform1 s) (Some r) (beamPosRectified s)
    (targetRect s) (perspectiveTransform2 s).

Definition set_beamPosRectified (p : fpoint) (s : OrthoView) : OrthoView :=
  mkOrthoView (buttonBaseRect s) (scaleX s) (scaleY s) (buttonStraightRect s) (plotCanvas s) (img s)
    (zoom s) (perspectiveTransform1 s) (boundingRect s) p
    (targetRect s) (perspectiveTransform2 s).

Definition set_targetRect (r : list point) (s : OrthoView) : OrthoView :=
  mkOrthoView (buttonBaseRect s) (scaleX s) (scaleY s) (buttonStraightRect s) (plotCanvas s) (img s)
    (zoom s) (perspectiveTransform1 s) (boundingRect s) (beamPosRectified s)
    (Some r) (perspectiveTransform2 s).

Definition set_perspectiveTransform2 (M : Mat3) (s : OrthoView) : OrthoView :=
  mkOrthoView (buttonBaseRect s) (scaleX s) (scaleY s) (buttonStraightRect s) (plotCanvas s) (img s)
    (zoom s) (perspectiveTransform1 s) (boundingRect s) (beamPosRectified s)
    (targetRect s) (Some M).

(** ** Methods as state transformers

    A method runs on the widget state and either returns or raises; what
    it assigned before raising stays assigned. *)

Definition M (A : Type) : Type := OrthoView -> outcome A * OrthoView.

Definition ret {A : Type} (a : A) : M A := fun s => (Ok a, s).

Definition raise {A : Type} (e : exn) : M A := fun s => (Raise e, s).

Definition bind {A B : Type} (m : M A) (k : A -> M B) : M B :=
  fun s =>
    match m s with
    | (Ok a, s') => k a s'
    | (Raise e, s') => (Raise e, s')
    end.

Notation "x <- m ;; k" := (bind m (fun x => k))
  (at level 61, m at next level, right associativity).
Notation "m ;; k" := (bind m (fun _ => k))
  (at level 61, right associativity).

Definition gets {A : Type} (f : OrthoView -> A) : M A := fun s => (Ok (f s), s).

Definition modify (f : OrthoView -> OrthoView) : M unit := fun s => (Ok tt, f s).

(** Reading an attribute that may not exist yet. *)
Definition attr {A : Type} (f : OrthoView -> option A) : M A :=
  fun s =>
    match f s with
    | Some a => (Ok a, s)
    | None => (Raise AttributeError, s)
    end.

Definition lift {A : Type} (o : outcome A) : M A := fun s => (o, s).

(** The state a method leaves behind, and what it returned. *)
Definition exec {A : Type} (m : M A) (s : OrthoView) : OrthoView := snd (m s).

Definition result {A : Type} (m : M A) (s : OrthoView) : outcome A := fst (m s).

Definition Qlt_bool (a b : Q) : bool := negb (Qle_bool b a).

(** [np.float32(pts)] on a list of tuples; a [None] entry cannot be
    converted. *)
Definition np_float32 (pts : list (option point)) : outcome (list fpoint) :=
  match subscriptable pts with
  | Ok l => Ok (map to_fpoint l)
  | Raise e => Raise e
  end.

(** Field updates inside the nested objects. *)
Definition set_corners (cs : list (option point)) (s : OrthoView) : OrthoView :=
  let b := buttonBaseRect s in
  set_buttonBaseRect (mkBaseRect cs (currentDefCorner b) (isChecked b) (isEnabled b)) s.

Definition set_currentDefCorner (i : Z) (s : OrthoView) : OrthoView :=
  let b := buttonBaseRect s in
  set_buttonBaseRect (mkBaseRect (corners b) i (isChecked b) (isEnabled b)) s.

Definition base_setChecked (c : bool) (s : OrthoView) : OrthoView :=
  let b := buttonBaseRect s in
  set_buttonBaseRect (mkBaseRect (corners b) (currentDefCorner b) c (isEnabled b)) s.

Definition base_setEnabled (e : bool) (s : OrthoView) : OrthoView :=
  let b := buttonBaseRect s in
  set_buttonBaseRect (mkBaseRect (corners b) (currentDefCorner b) (isChecked b) e) s.

Definition set_wantVisibleCorners (w : bool) (s : OrthoView) : OrthoView :=
  let b := buttonStraightRect s in
  set_buttonStraightRect (mkStraightRect w (straightChecked b) (straightEnabled b)) s.

Definition straight_setChecked (c : bool) (s : OrthoView) : OrthoView :=
  let b := buttonStraightRect s in
  set_buttonStraightRect (mkStraightRect (wantVisibleCorners b) c (straightEnabled b)) s.

Definition straight_setEnabled (e : bool) (s : OrthoView) : OrthoView :=
  let b := buttonStraightRect s in
  set_buttonStraightRect (mkStraightRect (wantVisibleCorners b) (straightChecked b) e) s.

Definition set_beamPos (p : point) (s : OrthoView) : OrthoView :=
  set_plotCanvas (mkCanvas p (mouseClickPos (plotCanvas s))) s.

Definition set_mouseClickPos (p : option point) (s : OrthoView) : OrthoView :=
  set_plotCanvas (mkCanvas (beamPos (plotCanvas s)) p) s.

(** The corners of the axis-aligned output rectangle, [pOut]. *)
Definition rectangle (dX dY : Z) : list point :=
  [(0, 0); (dX, 0); (dX, dY); (0, dY)].

(** The corner sort of [setCorner]: by [y] into a top and a bottom pair,
    each pair by [x], returned as [spt1, spt2, spt3, spt4]. *)
Definition sortCorners (cs : list (option point)) : outcome (list point) :=
  match subscriptable cs with
  | Raise e => Raise e
  | Ok pts =>
      let srtPts := sorted snd pts in
      let topPts := firstn 2 srtPts in
      let bottomPts := skipn 2 srtPts in
      match unpack2 (sorted fst topPts) with
      | Raise e => Raise e
      | Ok (spt1, spt2) =>
          match unpack2 (sorted fst bottomPts) with
          | Raise e => Raise e
          | Ok (spt4, spt3) => Ok [spt1; spt2; spt3; spt4]
          end
      end
  end.

(** What [moveToBeam] does to the outside world: the printed pair, a
    position a motor accepted, the message box with its text. *)
Inductive effect : Type :=
| Print (dx dy : Q)
| WriteMotorX (position : Q)
| WriteMotorY (position : Q)
| MotionFailed (text : String.string).

(** A line of the text of an exception a motor raised, as [moveToBeam]
    looks at it: whether ['desc ='] occurs in it, and what the message
    box would show of it, [line.strip()[7:]]. *)
Record ErrorLine : Type := mkErrorLine {
  has_desc : bool;
  shown : String.string }.

(** What a call to a motor gives: a value, or an exception with the
    lines of its text, [str(e).splitlines()]. *)
Inductive reply (A : Type) : Type :=
| Done (a : A)
| Failed (lines : list ErrorLine).
Arguments Done {A} a.
Arguments Failed {A} lines.

(** A motor device: what reading the attribute [position] gives now,
    and what writing a value to it gives. *)
Record Motor : Type := mkMotor {
  read_position : reply Q;
  write_position : Q -> reply unit }.

(** The statements on [motorY] in [moveToBeam]: nothing guards them, an
    exception of the motor leaves the method. *)
Definition moveY (motorY : option Motor) (y0 : Q) : list effect * outcome unit :=
  match motorY with
  | None => ([], Ok tt)
  | Some mY =>
      match read_position mY with
      | Failed _ => ([], Raise DevFailed)
      | Done curY =>
          match write_position mY (curY + y0)%Q with
          | Failed _ => ([], Raise DevFailed)
          | Done _ => ([WriteMotorY (curY + y0)%Q], Ok tt)
          end
      end
  end.

(** The body of the [try] on [motorX]: the position written, or the
    lines of the exception caught. *)
Definition moveX (mX : Motor) (x0 : Q) : list effect + list ErrorLine :=
  match read_position mX with
  | Failed ls => inr ls
  | Done curX =>
      match write_position mX (curX - x0)%Q with
      | Failed ls => inr ls
      | Done _ => inl [WriteMotorX (curX - x0)%Q]
      end
  end.

(** The motor branch of [moveToBeam]: what it did to the outside, and
    how it ended.  An exception of [motorX] is caught: the last line of
    its text with ['desc ='] goes to a message box and the method
    returns; with no such line the exception is dropped and [motorY]
    moves all the same. *)
Definition motion (motorX motorY : option Motor) (x0 y0 : Q)
  : list effect * outcome unit :=
  match motorX with
  | None => moveY motorY y0
  | Some mX =>
      match moveX mX x0 with
      | inl done => let '(more, r) := moveY motorY y0 in (done ++ more, r)
      | inr ls =>
          match find has_desc (rev ls) with
          | Some l => ([MotionFailed (shown l)], Ok tt)
          | None => moveY motorY y0
          end
      end
  end.

(** The text [set_message] puts on the toolbar label, before number
    formatting. *)
Inductive message : Type :=
| ImageAndPlate (x y x0 y0 : Q)
| Plate (x0 y0 : Q)
| ImageOnly (x y : Q)
| Unchanged.

Section Widget.

Variable cv : Cv2.ops.

(** The shape (rows, columns) of the frames [getFrame] delivers. *)
Variable frame : Z * Z.

(** [OrthoView.canTransform]. *)
Definition canTransform (s : OrthoView) : bool :=
  negb (contains_None (corners (buttonBaseRect s)))
  && Qlt_bool 0 (scaleX s) && Qlt_bool 0 (scaleY s).

(** [OrthoView.transformPoint]. *)
Definition transformPoint (p : fpoint) : M fpoint :=
  T1 <- attr perspectiveTransform1 ;;
  let outPoint := Cv2.perspectiveTransform cv [p] T1 in
  match rev outPoint with
  | [] => raise IndexError
  | q :: _ =>
      bR <- attr boundingRect ;;
      ret ((fst q - inject_Z (rect_x bR))%Q, (snd q - inject_Z (rect_y bR))%Q)
  end.

Definition cv2_getPerspectiveTransform (src dst : list fpoint) : M Mat3 :=
  match Cv2.getPerspectiveTransform cv src dst with
  | Some T => ret T
  | None => raise cv2_error
  end.

(** [OrthoView.getTransform]. *)
Definition getTransform : M unit :=
  shape <- gets img ;;
  let '(dY2, dX2) := shape in
  dX <- gets scaleX ;;
  dY <- gets scaleY ;;
  (if Qeq_bool dX 0 then raise ZeroDivisionError else ret tt) ;;
  modify (set_zoom (inject_Z dX2 / dX)) ;;
  z <- attr zoom ;;
  let dX := int (dX * z) in
  let dY := int (dY * z) in
  pIn <- gets (fun s => corners (buttonBaseRect s)) ;;
  let pOut := rectangle dX dY in
  src <- lift (np_float32 pIn) ;;
  T1 <- cv2_getPerspectiveTransform src (map to_fpoint pOut) ;;
  modify (set_perspectiveTransform1 T1) ;;
  let inCorners := rectangle dX2 dY2 in
  T1 <- attr perspectiveTransform1 ;;
  let outCorners := Cv2.perspectiveTransform cv (map to_fpoint inCorners) T1 in
  modify (set_boundingRect (Cv2.boundingRect cv outCorners)) ;;
  beam <- gets (fun s => beamPos (plotCanvas s)) ;;
  b <- transformPoint (to_fpoint beam) ;;
  modify (set_beamPosRectified b) ;;
  bR <- attr boundingRect ;;
  let tR := map (fun p => (fst p - rect_x bR, snd p - rect_y bR)) pOut in
  modify (set_targetRect tR) ;;
  src <- lift (np_float32 pIn) ;;
  T2 <- cv2_getPerspectiveTransform src (map to_fpoint tR) ;;
  modify (set_perspectiveTransform2 T2).

(** [OrthoView.updateFrame], as far as it touches the state: the new
    frame, and in the rectified view its warp onto a canvas of the size
    of the bounding box.  Drawing is left out. *)
Definition updateFrame : M unit :=
  modify (set_img frame) ;;
  can <- gets canTransform ;;
  chk <- gets (fun s => straightChecked (buttonStraightRect s)) ;;
  if can && chk then
    _ <- attr perspectiveTransform2 ;;
    bR <- attr boundingRect ;;
    modify (set_img (rect_h bR, rect_w bR)) ;;
    _ <- attr zoom ;;
    _ <- attr targetRect ;;
    ret tt
  else ret tt.

(** [StraightRectButton.update]. *)
Definition StraightRectButton_update : M unit :=
  can <- gets canTransform ;;
  modify (set_wantVisibleCorners can) ;;
  (if can then getTransform else ret tt) ;;
  w <- gets (fun s => wantVisibleCorners (buttonStraightRect s)) ;;
  modify (straight_setEnabled w).

(** [StraightRectButton.clickedSlot]. *)
Definition StraightRectButton_clickedSlot : M unit :=
  chk <- gets (fun s => straightChecked (buttonStraightRect s)) ;;
  modify (base_setEnabled (negb chk)) ;;
  getTransform ;;
  updateFrame.

(** [PerspectiveRectButton.clickedSlot]. *)
Definition clickedSlot : M unit :=
  chk <- gets (fun s => isChecked (buttonBaseRect s)) ;;
  (if chk then
     cs <- gets (fun s => corners (buttonBaseRect s)) ;;
     if negb (contains_None cs) then modify (set_currentDefCorner 0)
     else i <- lift (index_None cs) ;; modify (set_currentDefCorner i)
   else modify (set_currentDefCorner (-1))) ;;
  updateFrame.

(** [PerspectiveRectButton.setCorner]. *)
Definition setCorner (xdata ydata : Z) : M unit :=
  cs <- gets (fun s => corners (buttonBaseRect s)) ;;
  i <- gets (fun s => currentDefCorner (buttonBaseRect s)) ;;
  cs' <- lift (setitem cs i (Some (xdata, ydata))) ;;
  modify (set_corners cs') ;;
  modify (set_currentDefCorner (i + 1)) ;;
  i <- gets (fun s => currentDefCorner (buttonBaseRect s)) ;;
  (if i >? 3 then
     modify (set_currentDefCorner 0) ;;
     cs <- gets (fun s => corners (buttonBaseRect s)) ;;
     srt <- lift (sortCorners cs) ;;
     modify (set_corners (map Some srt)) ;;
     modify (base_setChecked false) ;;
     StraightRectButton_update
   else ret tt) ;;
  updateFrame.

(** [PerspectiveRectButton.eventFilter] on the Escape key. *)
Definition eventFilter_Escape : M unit :=
  modify (base_setChecked false) ;;
  clickedSlot.

(** [ScaleEdit.eventFilter] on Enter, for the X and the Y editor. *)
Definition ScaleEdit_Enter (name_is_x : bool) (value : Q) : M unit :=
  modify (if name_is_x then set_scaleX value else set_scaleY value) ;;
  StraightRectButton_update.

(** [MyMplCanvas.onPress]; [pos] is [None] when the event carries no
    data coordinates, else the rounded pixel. *)
Definition onPress (pos : option point) : M unit :=
  match pos with
  | None => modify (set_mouseClickPos None)
  | Some p =>
      modify (set_mouseClickPos (Some p)) ;;
      chk <- gets (fun s => isChecked (buttonBaseRect s)) ;;
      if negb chk then ret tt else setCorner (fst p) (snd p)
  end.

(** [MyMplCanvas.setBeamPosition]; [confirmed] is the answer to the
    confirmation dialog. *)
Definition setBeamPosition (confirmed : bool) : M unit :=
  b <- gets (fun s => beamPos (plotCanvas s)) ;;
  if ((fst b >? 0) || (snd b >? 0)) && negb confirmed then ret tt
  else
    c <- gets (fun s => mouseClickPos (plotCanvas s)) ;;
    match c with
    | None => raise TypeError
    | Some p => modify (set_beamPos p) ;; StraightRectButton_update
    end.

(** The plate coordinates of a position, as both [set_message] and
    [moveToBeam] compute them. *)
Definition plateCoordinates (x y : Q) : M (Q * Q) :=
  C <- gets beamPosRectified ;;
  let '(xC, yC) := C in
  chk <- gets (fun s => straightChecked (buttonStraightRect s)) ;;
  if negb chk then
    P <- transformPoint (x, y) ;;
    let '(xP, yP) := P in
    z <- attr zoom ;;
    ret (((xP - xC) / z)%Q, ((yP - yC) / z)%Q)
  else
    z <- attr zoom ;;
    ret (((x - xC) / z)%Q, ((y - yC) / z)%Q).

(** [MyMplCanvas.moveToBeam].  [isTest] is the module flag; a motor is
    [None] when the module sets it to [None].  The result is what the
    method did to the outside when it returns; when [motorY] raises,
    [motion] tells what was done before. *)
Definition moveToBeam (isTest : bool) (motorX motorY : option Motor) : M (list effect) :=
  c <- gets (fun s => mouseClickPos (plotCanvas s)) ;;
  match c with
  | None => raise TypeError
  | Some p =>
      d <- plateCoordinates (inject_Z (fst p)) (inject_Z (snd p)) ;;
      let '(x0, y0) := d in
      if isTest then ret [Print (- x0)%Q y0]
      else
        let '(done, r) := motion motorX motorY x0 y0 in
        match r with
        | Ok _ => ret done
        | Raise e => raise e
        end
  end.

(** [MyToolBar.set_message] on a cursor position; any exception leaves
    the text as it was. *)
Definition set_message (x y : Q) : M message :=
  fun s =>
    if canTransform s then
      match plateCoordinates x y s with
      | (Ok (x0, y0), s') =>
          if negb (straightChecked (buttonStraightRect s))
          then (Ok (ImageAndPlate x y x0 y0), s')
          else (Ok (Plate x0 y0), s')
      | (Raise _, s') => (Ok Unchanged, s')
      end
    else (Ok (ImageOnly x y), s).

End Widget.

(** ** Construction and the event loop *)

(** The module-level flag and the X motor, as the module sets them. *)
Definition isTest : bool := true.

Definition motorX : option Motor := None.

(** What [OrthoView.__init__] reads from the configuration file. *)
Record Config : Type := mkConfig {
  cfg_corners : list (option point);
  cfg_scalex : Q;
  cfg_scaley : Q;
  cfg_pos : point }.

(** The defaults of the [ConfigParser]. *)
Definition default_config : Config :=
  mkConfig [None; None; None; None] 0 0 (0, 0).

(** The attributes [__init__] assigns before its first [updateFrame]. *)
Definition blank (cfg : Config) : OrthoView :=
  mkOrthoView (mkBaseRect (cfg_corners cfg) (-1) false true)
              (cfg_scalex cfg) (cfg_scaley cfg)
              (mkStraightRect false false false)
              (mkCanvas (cfg_pos cfg) None)
              (0, 0) None None None (0, 0)%Q None None.

(** The user actions and the refresh timer. *)
Inductive event : Type :=
| BaseRectClicked
| BaseRectEscape
| StraightRectClicked
| StraightRectEscape
| Press (pos : option point)
| ScaleEntered (name_is_x : bool) (value : Q)
| MenuDefineBeam (confirmed : bool)
| MenuMoveToBeam
| Tick.

Section EventLoop.

Variable cv : Cv2.ops.
Variable frame : Z * Z.

(** [OrthoView.__init__]: the first frame, then the first update of
    the rectified-view button. *)
Definition construct (cfg : Config) : OrthoView :=
  exec (updateFrame frame ;; StraightRectButton_update cv) (blank cfg).

(** [MyMplCanvas.viewMenu] followed by the chosen action. *)
Definition viewMenu (action : M unit) (enabled : OrthoView -> bool) : M unit :=
  c <- gets (fun s => mouseClickPos (plotCanvas s)) ;;
  match c with
  | None => ret tt
  | Some _ =>
      ok <- gets enabled ;;
      (if ok then action else ret tt) ;;
      updateFrame frame
  end.

(** One turn of the event loop.  A disabled button receives nothing;
    a click on a checkable button toggles it before its slot runs. *)
Definition handle (e : event) : M unit :=
  match e with
  | BaseRectClicked =>
      en <- gets (fun s => isEnabled (buttonBaseRect s)) ;;
      if en then
        chk <- gets (fun s => isChecked (buttonBaseRect s)) ;;
        modify (base_setChecked (negb chk)) ;;
        clickedSlot frame
      else ret tt
  | BaseRectEscape =>
      en <- gets (fun s => isEnabled (buttonBaseRect s)) ;;
      if en then eventFilter_Escape frame else ret tt
  | StraightRectClicked =>
      en <- gets (fun s => straightEnabled (buttonStraightRect s)) ;;
      if en then
        chk <- gets (fun s => straightChecked (buttonStraightRect s)) ;;
        modify (straight_setChecked (negb chk)) ;;
        StraightRectButton_clickedSlot cv frame
      else ret tt
  | StraightRectEscape =>
      en <- gets (fun s => straightEnabled (buttonStraightRect s)) ;;
      if en then
        modify (straight_setChecked false) ;;
        StraightRectButton_clickedSlot cv frame
      else ret tt
  | Press pos => onPress cv frame pos
  | ScaleEntered name_is_x value => ScaleEdit_Enter cv name_is_x value
  | MenuDefineBeam confirmed =>
      viewMenu (setBeamPosition cv confirmed)
               (fun s => negb (straightChecked (buttonStraightRect s)))
  | MenuMoveToBeam =>
      viewMenu (_ <- moveToBeam cv isTest motorX None ;; ret tt) canTransform
  | Tick => updateFrame frame
  end.

(** The event loop goes on after a handler raised. *)
Definition run (es : list event) (s : OrthoView) : OrthoView :=
  fold_left (fun s e => exec (handle e) s) es s.

Inductive reachable : OrthoView -> Prop :=
| reachable_construct (cfg : Config) : reachable (construct cfg)
| reachable_handle (s : OrthoView) (e : event) :
    reachable s -> reachable (exec (handle e) s).

End EventLoop.

(** Four clicks on the canvas, each handed to [setCorner]. *)
Definition setCorners (cv : Cv2.ops) (frame : Z * Z) (ps : list point) (s : OrthoView)
  : OrthoView :=
  fold_left (fun s p => exec (setCorner cv frame (fst p) (snd p)) s) ps s.

(** ** Notions used in the statements *)

(** [x] first, then [y]. *)
Definition lex_le (p q : point) : Prop :=
  fst p < fst q \/ (fst p = fst q /\ snd p <= snd q).

(** All the arrangements of a list. *)
Fixpoint inserts {A : Type} (a : A) (l : list A) : list (list A) :=
  match l with
  | [] => [[a]]
  | x :: l' => (a :: l) :: map (cons x) (inserts a l')
  end.

Fixpoint arrangements {A : Type} (l : list A) : list (list A) :=
  match l with
  | [] => [[]]
  | a :: l' => flat_map (inserts a) (arrangements l')
  end.

(** A method that leaves a part [f] of the state alone, whether it
    returns or raises. *)
Definition keeps {A B : Type} (f : OrthoView -> B) (m : M A) : Prop :=
  forall s, f (exec m s) = f s.

(** The quantities [getTransform] derives before it calls the solver. *)
Definition zoomOf (s : OrthoView) : Q := (inject_Z (snd (img s)) / scaleX s)%Q.

Definition targetWidth (s : OrthoView) : Z := int (scaleX s * zoomOf s).

Definition targetHeight (s : OrthoView) : Z := int (scaleY s * zoomOf s).

Definition pOut (s : OrthoView) : list point :=
  rectangle (targetWidth s) (targetHeight s).

(** The rectangle corners shifted by the origin of a bounding box. *)
Definition shifted (bR : Rect) (ps : list point) : list point :=
  map (fun p => (fst p - rect_x bR, snd p - rect_y bR)) ps.

(** What [transformPoint] reads off the transformed beam position. *)
Definition beamImage (cv : Cv2.ops) (s : OrthoView) (T1 : Mat3) : list fpoint :=
  rev (Cv2.perspectiveTransform cv [to_fpoint (beamPos (plotCanvas s))] T1).

(** The bounding box of the transformed image corners. *)
Definition boxOf (cv : Cv2.ops) (s : OrthoView) (T1 : Mat3) : Rect :=
  Cv2.boundingRect cv
    (Cv2.perspectiveTransform cv
       (map to_fpoint (rectangle (snd (img s)) (fst (img s)))) T1).

Definition shiftBy (bR : Rect) (q : fpoint) : fpoint :=
  ((fst q - inject_Z (rect_x bR))%Q, (snd q - inject_Z (rect_y bR))%Q).

(** The state a completed [getTransform] leaves, given what the OpenCV
    calls returned. *)
Definition transformed (s : OrthoView) (T1 : Mat3) (bR : Rect) (b : fpoint)
           (T2 : Mat3) : OrthoView :=
  mkOrthoView (buttonBaseRect s) (scaleX s) (scaleY s) (buttonStraightRect s)
              (plotCanvas s) (img s)
              (Some (zoomOf s)) (Some T1) (Some bR) b
              (Some (shifted bR (pOut s))) (Some T2).

(** Rounding to the nearest integer. *)
Definition Qround (q : Q) : Z := Qfloor (q + (1 # 2)).

(** The calibration of the specification's scenario A, on a 640x480
    frame. *)
Definition scenarioA : Config :=
  mkConfig [Some (10, 10); Some (110, 10); Some (110, 60); Some (10, 60)]
           50 25 (60, 35).

Definition vga : Z * Z := (480, 640).

(** The widget on default settings, after a click on the corner button. *)
Definition defining : OrthoView :=
  run Cv2.exact vga [BaseRectClicked] (construct Cv2.exact vga default_config).

(** Scenario A with a rectangle of 640 mm by 479.75 mm. *)
Definition tallPlate : Config :=
  mkConfig (cfg_corners scenarioA) 640 (1919 # 4) (cfg_pos scenarioA).

(** The state [__init__] hands to its first [getTransform]. *)
Definition loaded (cfg : Config) : OrthoView := exec (updateFrame vga) (blank cfg).

(** The position of a canvas pixel in the rectified plane: in the
    perspective view the pixel is an image point and goes through
    [transformPoint]; in the rectified view the canvas already shows the
    rectified plane. *)
Definition mapped (cv : Cv2.ops) (s : OrthoView) (p : fpoint) : outcome fpoint :=
  if straightChecked (buttonStraightRect s) then Ok p
  else result (transformPoint cv p) s.

(** Scenario A with a click on the bottom-right corner of the
    rectangle. *)
Definition clickedA : OrthoView :=
  set_mouseClickPos (Some (110, 60)) (loaded scenarioA).

(** An OpenCV whose solver raises, whatever it is given. *)
Definition raising : Cv2.ops :=
  Cv2.mkOps (fun _ _ => None)
            (Cv2.perspectiveTransform Cv2.exact) (Cv2.boundingRect Cv2.exact).

(** Scales and beam set, no corner yet. *)
Definition scalesOnly : Config :=
  mkConfig [None; None; None; None] 50 25 (60, 35).

(** Four clicks along the top edge of the image. *)
Definition collinearClicks : list event :=
  [BaseRectClicked; Press (Some (0, 0)); Press (Some (10, 0));
   Press (Some (20, 0)); Press (Some (30, 0))].

(** What the widget takes for granted of OpenCV: whether the solver
    raises depends on the shape of its arguments only, and transforming
    one point gives back at least one point. *)
Definition well_shaped (cv : Cv2.ops) : Prop :=
  (forall src dst dst',
     length dst = length dst' ->
     Cv2.getPerspectiveTransform cv src dst = None ->
     Cv2.getPerspectiveTransform cv src dst' = None) /\
  (forall p T, Cv2.perspectiveTransform cv [p] T <> []).

(** A method that maintains a property of the state, whether it returns
    or raises. *)
Definition preserves {A : Type} (P : OrthoView -> Prop) (m : M A) : Prop :=
  forall s, P s -> P (exec m s).

Definition transforms (s : OrthoView) : option Mat3 * option Mat3 :=
  (perspectiveTransform1 s, perspectiveTransform2 s).

(** The display transform is the last attribute [getTransform] assigns,
    and nothing else assigns it: while it is missing, no call of
    [getTransform] has completed.  The invariant: then the forward
    transform is missing too. *)
Definition forward_needs_display (s : OrthoView) : Prop :=
  perspectiveTransform2 s = None -> perspectiveTransform1 s = None.

(** A configuration that lacks the first corner only. *)
Definition oneCornerMissing : Config :=
  mkConfig [None; Some (110, 10); Some (110, 60); Some (10, 60)] 50 25 (60, 35).




(** ** Homographies

    The equations OpenCV solves for one correspondence [p -> q]: the
    homogeneous image of [p] is a multiple of [(q, 1)]. *)
Definition corresponds (T : Mat3) (p q : fpoint) : Prop :=
  (m00 T * fst p + m01 T * snd p + m02 T == fst q * Cv2.homogeneous_w T p)%Q /\
  (m10 T * fst p + m11 T * snd p + m12 T == snd q * Cv2.homogeneous_w T p)%Q.

(** [T] solves the system of [src -> dst], normalised as OpenCV does. *)
Definition is_homography (T : Mat3) (src dst : list fpoint) : Prop :=
  (m22 T == 1)%Q /\ Forall2 (corresponds T) src dst.

(** Equality of matrices, entry by entry. *)
Definition Meq (A B : Mat3) : Prop :=
  (m00 A == m00 B /\ m01 A == m01 B /\ m02 A == m02 B /\
   m10 A == m10 B /\ m11 A == m11 B /\ m12 A == m12 B /\
   m20 A == m20 B /\ m21 A == m21 B /\ m22 A == m22 B)%Q.

(** The calibration is not degenerate: the system has one solution at
    most. *)
Definition determined (src dst : list fpoint) : Prop :=
  forall A B, is_homography A src dst -> is_homography B src dst -> Meq A B.

(** [T] followed by the translation by [(tx, ty)]: the product of the
    translation matrix and [T]. *)
Definition translate (tx ty : Q) (T : Mat3) : Mat3 :=
  mkMat3 (m00 T + tx * m20 T) (m01 T + tx * m21 T) (m02 T + tx * m22 T)
         (m10 T + ty * m20 T) (m11 T + ty * m21 T) (m12 T + ty * m22 T)
         (m20 T) (m21 T) (m22 T).

(** A rectangle seen at an angle: the quadrilateral drawn on the corner
    button, already in the order [setCorner] gives it. *)
Definition perspectiveA : Config :=
  mkConfig [Some (12, 10); Some (50, 8); Some (47, 30); Some (11, 26)] 50 25 (30, 18).

(** ** The camera device ([USBCamera.py]) and the frames it serves *)

(** A colour pixel: the three one-byte channels, by channel index. *)
Definition pixel : Type := Z * Z * Z.

Definition is_byte (c : Z) : Prop := 0 <= c < 256.

Definition byte_pixel (p : pixel) : Prop :=
  is_byte (fst (fst p)) /\ is_byte (snd (fst p)) /\ is_byte (snd p).

(** [USBCamera.pack_frame] on one pixel.  The channels are [uint8];
    under NumPy's value-based promotion the product with [0x10000] is
    taken in [uint32], the product with [0x100] in [uint16], and the
    sums in [uint32]. *)
Definition pack_pixel (p : pixel) : Z :=
  let '(c0, c1, c2) := p in
  ((((c0 * 0x10000) mod 2 ^ 32 + (c1 * 0x100) mod 2 ^ 16) mod 2 ^ 32) + c2) mod 2 ^ 32.

(** [USBCamera.pack_frame]: a frame is a list of rows of pixels. *)
Definition pack_frame (fr : list (list pixel)) : list (list Z) :=
  map (map pack_pixel) fr.

(** The unpacking in [OrthoView.getFrame], on one packed pixel: channel
    2 from bits 16 to 23, channel 1 from bits 8 to 15, channel 0 from
    bits 0 to 7. *)
Definition unpack_pixel (f : Z) : pixel :=
  (Z.land f 0xff, Z.land (Z.shiftr f 8) 0xff, Z.land (Z.shiftr f 16) 0xff).

Definition unpack_frame (frame : list (list Z)) : list (list pixel) :=
  map (map unpack_pixel) frame.

(** Reading the channels in the opposite order. *)
Definition reversed (p : pixel) : pixel :=
  let '(c0, c1, c2) := p in (c2, c1, c0).

(** [np.array_equal] on two frames: the same shape and the same
    entries. *)
Definition pixel_eqb (p q : pixel) : bool :=
  let '(a0, a1, a2) := p in
  let '(b0, b1, b2) := q in
  (a0 =? b0) && (a1 =? b1) && (a2 =? b2).

Fixpoint list_eqb {A : Type} (eqb : A -> A -> bool) (l l' : list A) : bool :=
  match l, l' with
  | [], [] => true
  | a :: r, b :: r' => eqb a b && list_eqb eqb r r'
  | _, _ => false
  end.

Definition frame_eqb (f g : list (list pixel)) : bool :=
  list_eqb (list_eqb pixel_eqb) f g.

Module USBCamera.

Inductive DevState : Type := INIT | ON | FAULT.

(** The status texts, the time stamp of the start message left out. *)
Inductive Status : Type :=
| NoStatus
| DeviceDoesNotExist
| StartedCorrectly
| NotStartedCorrectly
| ConnectionError
| ReadError
| DeviceIsOn.

(** What a method may raise. *)
Inductive fault : Type :=
| NoCameraAttribute      (* AttributeError: 'camera' *)
| UnboundRet             (* UnboundLocalError: 'ret' *)
| ShapeMismatch.         (* ValueError: could not broadcast *)

(** The device object.  [camera] is the path of the capture the
    attribute holds, [None] while the attribute does not exist;
    [previous_frame] is [None] for the empty array of [init_device]. *)
Record Device : Type := mkDevice {
  state : DevState;
  status : Status;
  camera : option nat;
  image : option (list (list Z));
  previous_frame : option (list (list pixel)) }.

(** What the operating system shows at the time of a call: the sorted
    paths that match the device name, which of them open as a capture,
    and whether an existing capture is still open. *)
Record World : Type := mkWorld {
  device_paths : list nat;
  opens : nat -> bool;
  isOpened : nat -> bool }.

(** The loop of [init_device]: the first path that opens, else the last
    one tried. *)
Fixpoint try_paths (opens : nat -> bool) (paths : list nat) (last : option nat)
  : option nat :=
  match paths with
  | [] => last
  | p :: rest => if opens p then Some p else try_paths opens rest (Some p)
  end.

(** [USBCamera.init_device].  A device that has no [camera] attribute
    yet and finds no path keeps none. *)
Definition init_device (w : World) (d : Device) : Device :=
  match device_paths w with
  | [] => mkDevice FAULT DeviceDoesNotExist (camera d) None None
  | paths =>
      let cam := try_paths (opens w) paths (camera d) in
      match cam with
      | Some p =>
          if opens w p
          then mkDevice ON StartedCorrectly cam None None
          else mkDevice FAULT NotStartedCorrectly cam None None
      | None => mkDevice FAULT NotStartedCorrectly cam None None
      end
  end.

(** [USBCamera.delete_device]: the capture is released and the
    attribute deleted; a missing attribute is passed over. *)
Definition delete_device (d : Device) : Device :=
  mkDevice (state d) (status d) None (image d) (previous_frame d).

(** [USBCamera.was_fault]. *)
Definition was_fault (w : World) (d : Device) : bool * Device :=
  match state d with
  | FAULT => (true, init_device w (delete_device d))
  | _ => (false, d)
  end.

Definition shape {A : Type} (a : list (list A)) : nat * nat :=
  (length a, match a with [] => O | r :: _ => length r end).

(** [self._image[:, :] = packed], NumPy's assignment with broadcasting:
    along each axis the source has the length of the target or the
    length 1, and then its one entry is repeated; else [ValueError].
    The image keeps its shape.  (An array without rows is taken to have
    no columns.) *)
Definition assign (old packed : list (list Z)) : option (list (list Z)) :=
  let '(h0, w0) := shape old in
  let '(h, w) := shape packed in
  if ((Nat.eqb h h0 || Nat.eqb h 1) && (Nat.eqb w w0 || Nat.eqb w 1))%bool then
    let rows :=
      if Nat.eqb w w0 then packed
      else map (fun r => repeat (hd 0 r) w0) packed in
    Some (if Nat.eqb h h0 then rows else repeat (hd [] rows) h0)
  else None.

(** [USBCamera.read_attr_hardware].  [reading] is what [camera.read()]
    gives: [None] when it raises, else the flag and the frame. *)
Definition read_attr_hardware (w : World)
           (reading : option (bool * list (list pixel))) (d : Device)
  : Device + fault * Device :=
  let '(was, d) := was_fault w d in
  if was then inl d
  else
    match camera d with
    | None => inr (NoCameraAttribute, d)
    | Some cam =>
        if negb (isOpened w cam) then
          inl (init_device w
                 (delete_device
                    (mkDevice FAULT ConnectionError (camera d) (image d) (previous_frame d))))
        else
          match reading with
          | None => inr (UnboundRet, d)
          | Some (ret_, frame) =>
              let same :=
                match previous_frame d with
                | Some prev => frame_eqb prev frame
                | None => false
                end in
              if negb ret_ || same then
                inl (init_device w
                       (delete_device
                          (mkDevice FAULT ReadError (camera d) (image d) (previous_frame d))))
              else
                let packed := pack_frame frame in
                match image d with
                | Some old =>
                    match assign old packed with
                    | Some im =>
                        inl (mkDevice ON DeviceIsOn (camera d) (Some im) (Some frame))
                    | None => inr (ShapeMismatch, d)
                    end
                | None => inl (mkDevice ON DeviceIsOn (camera d) (Some packed) (Some frame))
                end
          end
    end.

(** [USBCamera.read_image]. *)
Definition read_image (w : World) (d : Device) : option (list (list Z)) * Device :=
  let '(_, d) := was_fault w d in (image d, d).

(** [USBCamera.is_image_allowed]. *)
Definition is_image_allowed (w : World) (d : Device) : bool * Device :=
  let '(_, d) := was_fault w d in
  (match state d with FAULT => false | _ => true end, d).

End USBCamera.

(** One camera that is present and opens, and the device started on
    it. *)
Definition oneCamera : USBCamera.World :=
  USBCamera.mkWorld [0%nat] (fun _ => true) (fun _ => true).

Definition started : USBCamera.Device :=
  USBCamera.init_device oneCamera
    (USBCamera.mkDevice USBCamera.INIT USBCamera.NoStatus None None None).

(** What [setCorner] does to the corner button, read off its body: the
    item assignment may raise and leave the button as it is; past slot 3
    the list is sorted and the button released, or, when the sort
    raises, the cursor alone is reset. *)
Definition pressed (b : PerspectiveRectButton) (p : point) : PerspectiveRectButton :=
  match setitem (corners b) (currentDefCorner b) (Some p) with
  | Raise _ => b
  | Ok cs =>
      if currentDefCorner b + 1 >? 3 then
        match sortCorners cs with
        | Ok srt => mkBaseRect (map Some srt) 0 false (isEnabled b)
        | Raise _ => mkBaseRect cs 0 (isChecked b) (isEnabled b)
        end
      else mkBaseRect cs (currentDefCorner b + 1) (isChecked b) (isEnabled b)
  end.

(** ** What the event loop maintains *)

(** The attributes [getTransform] assigns before the display transform
    are there whenever the display transform is. *)
Definition derived (s : OrthoView) : Prop :=
  perspectiveTransform2 s <> None ->
  zoom s <> None /\ perspectiveTransform1 s <> None /\
  boundingRect s <> None /\ targetRect s <> None.

(** The rectify button is enabled or checked only with a display
    transform behind it. *)
Definition view_backed (s : OrthoView) : Prop :=
  derived s /\
  (straightEnabled (buttonStraightRect s) = true -> perspectiveTransform2 s <> None) /\
  (straightChecked (buttonStraightRect s) = true -> perspectiveTransform2 s <> None).

Definition coherent (s : OrthoView) : Prop :=
  view_backed s /\
  (straightEnabled (buttonStraightRect s) = true -> canTransform s = true).

(** Four corner slots; while the corner button is checked, the cursor
    is on one of them and every slot before it is filled. *)
Definition slots_ok (b : PerspectiveRectButton) : Prop :=
  length (corners b) = 4%nat /\
  (isChecked b = true ->
   0 <= currentDefCorner b <= 3 /\
   contains_None (firstn (Z.to_nat (currentDefCorner b)) (corners b)) = false).

Definition cursor_ok (s : OrthoView) : Prop := slots_ok (buttonBaseRect s).

(** The one exception left to a handler: OpenCV's solver refusing its
    input. *)
Definition benign {A : Type} (r : outcome A) : Prop :=
  match r with
  | Ok _ => True
  | Raise e => e = cv2_error
  end.

(** [s'] has the corners, the scales and the rectify button of [s],
    and the derived attributes of [s] or newer ones: none was taken
    away. *)
Definition extends (s s' : OrthoView) : Prop :=
  corners (buttonBaseRect s') = corners (buttonBaseRect s) /\
  scaleX s' = scaleX s /\ scaleY s' = scaleY s /\
  buttonStraightRect s' = buttonStraightRect s /\
  (derived s -> derived s') /\
  (perspectiveTransform2 s <> None -> perspectiveTransform2 s' <> None).

(** What [extends] compares. *)
Definition ccore (s : OrthoView) :=
  (corners (buttonBaseRect s), scaleX s, scaleY s, buttonStraightRect s,
   (zoom s, perspectiveTransform1 s, boundingRect s, targetRect s,
    perspectiveTransform2 s)).

(** What [cursor_ok] reads. *)
Definition slots (s : OrthoView) :=
  (corners (buttonBaseRect s), currentDefCorner (buttonBaseRect s),
   isChecked (buttonBaseRect s)).

(** A device that has been initialised is out of INIT, and while it is
    ON it holds a capture. *)
Definition holds_capture (d : USBCamera.Device) : Prop :=
  match USBCamera.state d with
  | USBCamera.ON => USBCamera.camera d <> None
  | USBCamera.FAULT => True
  | USBCamera.INIT => False
  end.

(** * Properties *)

(** ** The sort *)

Lemma insort_perm {A : Type} (key : A -> Z) (x : A) (l : list A) :
  Permutation (insort key x l) (x :: l).
Proof.
  induction l as [|y l IH]; simpl.
  - apply Permutation_refl.
  - destruct (key x <=? key y).
    + apply Permutation_refl.
    + eapply perm_trans; [apply perm_skip, IH | apply perm_swap].
Qed.

Lemma sorted_perm {A : Type} (key : A -> Z) (l : list A) :
  Permutation (sorted key l) l.
Proof.
  induction l as [|x l IH]; simpl.
  - constructor.
  - eapply perm_trans; [apply insort_perm | apply perm_skip, IH].
Qed.

Lemma insort_ordered {A : Type} (key : A -> Z) (x : A) (l : list A) :
  StronglySorted (fun a b => key a <= key b) l ->
  StronglySorted (fun a b => key a <= key b) (insort key x l).
Proof.
  induction 1 as [|y l Hl IH Hy]; simpl.
  - repeat constructor.
  - destruct (Z.leb_spec (key x) (key y)) as [Hxy|Hxy].
    + constructor; [constructor; assumption|].
      constructor; [assumption|].
      rewrite Forall_forall in Hy |- *. intros z Hz. specialize (Hy z Hz). lia.
    + constructor; [assumption|].
      rewrite Forall_forall in Hy |- *. intros z Hz.
      apply (Permutation_in _ (insort_perm key x l)) in Hz.
      destruct Hz as [<-|Hz]; [lia | auto].
Qed.

Lemma sorted_ordered {A : Type} (key : A -> Z) (l : list A) :
  StronglySorted (fun a b => key a <= key b) (sorted key l).
Proof.
  induction l as [|x l IH]; simpl.
  - constructor.
  - apply insort_ordered, IH.
Qed.

Lemma inserts_In {A : Type} (a : A) (l1 l2 : list A) :
  In (l1 ++ a :: l2) (inserts a (l1 ++ l2)).
Proof.
  induction l1 as [|x l1 IH]; simpl.
  - destruct l2; simpl; auto.
  - right. apply in_map, IH.
Qed.

Lemma arrangements_complete {A : Type} (l l' : list A) :
  Permutation l l' -> In l' (arrangements l).
Proof.
  revert l'. induction l as [|a l IH]; intros l' H.
  - apply Permutation_nil in H. subst. simpl. auto.
  - assert (Ha : In a l') by (eapply Permutation_in; [exact H | left; reflexivity]).
    apply in_split in Ha. destruct Ha as (l1 & l2 & ->).
    apply Permutation_cons_app_inv in H.
    simpl. apply in_flat_map. exists (l1 ++ l2). split.
    + apply IH, H.
    + apply inserts_In.
Qed.

Ltac split_leb :=
  repeat match goal with
  | |- context [?a <=? ?b] => destruct (Z.leb_spec a b); simpl; try lia
  end.

Ltac perm_solve :=
  simpl;
  match goal with
  | |- Permutation [] [] => constructor
  | |- Permutation (?a :: ?l) ?r =>
      first [ apply (Permutation_cons_app [] _ a)
            | apply (Permutation_cons_app [_] _ a)
            | apply (Permutation_cons_app [_; _] _ a)
            | apply (Permutation_cons_app [_; _; _] _ a) ];
      perm_solve
  end.

(** On four points the corner sort never raises; its result rearranges
    the points, puts no top point below a bottom point, and orders each
    pair by [x], a tie in [x] by [y]. *)
Lemma sortCorners_sound (a b c d : point) :
  exists tl tr br bl,
    sortCorners [Some a; Some b; Some c; Some d] = Ok [tl; tr; br; bl] /\
    Permutation [a; b; c; d] [tl; tr; br; bl] /\
    (snd tl <= snd br /\ snd tl <= snd bl /\ snd tr <= snd br /\ snd tr <= snd bl) /\
    lex_le tl tr /\ lex_le bl br.
Proof.
  destruct a as [xa ya], b as [xb yb], c as [xc yc], d as [xd yd].
  unfold sortCorners, sorted, lex_le. simpl.
  split_leb;
    (do 4 eexists; split; [reflexivity|]; split; [perm_solve|]; simpl; lia).
Qed.

(** When both top points lie strictly above both bottom points, the
    properties above determine the result, whatever the order of the
    input. *)
Lemma sortCorners_complete (l : list point) (tl tr br bl : point) :
  Permutation [tl; tr; br; bl] l ->
  snd tl < snd br -> snd tl < snd bl -> snd tr < snd br -> snd tr < snd bl ->
  lex_le tl tr -> lex_le bl br ->
  sortCorners (map Some l) = Ok [tl; tr; br; bl].
Proof.
  intros H. apply arrangements_complete in H.
  destruct tl as [x1 y1], tr as [x2 y2], br as [x3 y3], bl as [x4 y4].
  unfold lex_le. simpl. intros.
  simpl in H.
  repeat (destruct H as [H|H];
    [subst l; unfold sortCorners, sorted; simpl; split_leb;
     try (assert (x1 = x2 /\ y1 = y2) as [-> ->] by lia);
     try (assert (x3 = x4 /\ y3 = y4) as [-> ->] by lia);
     reflexivity|]).
  contradiction.
Qed.

(** ** Running methods *)

Lemma exec_bind {A B : Type} (m : M A) (k : A -> M B) (s : OrthoView) :
  exec (bind m k) s =
  match result m s with
  | Ok a => exec (k a) (exec m s)
  | Raise _ => exec m s
  end.
Proof. unfold exec, result, bind. destruct (m s) as [[a|e] s']; reflexivity. Qed.

Lemma keeps_bind {A B C : Type} (f : OrthoView -> C) (m : M A) (k : A -> M B) :
  keeps f m -> (forall a, keeps f (k a)) -> keeps f (bind m k).
Proof.
  intros Hm Hk s. rewrite exec_bind. destruct (result m s).
  - rewrite Hk. apply Hm.
  - apply Hm.
Qed.

Lemma keeps_ret {A C : Type} (f : OrthoView -> C) (a : A) : keeps f (ret a).
Proof. intros s. reflexivity. Qed.

Lemma keeps_raise {A C : Type} (f : OrthoView -> C) (e : exn) : keeps f (@raise A e).
Proof. intros s. reflexivity. Qed.

Lemma keeps_gets {A C : Type} (f : OrthoView -> C) (g : OrthoView -> A) :
  keeps f (gets g).
Proof. intros s. reflexivity. Qed.

Lemma keeps_attr {A C : Type} (f : OrthoView -> C) (g : OrthoView -> option A) :
  keeps f (attr g).
Proof. intros s. unfold exec, attr. destruct (g s); reflexivity. Qed.

Lemma keeps_lift {A C : Type} (f : OrthoView -> C) (o : outcome A) : keeps f (lift o).
Proof. intros s. reflexivity. Qed.

Lemma keeps_modify {C : Type} (f : OrthoView -> C) (g : OrthoView -> OrthoView) :
  (forall s, f (g s) = f s) -> keeps f (modify g).
Proof. intros H s. apply H. Qed.

Ltac keeps_step :=
  first
    [ apply keeps_bind; [|intros]
    | apply keeps_ret
    | apply keeps_raise
    | apply keeps_gets
    | apply keeps_attr
    | apply keeps_lift
    | apply keeps_modify; intros; reflexivity
    | match goal with
      | |- keeps _ (if ?b then _ else _) => destruct b
      | |- keeps _ (match ?x with _ => _ end) => destruct x
      end ].

Lemma keeps_transformPoint {C : Type} (f : OrthoView -> C) cv p :
  keeps f (transformPoint cv p).
Proof. unfold transformPoint. repeat keeps_step. Qed.

Lemma keeps_solver {C : Type} (f : OrthoView -> C) cv src dst :
  keeps f (cv2_getPerspectiveTransform cv src dst).
Proof. unfold cv2_getPerspectiveTransform. repeat keeps_step. Qed.

(** The transform derivation and the frame update leave the corner
    button alone. *)
Lemma getTransform_keeps_buttonBaseRect cv : keeps buttonBaseRect (getTransform cv).
Proof.
  unfold getTransform.
  repeat first [apply keeps_transformPoint | apply keeps_solver | keeps_step].
Qed.

Lemma updateFrame_keeps_buttonBaseRect frame : keeps buttonBaseRect (updateFrame frame).
Proof. unfold updateFrame. repeat keeps_step. Qed.

Lemma update_keeps_buttonBaseRect cv :
  keeps buttonBaseRect (StraightRectButton_update cv).
Proof.
  unfold StraightRectButton_update.
  repeat first [apply getTransform_keeps_buttonBaseRect | keeps_step].
Qed.

Lemma exec_gets_bind {A B : Type} (g : OrthoView -> A) (k : A -> M B) s :
  exec (bind (gets g) k) s = exec (k (g s)) s.
Proof. reflexivity. Qed.

Lemma exec_modify_bind {B : Type} (g : OrthoView -> OrthoView) (k : unit -> M B) s :
  exec (bind (modify g) k) s = exec (k tt) (g s).
Proof. reflexivity. Qed.

Lemma exec_lift_bind {A B : Type} (a : A) (k : A -> M B) s :
  exec (bind (lift (Ok a)) k) s = exec (k a) s.
Proof. reflexivity. Qed.

Lemma exec_ret_bind {A B : Type} (a : A) (k : A -> M B) s :
  exec (bind (ret a) k) s = exec (k a) s.
Proof. reflexivity. Qed.

(** ** [setCorner] *)

(** Before the fourth slot, [setCorner] stores the point and advances
    the cursor. *)
Lemma setCorner_fills cv frame x y s :
  let b := buttonBaseRect s in
  0 <= currentDefCorner b < 3 ->
  currentDefCorner b < Z.of_nat (length (corners b)) ->
  buttonBaseRect (exec (setCorner cv frame x y) s) =
  mkBaseRect (update (corners b) (Z.to_nat (currentDefCorner b)) (Some (x, y)))
             (currentDefCorner b + 1) (isChecked b) (isEnabled b).
Proof.
  intros b Hi Hn. unfold setCorner.
  rewrite !exec_gets_bind. fold b.
  unfold setitem.
  replace ((0 <=? currentDefCorner b) && (currentDefCorner b <? Z.of_nat (length (corners b))))
    with true by (symmetry; apply andb_true_iff; split; [apply Z.leb_le | apply Z.ltb_lt]; lia).
  rewrite exec_lift_bind, !exec_modify_bind, exec_gets_bind.
  cbn [set_currentDefCorner set_corners set_buttonBaseRect buttonBaseRect
       currentDefCorner corners isChecked isEnabled].
  replace (currentDefCorner b + 1 >? 3) with false by (symmetry; rewrite Z.gtb_ltb; apply Z.ltb_ge; lia).
  rewrite exec_ret_bind, updateFrame_keeps_buttonBaseRect. reflexivity.
Qed.

(** At the fourth slot it stores the point and replaces the list by the
    sorted one, resets the cursor and releases the button. *)
Lemma setCorner_sorts cv frame x y s srt :
  let b := buttonBaseRect s in
  currentDefCorner b = 3 ->
  length (corners b) = 4%nat ->
  sortCorners (update (corners b) 3 (Some (x, y))) = Ok srt ->
  buttonBaseRect (exec (setCorner cv frame x y) s) =
  mkBaseRect (map Some srt) 0 false (isEnabled b).
Proof.
  intros b Hi Hn Hs. unfold setCorner.
  rewrite !exec_gets_bind. fold b.
  unfold setitem. rewrite Hi, Hn. cbn [Z.of_nat Z.leb Z.ltb andb Z.compare Pos.of_succ_nat
    Pos.succ Pos.compare Pos.compare_cont Z.to_nat Pos.to_nat Pos.iter_op Nat.add].
  rewrite exec_lift_bind, !exec_modify_bind, exec_gets_bind.
  cbn [set_currentDefCorner set_corners set_buttonBaseRect buttonBaseRect
       currentDefCorner corners isChecked isEnabled].
  change (3 + 1 >? 3) with true. cbv iota.
  rewrite exec_bind.
  match goal with
  | |- context [result ?m ?s0] =>
      assert (Hkeep : buttonBaseRect (exec m s0) = mkBaseRect (map Some srt) 0 false (isEnabled b))
  end.
  { rewrite exec_modify_bind, exec_gets_bind.
    cbn [set_currentDefCorner set_corners set_buttonBaseRect buttonBaseRect
         currentDefCorner corners isChecked isEnabled].
    change (Pos.to_nat 3) with 3%nat.
    rewrite Hs, exec_lift_bind, !exec_modify_bind.
    rewrite update_keeps_buttonBaseRect. reflexivity. }
  match goal with
  | |- context [result ?m ?s0] => destruct (result m s0)
  end.
  - rewrite updateFrame_keeps_buttonBaseRect. exact Hkeep.
  - exact Hkeep.
Qed.

Lemma setCorners_four cv frame s p1 p2 p3 p4 srt :
  let b := buttonBaseRect s in
  length (corners b) = 4%nat ->
  currentDefCorner b = 0 ->
  sortCorners [Some p1; Some p2; Some p3; Some p4] = Ok srt ->
  buttonBaseRect (setCorners cv frame [p1; p2; p3; p4] s) =
  mkBaseRect (map Some srt) 0 false (isEnabled b).
Proof.
  intros b Hn Hi Hs. unfold setCorners. cbn [fold_left].
  destruct (corners b) as [|c0 [|c1 [|c2 [|c3 [|? ?]]]]] eqn:Hc; try discriminate.
  set (s1 := exec (setCorner cv frame (fst p1) (snd p1)) s).
  assert (H1 : buttonBaseRect s1 =
               mkBaseRect [Some p1; c1; c2; c3] 1 (isChecked b) (isEnabled b)).
  { unfold s1. rewrite setCorner_fills; fold b; rewrite ?Hi, ?Hc; simpl; try lia.
    destruct p1; reflexivity. }
  set (s2 := exec (setCorner cv frame (fst p2) (snd p2)) s1).
  assert (H2 : buttonBaseRect s2 =
               mkBaseRect [Some p1; Some p2; c2; c3] 2 (isChecked b) (isEnabled b)).
  { unfold s2. rewrite setCorner_fills; rewrite H1; simpl; try lia.
    destruct p2; reflexivity. }
  set (s3 := exec (setCorner cv frame (fst p3) (snd p3)) s2).
  assert (H3 : buttonBaseRect s3 =
               mkBaseRect [Some p1; Some p2; Some p3; c3] 3 (isChecked b) (isEnabled b)).
  { unfold s3. rewrite setCorner_fills; rewrite H2; simpl; try lia.
    destruct p3; reflexivity. }
  rewrite (setCorner_sorts cv frame (fst p4) (snd p4) s3 srt); rewrite H3; simpl;
    try reflexivity.
  destruct p4; exact Hs.
Qed.

(** C1 (as amended).  Four points handed to [setCorner] one after the
    other, starting at slot 0, leave the corner list sorted: it holds the
    four points, no top point has a larger [y] than a bottom point, and in
    each pair the point with the smaller [x] is the left one, in the order
    top-left, top-right, bottom-right, bottom-left.  When both top points
    lie strictly above both bottom points, every other order of the same
    four clicks yields the same list; a tie in [y] between the second and
    the third point is broken by the order of the clicks. *)
Theorem setCorner_canonical_order cv frame (s : OrthoView) (p1 p2 p3 p4 : point) :
  length (corners (buttonBaseRect s)) = 4%nat ->
  currentDefCorner (buttonBaseRect s) = 0 ->
  exists tl tr br bl,
    corners (buttonBaseRect (setCorners cv frame [p1; p2; p3; p4] s))
      = [Some tl; Some tr; Some br; Some bl] /\
    currentDefCorner (buttonBaseRect (setCorners cv frame [p1; p2; p3; p4] s)) = 0 /\
    Permutation [p1; p2; p3; p4] [tl; tr; br; bl] /\
    (snd tl <= snd br /\ snd tl <= snd bl /\ snd tr <= snd br /\ snd tr <= snd bl) /\
    fst tl <= fst tr /\ fst bl <= fst br /\
    (snd tl < snd br -> snd tl < snd bl -> snd tr < snd br -> snd tr < snd bl ->
     forall cv' frame' (s' : OrthoView) (qs : list point),
       length (corners (buttonBaseRect s')) = 4%nat ->
       currentDefCorner (buttonBaseRect s') = 0 ->
       Permutation [p1; p2; p3; p4] qs ->
       corners (buttonBaseRect (setCorners cv' frame' qs s'))
         = [Some tl; Some tr; Some br; Some bl]).
Proof.
  intros Hn Hi.
  destruct (sortCorners_sound p1 p2 p3 p4)
    as (tl & tr & br & bl & Hs & Hp & Hy & Ht & Hb).
  exists tl, tr, br, bl.
  rewrite (setCorners_four cv frame s p1 p2 p3 p4 _ Hn Hi Hs). cbn [corners currentDefCorner map].
  repeat split; try tauto.
  - destruct Ht as [?|[? _]]; lia.
  - destruct Hb as [?|[? _]]; lia.
  - intros Y1 Y2 Y3 Y4 cv' frame' s' qs Hn' Hi' Hq.
    assert (Hlen : length qs = 4%nat) by (rewrite <- (Permutation_length Hq); reflexivity).
    destruct qs as [|q1 [|q2 [|q3 [|q4 [|? ?]]]]]; try discriminate.
    assert (Hs' : sortCorners (map Some [q1; q2; q3; q4]) = Ok [tl; tr; br; bl]).
    { apply sortCorners_complete; try assumption.
      eapply perm_trans; [apply Permutation_sym, Hp | exact Hq]. }
    rewrite (setCorners_four cv' frame' s' q1 q2 q3 q4 _ Hn' Hi' Hs'). reflexivity.
Qed.

(** C1, witness: the corners of scenario A clicked in reverse order. *)
Lemma setCorner_canonical_order_witness :
  length (corners (buttonBaseRect defining)) = 4%nat /\
  currentDefCorner (buttonBaseRect defining) = 0 /\
  exists tl tr br bl,
    corners (buttonBaseRect
               (setCorners Cv2.exact vga [(10, 60); (110, 60); (110, 10); (10, 10)] defining))
      = [Some tl; Some tr; Some br; Some bl] /\
    currentDefCorner (buttonBaseRect
               (setCorners Cv2.exact vga [(10, 60); (110, 60); (110, 10); (10, 10)] defining))
      = 0 /\
    Permutation [(10, 60); (110, 60); (110, 10); (10, 10)] [tl; tr; br; bl] /\
    (snd tl <= snd br /\ snd tl <= snd bl /\ snd tr <= snd br /\ snd tr <= snd bl) /\
    fst tl <= fst tr /\ fst bl <= fst br /\
    (snd tl < snd br -> snd tl < snd bl -> snd tr < snd br -> snd tr < snd bl ->
     forall cv' frame' (s' : OrthoView) (qs : list point),
       length (corners (buttonBaseRect s')) = 4%nat ->
       currentDefCorner (buttonBaseRect s') = 0 ->
       Permutation [(10, 60); (110, 60); (110, 10); (10, 10)] qs ->
       corners (buttonBaseRect (setCorners cv' frame' qs s'))
         = [Some tl; Some tr; Some br; Some bl]).
Proof.
  split; [reflexivity|]. split; [reflexivity|].
  apply (setCorner_canonical_order Cv2.exact vga defining); reflexivity.
Defined.

(** C1, counterexample: the corners of a diamond, two of them level.
    Clicked as top, left, right, bottom and as top, right, left, bottom
    they are the same four points, and the two corner lists differ. *)
Lemma setCorner_order_depends_on_clicks :
  Permutation [(5, 0); (0, 5); (10, 5); (5, 10)] [(5, 0); (10, 5); (0, 5); (5, 10)] /\
  corners (buttonBaseRect
             (setCorners Cv2.exact vga [(5, 0); (0, 5); (10, 5); (5, 10)] defining))
    = [Some (0, 5); Some (5, 0); Some (10, 5); Some (5, 10)] /\
  corners (buttonBaseRect
             (setCorners Cv2.exact vga [(5, 0); (10, 5); (0, 5); (5, 10)] defining))
    = [Some (5, 0); Some (10, 5); Some (5, 10); Some (0, 5)] /\
  corners (buttonBaseRect
             (setCorners Cv2.exact vga [(5, 0); (0, 5); (10, 5); (5, 10)] defining))
    <> corners (buttonBaseRect
             (setCorners Cv2.exact vga [(5, 0); (10, 5); (0, 5); (5, 10)] defining)).
Proof.
  split; [apply perm_skip, perm_swap|].
  split; [vm_compute; reflexivity|].
  split; [vm_compute; reflexivity|].
  vm_compute. discriminate.
Qed.

(** ** [getTransform] *)

Ltac run_method :=
  unfold bind, gets, modify, attr, lift, ret, raise; cbn beta iota.

(** The four ways [getTransform] can end, by what its inputs and the
    OpenCV calls give. *)
Lemma getTransform_zero_scale cv s :
  Qeq_bool (scaleX s) 0 = true ->
  getTransform cv s = (Raise ZeroDivisionError, s).
Proof.
  intros H. unfold getTransform. run_method.
  destruct (img s) as [dY2 dX2]. rewrite H. reflexivity.
Qed.

Lemma getTransform_bad_corners cv s e :
  Qeq_bool (scaleX s) 0 = false ->
  np_float32 (corners (buttonBaseRect s)) = Raise e ->
  getTransform cv s = (Raise e, set_zoom (zoomOf s) s).
Proof.
  intros H0 H1. unfold getTransform. run_method. unfold zoomOf.
  destruct (img s) as [dY2 dX2]. rewrite H0. cbn.
  rewrite H1. reflexivity.
Qed.

Lemma getTransform_first_solve_fails cv s src :
  Qeq_bool (scaleX s) 0 = false ->
  np_float32 (corners (buttonBaseRect s)) = Ok src ->
  Cv2.getPerspectiveTransform cv src (map to_fpoint (pOut s)) = None ->
  getTransform cv s = (Raise cv2_error, set_zoom (zoomOf s) s).
Proof.
  intros H0 H1 H2. unfold getTransform. run_method.
  unfold pOut, targetWidth, targetHeight, zoomOf in *.
  destruct (img s) as [dY2 dX2]. rewrite H0. cbn.
  rewrite H1. unfold cv2_getPerspectiveTransform. cbn in H2 |- *. rewrite H2. reflexivity.
Qed.

Lemma getTransform_no_beam_image cv s src T1 :
  Qeq_bool (scaleX s) 0 = false ->
  np_float32 (corners (buttonBaseRect s)) = Ok src ->
  Cv2.getPerspectiveTransform cv src (map to_fpoint (pOut s)) = Some T1 ->
  beamImage cv s T1 = [] ->
  getTransform cv s =
  (Raise IndexError,
   set_boundingRect (boxOf cv s T1)
     (set_perspectiveTransform1 T1 (set_zoom (zoomOf s) s))).
Proof.
  intros H0 H1 H2 H3. unfold getTransform. run_method.
  unfold pOut, targetWidth, targetHeight, zoomOf, beamImage, boxOf in *.
  destruct (img s) as [dY2 dX2]. rewrite H0. cbn.
  rewrite H1. unfold cv2_getPerspectiveTransform. cbn in H2 |- *. rewrite H2. cbn.
  unfold transformPoint. run_method. cbn. cbn in H3. rewrite H3. reflexivity.
Qed.

Lemma getTransform_second_solve_fails cv s src T1 q rest :
  Qeq_bool (scaleX s) 0 = false ->
  np_float32 (corners (buttonBaseRect s)) = Ok src ->
  Cv2.getPerspectiveTransform cv src (map to_fpoint (pOut s)) = Some T1 ->
  beamImage cv s T1 = q :: rest ->
  Cv2.getPerspectiveTransform cv src
    (map to_fpoint (shifted (boxOf cv s T1) (pOut s))) = None ->
  getTransform cv s =
  (Raise cv2_error,
   set_targetRect (shifted (boxOf cv s T1) (pOut s))
     (set_beamPosRectified (shiftBy (boxOf cv s T1) q)
        (set_boundingRect (boxOf cv s T1)
           (set_perspectiveTransform1 T1 (set_zoom (zoomOf s) s))))).
Proof.
  intros H0 H1 H2 H3 H4. unfold getTransform. run_method.
  unfold pOut, targetWidth, targetHeight, zoomOf, beamImage, boxOf, shifted, shiftBy in *.
  destruct (img s) as [dY2 dX2]. rewrite H0. cbn.
  rewrite H1. unfold cv2_getPerspectiveTransform. cbn in H2 |- *. rewrite H2. cbn.
  unfold transformPoint. run_method. cbn. cbn in H3. rewrite H3. cbn.
  cbn in H4 |- *. rewrite H4. reflexivity.
Qed.

Lemma getTransform_completes cv s src T1 q rest T2 :
  Qeq_bool (scaleX s) 0 = false ->
  np_float32 (corners (buttonBaseRect s)) = Ok src ->
  Cv2.getPerspectiveTransform cv src (map to_fpoint (pOut s)) = Some T1 ->
  beamImage cv s T1 = q :: rest ->
  Cv2.getPerspectiveTransform cv src
    (map to_fpoint (shifted (boxOf cv s T1) (pOut s))) = Some T2 ->
  getTransform cv s =
  (Ok tt, transformed s T1 (boxOf cv s T1) (shiftBy (boxOf cv s T1) q) T2).
Proof.
  intros H0 H1 H2 H3 H4. unfold getTransform. run_method.
  unfold pOut, targetWidth, targetHeight, zoomOf, beamImage, boxOf, shifted, shiftBy in *.
  unfold transformed, pOut, targetWidth, targetHeight, zoomOf, shifted.
  destruct s as [b sx sy sb pc [dY2 dX2] z t1 br bp tr t2]. cbn in H0, H1.
  cbn [img scaleX scaleY]. rewrite H0. cbn.
  rewrite H1. unfold cv2_getPerspectiveTransform. cbn in H2 |- *. rewrite H2. cbn.
  unfold transformPoint. run_method. cbn. cbn in H3. rewrite H3. cbn.
  cbn in H4 |- *. rewrite H4. reflexivity.
Qed.

(** What a completed [getTransform] must have gone through. *)
Lemma getTransform_Ok_inv cv s s' :
  getTransform cv s = (Ok tt, s') ->
  exists src T1 q rest T2,
    Qeq_bool (scaleX s) 0 = false /\
    np_float32 (corners (buttonBaseRect s)) = Ok src /\
    Cv2.getPerspectiveTransform cv src (map to_fpoint (pOut s)) = Some T1 /\
    beamImage cv s T1 = q :: rest /\
    Cv2.getPerspectiveTransform cv src
      (map to_fpoint (shifted (boxOf cv s T1) (pOut s))) = Some T2 /\
    s' = transformed s T1 (boxOf cv s T1) (shiftBy (boxOf cv s T1) q) T2.
Proof.
  intros H.
  destruct (Qeq_bool (scaleX s) 0) eqn:H0.
  { rewrite getTransform_zero_scale in H by assumption. discriminate. }
  destruct (np_float32 (corners (buttonBaseRect s))) as [src|e] eqn:H1.
  2: { rewrite (getTransform_bad_corners cv s e) in H by assumption. discriminate. }
  destruct (Cv2.getPerspectiveTransform cv src (map to_fpoint (pOut s))) as [T1|] eqn:H2.
  2: { rewrite (getTransform_first_solve_fails cv s src) in H by assumption. discriminate. }
  destruct (beamImage cv s T1) as [|q rest] eqn:H3.
  { rewrite (getTransform_no_beam_image cv s src T1) in H by assumption. discriminate. }
  destruct (Cv2.getPerspectiveTransform cv src
              (map to_fpoint (shifted (boxOf cv s T1) (pOut s)))) as [T2|] eqn:H4.
  2: { rewrite (getTransform_second_solve_fails cv s src T1 q rest) in H by assumption.
       discriminate. }
  rewrite (getTransform_completes cv s src T1 q rest T2) in H by assumption.
  exists src, T1, q, rest, T2. repeat split; try assumption.
  injection H as <-. reflexivity.
Qed.

(** ** [canTransform] *)

Lemma Qlt_bool_iff (a b : Q) : Qlt_bool a b = true <-> (a < b)%Q.
Proof.
  unfold Qlt_bool. rewrite negb_true_iff. split.
  - intros H. apply Qnot_le_lt. intros Hle.
    apply Qle_bool_iff in Hle. congruence.
  - intros H. destruct (Qle_bool b a) eqn:E; [|reflexivity].
    apply Qle_bool_iff in E. exfalso. exact (Qlt_not_le _ _ H E).
Qed.

Lemma Qlt_bool_comp (a b b' : Q) : (b == b')%Q -> Qlt_bool a b = Qlt_bool a b'.
Proof.
  intros H. destruct (Qlt_bool a b) eqn:E, (Qlt_bool a b') eqn:E'; try reflexivity.
  - apply Qlt_bool_iff in E. rewrite H in E. apply Qlt_bool_iff in E. congruence.
  - apply Qlt_bool_iff in E'. rewrite <- H in E'. apply Qlt_bool_iff in E'. congruence.
Qed.

Lemma contains_None_false {A : Type} (l : list (option A)) :
  contains_None l = false <-> (forall c, In c l -> c <> None).
Proof.
  induction l as [|x l IH]; simpl.
  - split; [intros _ c [] | reflexivity].
  - destruct x as [a|]; simpl.
    + rewrite IH. split.
      * intros H c [<-|Hc]; [discriminate | auto].
      * intros H c Hc. apply H. auto.
    + split; [discriminate|]. intros H. exfalso. apply (H None); auto.
Qed.

(** C5.  [canTransform()] is true exactly when no corner slot is empty
    and both scales are strictly positive; on a list of four slots that
    is: each of the four holds a point.  Two states with the same corner
    list and the same scales give the same answer. *)
Theorem canTransform_iff (s : OrthoView) :
  (canTransform s = true <->
   (forall c, In c (corners (buttonBaseRect s)) -> c <> None) /\
   (0 < scaleX s)%Q /\ (0 < scaleY s)%Q) /\
  (forall c0 c1 c2 c3,
     corners (buttonBaseRect s) = [c0; c1; c2; c3] ->
     (canTransform s = true <->
      (c0 <> None /\ c1 <> None /\ c2 <> None /\ c3 <> None) /\
      (0 < scaleX s)%Q /\ (0 < scaleY s)%Q)) /\
  (forall s',
     corners (buttonBaseRect s') = corners (buttonBaseRect s) ->
     (scaleX s' == scaleX s)%Q -> (scaleY s' == scaleY s)%Q ->
     canTransform s' = canTransform s).
Proof.
  assert (Hiff : canTransform s = true <->
                 (forall c, In c (corners (buttonBaseRect s)) -> c <> None) /\
                 (0 < scaleX s)%Q /\ (0 < scaleY s)%Q).
  { unfold canTransform. rewrite !andb_true_iff, negb_true_iff, !Qlt_bool_iff.
    rewrite contains_None_false. tauto. }
  split; [exact Hiff|]. split.
  - intros c0 c1 c2 c3 Hc. rewrite Hiff, Hc. simpl. split.
    + intros (H & Hx & Hy). repeat split; auto 6.
    + intros ((H0 & H1 & H2 & H3) & Hx & Hy). repeat split; auto.
      intros c [<-|[<-|[<-|[<-|[]]]]]; assumption.
  - intros s' Hc Hx Hy. unfold canTransform.
    rewrite Hc, (Qlt_bool_comp _ _ _ Hx), (Qlt_bool_comp _ _ _ Hy). reflexivity.
Qed.

(** ** Zoom and target size *)

Lemma int_Z (z : Z) : int (inject_Z z) = z.
Proof. unfold int. destruct (Qle_bool 0 (inject_Z z)); [apply Qfloor_Z | apply Qceiling_Z]. Qed.

Lemma Qle_bool_comp (a b b' : Q) : (b == b')%Q -> Qle_bool a b = Qle_bool a b'.
Proof.
  intros H. destruct (Qle_bool a b) eqn:E, (Qle_bool a b') eqn:E'; try reflexivity.
  - apply Qle_bool_iff in E. rewrite H in E. apply Qle_bool_iff in E. congruence.
  - apply Qle_bool_iff in E'. rewrite <- H in E'. apply Qle_bool_iff in E'. congruence.
Qed.

Lemma int_comp (q q' : Q) : (q == q')%Q -> int q = int q'.
Proof.
  intros H. unfold int. rewrite (Qle_bool_comp 0 q q' H).
  destruct (Qle_bool 0 q'); [apply Qfloor_comp | apply Qceiling_comp]; exact H.
Qed.

Lemma int_nonneg (q : Q) : (0 <= q)%Q -> int q = Qfloor q.
Proof. intros H. unfold int. apply Qle_bool_iff in H. rewrite H. reflexivity. Qed.

Lemma targetWidth_exact (s : OrthoView) :
  ~ (scaleX s == 0)%Q -> targetWidth s = snd (img s).
Proof.
  intros H. unfold targetWidth, zoomOf.
  rewrite <- (int_Z (snd (img s))) at 2. apply int_comp. field. exact H.
Qed.

(** C4 (as amended).  A completed [getTransform] on an image of width
    [W] with strictly positive scales stores [zoom = W / sx] and a target
    rectangle of width [int(sx * zoom)] and height [int(sy * zoom)],
    where [int] truncates toward zero (on these non-negative values: the
    floor), it does not round.  In exact arithmetic the width is [W].
    For [sx = 50], [sy = 25], [W = 640]: zoom 12.8, width 640, height
    320. *)
Theorem getTransform_target_size cv (s s' : OrthoView) :
  getTransform cv s = (Ok tt, s') ->
  (0 < scaleX s)%Q -> (0 < scaleY s)%Q ->
  zoom s' = Some (inject_Z (snd (img s)) / scaleX s)%Q /\
  (exists bR, boundingRect s' = Some bR /\
     targetRect s' = Some (shifted bR (rectangle (targetWidth s) (targetHeight s)))) /\
  targetWidth s = snd (img s) /\
  targetHeight s = int (scaleY s * (inject_Z (snd (img s)) / scaleX s)) /\
  (0 <= snd (img s) ->
   targetHeight s = Qfloor (scaleY s * (inject_Z (snd (img s)) / scaleX s))) /\
  ((scaleX s == 50)%Q -> (scaleY s == 25)%Q -> snd (img s) = 640 ->
   (inject_Z (snd (img s)) / scaleX s == 64 # 5)%Q /\
   targetWidth s = 640 /\ targetHeight s = 320).
Proof.
  intros H Hx Hy.
  assert (Hx0 : ~ (scaleX s == 0)%Q) by (intros E; rewrite E in Hx; discriminate).
  destruct (getTransform_Ok_inv cv s s' H)
    as (src & T1 & q & rest & T2 & _ & _ & _ & _ & _ & ->).
  split; [reflexivity|]. split; [eexists; split; reflexivity|].
  split; [apply targetWidth_exact, Hx0|]. split; [reflexivity|]. split.
  - intros HW. unfold targetHeight, zoomOf. apply int_nonneg.
    apply Qmult_le_0_compat; [apply Qlt_le_weak, Hy|].
    apply Qle_shift_div_l; [exact Hx|]. rewrite Qmult_0_l.
    change 0%Q with (inject_Z 0). rewrite <- Zle_Qle. exact HW.
  - intros Ex Ey EW.
    assert (Ez : (inject_Z (snd (img s)) / scaleX s == 64 # 5)%Q).
    { rewrite EW, Ex. reflexivity. }
    split; [exact Ez|]. split.
    + rewrite targetWidth_exact, EW by exact Hx0. reflexivity.
    + unfold targetHeight, zoomOf.
      rewrite (int_comp _ (inject_Z 320)); [apply int_Z|].
      rewrite Ez, Ey. reflexivity.
Qed.

(** C4, witness: scenario A on a 640x480 frame. *)
Lemma getTransform_target_size_witness :
  zoom (exec (getTransform Cv2.exact) (loaded scenarioA)) = Some (inject_Z 640 / 50)%Q /\
  targetWidth (loaded scenarioA) = 640 /\
  targetHeight (loaded scenarioA) = 320.
Proof.
  assert (H : getTransform Cv2.exact (loaded scenarioA)
              = (Ok tt, exec (getTransform Cv2.exact) (loaded scenarioA)))
    by (vm_compute; reflexivity).
  destruct (getTransform_target_size Cv2.exact _ _ H) as (Hz & _ & _ & _ & _ & Hex);
    [reflexivity | reflexivity |].
  split; [exact Hz|].
  destruct Hex as (_ & Hw & Hh); [reflexivity | reflexivity | reflexivity |].
  split; assumption.
Defined.

(** C4, counterexample: a rectangle of 640 mm by 479.75 mm on a frame
    640 pixels wide.  The zoom is 1, and the target rectangle is 479
    pixels high where rounding 479.75 gives 480. *)
Lemma getTransform_truncates_height :
  result (getTransform Cv2.exact) (loaded tallPlate) = Ok tt /\
  targetRect (exec (getTransform Cv2.exact) (loaded tallPlate))
    = Some [(64, 96); (704, 96); (704, 575); (64, 575)] /\
  (scaleY (loaded tallPlate) * zoomOf (loaded tallPlate) == 1919 # 4)%Q /\
  targetHeight (loaded tallPlate) = 479 /\
  Qround (scaleY (loaded tallPlate) * zoomOf (loaded tallPlate)) = 480.
Proof. repeat split; vm_compute; reflexivity. Qed.

(** ** [transformPoint] *)

Lemma transformPoint_run cv (s : OrthoView) (p q : fpoint) rest T1 bR :
  perspectiveTransform1 s = Some T1 ->
  boundingRect s = Some bR ->
  rev (Cv2.perspectiveTransform cv [p] T1) = q :: rest ->
  transformPoint cv p s = (Ok (shiftBy bR q), s).
Proof.
  intros H1 H2 H3. unfold transformPoint. run_method.
  rewrite H1, H3. run_method. rewrite H2. reflexivity.
Qed.

(** C3 (as amended).  Once the forward transform [T1] and the bounding
    box exist, and OpenCV applies [T1] projectively (homogeneous
    multiply, then division by the third component), [transformPoint(p)]
    is that projective image of [p] minus the origin of the bounding
    box. *)
Theorem transformPoint_is_shifted_projection cv (s : OrthoView) (p : fpoint) T1 bR :
  perspectiveTransform1 s = Some T1 ->
  boundingRect s = Some bR ->
  Cv2.perspectiveTransform cv [p] T1 = [Cv2.project T1 p] ->
  transformPoint cv p s =
  (Ok ((fst (Cv2.project T1 p) - inject_Z (rect_x bR))%Q,
       (snd (Cv2.project T1 p) - inject_Z (rect_y bR))%Q), s).
Proof.
  intros H1 H2 H3.
  apply (transformPoint_run cv s p (Cv2.project T1 p) [] T1 bR H1 H2).
  rewrite H3. reflexivity.
Qed.

(** C3, witness: the corner (10, 10) of scenario A. *)
Lemma transformPoint_is_shifted_projection_witness :
  exists T1 bR,
    perspectiveTransform1 (construct Cv2.exact vga scenarioA) = Some T1 /\
    boundingRect (construct Cv2.exact vga scenarioA) = Some bR /\
    transformPoint Cv2.exact (10, 10)%Q (construct Cv2.exact vga scenarioA) =
    (Ok ((fst (Cv2.project T1 (10, 10)%Q) - inject_Z (rect_x bR))%Q,
         (snd (Cv2.project T1 (10, 10)%Q) - inject_Z (rect_y bR))%Q),
     construct Cv2.exact vga scenarioA).
Proof.
  exists (mkMat3 (32 # 5) 0 (-64) 0 (32 # 5) (-64) 0 0 1), (mkRect (-64) (-64) 4097 3073).
  split; [vm_compute; reflexivity|]. split; [vm_compute; reflexivity|].
  apply (transformPoint_is_shifted_projection Cv2.exact); vm_compute; reflexivity.
Defined.

(** C3, counterexample: in scenario A the forward transform takes the
    corner (10, 10) to the origin, and [transformPoint] returns
    (64, 64): the bounding box starts at (-64, -64). *)
Lemma transformPoint_subtracts_box_origin :
  exists T1 q,
    perspectiveTransform1 (construct Cv2.exact vga scenarioA) = Some T1 /\
    (fst (Cv2.project T1 (10, 10)%Q) == 0)%Q /\
    (snd (Cv2.project T1 (10, 10)%Q) == 0)%Q /\
    result (transformPoint Cv2.exact (10, 10)%Q) (construct Cv2.exact vga scenarioA) = Ok q /\
    (fst q == 64)%Q /\ (snd q == 64)%Q.
Proof.
  exists (mkMat3 (32 # 5) 0 (-64) 0 (32 # 5) (-64) 0 0 1), (320 # 5, 320 # 5)%Q.
  repeat split; vm_compute; reflexivity.
Qed.

(** ** Plate coordinates *)

(** A completed [getTransform] holds the beam position as
    [transformPoint] maps it. *)
Lemma getTransform_beamPosRectified cv (s0 s : OrthoView) :
  getTransform cv s0 = (Ok tt, s) ->
  transformPoint cv (to_fpoint (beamPos (plotCanvas s))) s = (Ok (beamPosRectified s), s)
  /\ zoom s = Some (zoomOf s0).
Proof.
  intros H.
  destruct (getTransform_Ok_inv cv s0 s H)
    as (src & T1 & q & rest & T2 & _ & _ & _ & Hq & _ & ->).
  split; [|reflexivity].
  apply (transformPoint_run cv _ _ q rest T1 (boxOf cv s0 T1)); try reflexivity.
  exact Hq.
Qed.

Lemma plateCoordinates_run cv (s : OrthoView) (x y z : Q) (m : fpoint) :
  zoom s = Some z ->
  mapped cv s (x, y) = Ok m ->
  plateCoordinates cv x y s =
  (Ok (((fst m - fst (beamPosRectified s)) / z)%Q,
       ((snd m - snd (beamPosRectified s)) / z)%Q), s).
Proof.
  intros Hz Hm. unfold plateCoordinates, mapped, result in *. run_method.
  destruct (beamPosRectified s) as [xC yC].
  destruct (straightChecked (buttonStraightRect s)); cbn [negb].
  - injection Hm as <-. rewrite Hz. reflexivity.
  - destruct (transformPoint cv (x, y) s) as [[P|e] s1] eqn:E; [|discriminate].
    cbn in Hm. injection Hm as ->.
    assert (s1 = s) as ->.
    { pose proof (keeps_transformPoint (fun s => s) cv (x, y) s) as K.
      unfold exec in K. rewrite E in K. exact K. }
    destruct m as [xP yP]. rewrite Hz. reflexivity.
Qed.







(** ** Failures inside [getTransform] *)

(** C9 (as amended).  [getTransform] has no rollback.  When it raises,
    the state is one of five: untouched (division by a zero scale);
    with only the zoom overwritten (the corners could not be converted,
    or the first solve raised); with zoom, forward transform and bounding
    box overwritten (no transformed beam position came back); or with all
    of zoom, forward transform, bounding box, mapped beam position and
    target rectangle overwritten (the second solve raised).  The display
    transform keeps its previous value in every case. *)
Theorem getTransform_failure_is_partial cv (s s' : OrthoView) (e : exn) :
  getTransform cv s = (Raise e, s') ->
  perspectiveTransform2 s' = perspectiveTransform2 s /\
  ((e = ZeroDivisionError /\ s' = s) \/
   (np_float32 (corners (buttonBaseRect s)) = Raise e /\
    s' = set_zoom (zoomOf s) s) \/
   (exists src,
      np_float32 (corners (buttonBaseRect s)) = Ok src /\
      Cv2.getPerspectiveTransform cv src (map to_fpoint (pOut s)) = None /\
      e = cv2_error /\ s' = set_zoom (zoomOf s) s) \/
   (exists T1,
      beamImage cv s T1 = [] /\
      e = IndexError /\
      s' = set_boundingRect (boxOf cv s T1)
             (set_perspectiveTransform1 T1 (set_zoom (zoomOf s) s))) \/
   (exists src T1 q,
      np_float32 (corners (buttonBaseRect s)) = Ok src /\
      Cv2.getPerspectiveTransform cv src (map to_fpoint (pOut s)) = Some T1 /\
      Cv2.getPerspectiveTransform cv src
        (map to_fpoint (shifted (boxOf cv s T1) (pOut s))) = None /\
      e = cv2_error /\
      s' = set_targetRect (shifted (boxOf cv s T1) (pOut s))
             (set_beamPosRectified (shiftBy (boxOf cv s T1) q)
                (set_boundingRect (boxOf cv s T1)
                   (set_perspectiveTransform1 T1 (set_zoom (zoomOf s) s)))))).
Proof.
  intros H.
  destruct (Qeq_bool (scaleX s) 0) eqn:H0.
  { rewrite getTransform_zero_scale in H by assumption.
    injection H as <- <-. split; [reflexivity|]. left. split; reflexivity. }
  destruct (np_float32 (corners (buttonBaseRect s))) as [src|e0] eqn:H1.
  2: { rewrite (getTransform_bad_corners cv s e0) in H by assumption.
       injection H as <- <-. split; [reflexivity|]. right. left. split; reflexivity. }
  destruct (Cv2.getPerspectiveTransform cv src (map to_fpoint (pOut s))) as [T1|] eqn:H2.
  2: { rewrite (getTransform_first_solve_fails cv s src) in H by assumption.
       injection H as <- <-. split; [reflexivity|]. right. right. left.
       exists src. repeat split; assumption. }
  destruct (beamImage cv s T1) as [|q rest] eqn:H3.
  { rewrite (getTransform_no_beam_image cv s src T1) in H by assumption.
    injection H as <- <-. split; [reflexivity|]. right. right. right. left.
    exists T1. split; [assumption|]. split; reflexivity. }
  destruct (Cv2.getPerspectiveTransform cv src
              (map to_fpoint (shifted (boxOf cv s T1) (pOut s)))) as [T2|] eqn:H4.
  2: { rewrite (getTransform_second_solve_fails cv s src T1 q rest) in H by assumption.
       injection H as <- <-. split; [reflexivity|]. right. right. right. right.
       exists src, T1, q. repeat split; assumption. }
  rewrite (getTransform_completes cv s src T1 q rest T2) in H by assumption.
  discriminate.
Qed.

(** C9, witness: scenario A with a solver that raises. *)
Lemma getTransform_failure_is_partial_witness :
  getTransform raising (loaded scenarioA)
    = (Raise cv2_error, set_zoom (zoomOf (loaded scenarioA)) (loaded scenarioA)) /\
  perspectiveTransform2 (set_zoom (zoomOf (loaded scenarioA)) (loaded scenarioA))
    = perspectiveTransform2 (loaded scenarioA).
Proof.
  assert (H : getTransform raising (loaded scenarioA)
              = (Raise cv2_error, set_zoom (zoomOf (loaded scenarioA)) (loaded scenarioA)))
    by (vm_compute; reflexivity).
  split; [exact H|].
  exact (proj1 (getTransform_failure_is_partial raising _ _ _ H)).
Defined.

(** C9, counterexample: scenario A is calibrated and transformed (zoom
    12.8); then the X scale is set to 40 mm and the solver raises.  The
    zoom now is 16, next to the forward transform, the bounding box and
    the display transform of the old calibration. *)
Lemma getTransform_overwrites_zoom_before_solving :
  let before := construct Cv2.exact vga scenarioA in
  let after := exec (ScaleEdit_Enter raising true 40) before in
  result (ScaleEdit_Enter raising true 40) before = Raise cv2_error /\
  zoom before = Some (640 # 50)%Q /\
  zoom after = Some (inject_Z 640 / 40)%Q /\
  ~ (640 # 50 == inject_Z 640 / 40)%Q /\
  perspectiveTransform1 after = perspectiveTransform1 before /\
  boundingRect after = boundingRect before /\
  perspectiveTransform2 after = perspectiveTransform2 before.
Proof.
  cbv zeta.
  split; [vm_compute; reflexivity|].
  split; [vm_compute; reflexivity|].
  split; [vm_compute; reflexivity|].
  split; [vm_compute; discriminate|].
  split; [vm_compute; reflexivity|].
  split; vm_compute; reflexivity.
Qed.

(** ** Degenerate corners *)

Lemma np_float32_Some (pts : list point) :
  np_float32 (map Some pts) = Ok (map to_fpoint pts).
Proof.
  unfold np_float32.
  assert (H : subscriptable (map Some pts) = Ok pts).
  { induction pts as [|p pts IH]; simpl; [|rewrite IH]; reflexivity. }
  rewrite H. reflexivity.
Qed.

(** C2 (as amended).  [getTransform] examines neither the corners nor
    the matrices it gets: for every list of corner points, whatever their
    geometry, it completes as soon as the scale is not zero and the
    OpenCV calls return, and it stores as forward and display transform
    exactly what the solver returned. *)
Theorem getTransform_has_no_degeneracy_check cv (s : OrthoView) (pts : list point) :
  corners (buttonBaseRect s) = map Some pts ->
  ~ (scaleX s == 0)%Q ->
  (forall dst, length dst = 4%nat ->
     Cv2.getPerspectiveTransform cv (map to_fpoint pts) dst <> None) ->
  (forall p T, Cv2.perspectiveTransform cv [p] T <> []) ->
  exists T1 T2 s',
    getTransform cv s = (Ok tt, s') /\
    Cv2.getPerspectiveTransform cv (map to_fpoint pts) (map to_fpoint (pOut s)) = Some T1 /\
    perspectiveTransform1 s' = Some T1 /\
    Cv2.getPerspectiveTransform cv (map to_fpoint pts)
      (map to_fpoint (shifted (boxOf cv s T1) (pOut s))) = Some T2 /\
    perspectiveTransform2 s' = Some T2.
Proof.
  intros Hc Hx Hsolve Hpt.
  assert (H0 : Qeq_bool (scaleX s) 0 = false).
  { destruct (Qeq_bool (scaleX s) 0) eqn:E; [|reflexivity].
    apply Qeq_bool_iff in E. contradiction. }
  assert (H1 : np_float32 (corners (buttonBaseRect s)) = Ok (map to_fpoint pts))
    by (rewrite Hc; apply np_float32_Some).
  destruct (Cv2.getPerspectiveTransform cv (map to_fpoint pts) (map to_fpoint (pOut s)))
    as [T1|] eqn:H2; [|exfalso; revert H2; apply Hsolve; reflexivity].
  destruct (beamImage cv s T1) as [|q rest] eqn:H3.
  { exfalso. unfold beamImage in H3.
    apply (f_equal (@rev fpoint)) in H3. rewrite rev_involutive in H3.
    revert H3. apply Hpt. }
  destruct (Cv2.getPerspectiveTransform cv (map to_fpoint pts)
              (map to_fpoint (shifted (boxOf cv s T1) (pOut s)))) as [T2|] eqn:H4;
    [|exfalso; revert H4; apply Hsolve; reflexivity].
  exists T1, T2. eexists. split.
  - apply (getTransform_completes cv s (map to_fpoint pts) T1 q rest T2); assumption.
  - split; [reflexivity|]. split; [reflexivity|]. split; [assumption | reflexivity].
Qed.

(** C2, witness: four clicks along the top edge of the image, with the
    exact solver. *)
Lemma getTransform_has_no_degeneracy_check_witness :
  exists T1 T2 s',
    getTransform Cv2.exact (run Cv2.exact vga collinearClicks (construct Cv2.exact vga scalesOnly))
      = (Ok tt, s') /\
    perspectiveTransform1 s' = Some T1 /\
    perspectiveTransform2 s' = Some T2.
Proof.
  destruct (getTransform_has_no_degeneracy_check Cv2.exact
              (run Cv2.exact vga collinearClicks (construct Cv2.exact vga scalesOnly))
              [(0, 0); (10, 0); (30, 0); (20, 0)])
    as (T1 & T2 & s' & H & _ & H1 & _ & H2).
  - vm_compute. reflexivity.
  - vm_compute. discriminate.
  - intros dst Hd. cbn. unfold Cv2.exact_getPerspectiveTransform.
    rewrite Hd. cbn. discriminate.
  - intros p T. cbn. discriminate.
  - exists T1, T2, s'. split; [exact H|]. split; assumption.
Defined.

(** C2, counterexample: the clicks (0,0), (10,0), (20,0), (30,0) lie on
    one line.  The fourth click runs [getTransform], which completes;
    the widget then holds a forward transform (all zero but the last
    entry), reports that it can transform and enables the rectified
    view. *)
Lemma getTransform_accepts_collinear_corners :
  let s := run Cv2.exact vga collinearClicks (construct Cv2.exact vga scalesOnly) in
  corners (buttonBaseRect s) = [Some (0, 0); Some (10, 0); Some (30, 0); Some (20, 0)] /\
  canTransform s = true /\
  straightEnabled (buttonStraightRect s) = true /\
  perspectiveTransform1 s = Some (mkMat3 0 0 0 0 0 0 0 0 1) /\
  result (getTransform Cv2.exact) s = Ok tt.
Proof.
  cbv zeta.
  split; [vm_compute; reflexivity|].
  split; [vm_compute; reflexivity|].
  split; [vm_compute; reflexivity|].
  split; vm_compute; reflexivity.
Qed.

(** ** [transformPoint] before [getTransform] *)

Lemma preserves_bind {A B : Type} (P : OrthoView -> Prop) (m : M A) (k : A -> M B) :
  preserves P m -> (forall a, preserves P (k a)) -> preserves P (bind m k).
Proof.
  intros Hm Hk s Hs. rewrite exec_bind. destruct (result m s).
  - apply Hk, Hm, Hs.
  - apply Hm, Hs.
Qed.

Lemma preserves_keeps {A : Type} (m : M A) :
  keeps transforms m -> preserves forward_needs_display m.
Proof.
  intros K s Hs. specialize (K s). unfold transforms in K.
  injection K as K1 K2. unfold forward_needs_display in *. rewrite K1, K2. exact Hs.
Qed.

Lemma getTransform_preserves cv :
  well_shaped cv -> preserves forward_needs_display (getTransform cv).
Proof.
  intros [Hshape Hpoint] s Hs. unfold exec.
  destruct (Qeq_bool (scaleX s) 0) eqn:H0.
  { rewrite getTransform_zero_scale by assumption. exact Hs. }
  destruct (np_float32 (corners (buttonBaseRect s))) as [src|e0] eqn:H1.
  2: { rewrite (getTransform_bad_corners cv s e0) by assumption. exact Hs. }
  destruct (Cv2.getPerspectiveTransform cv src (map to_fpoint (pOut s))) as [T1|] eqn:H2.
  2: { rewrite (getTransform_first_solve_fails cv s src) by assumption. exact Hs. }
  destruct (beamImage cv s T1) as [|q rest] eqn:H3.
  { exfalso. unfold beamImage in H3.
    apply (f_equal (@rev fpoint)) in H3. rewrite rev_involutive in H3.
    revert H3. apply Hpoint. }
  destruct (Cv2.getPerspectiveTransform cv src
              (map to_fpoint (shifted (boxOf cv s T1) (pOut s)))) as [T2|] eqn:H4.
  2: { exfalso. apply (Hshape src _ (map to_fpoint (pOut s))) in H4.
       - congruence.
       - unfold shifted. rewrite !length_map. reflexivity. }
  rewrite (getTransform_completes cv s src T1 q rest T2) by assumption.
  intros E. discriminate E.
Qed.

Ltac preserves_step :=
  first
    [ apply getTransform_preserves; assumption
    | apply preserves_keeps;
      solve [repeat first [apply keeps_transformPoint | keeps_step]]
    | apply preserves_bind; [|intros]
    | match goal with
      | |- preserves _ (if ?b then _ else _) => destruct b
      | |- preserves _ (match ?x with _ => _ end) => destruct x
      end ].

Lemma update_preserves cv :
  well_shaped cv -> preserves forward_needs_display (StraightRectButton_update cv).
Proof. intros Hcv. unfold StraightRectButton_update. repeat preserves_step. Qed.

Lemma updateFrame_preserves frame : preserves forward_needs_display (updateFrame frame).
Proof. unfold updateFrame. repeat preserves_step. Qed.

Lemma handle_preserves cv frame (e : event) :
  well_shaped cv -> preserves forward_needs_display (handle cv frame e).
Proof.
  intros Hcv.
  destruct e as [| | | |pos|[|] value|confirmed| |]; unfold handle, viewMenu, onPress, setCorner, ScaleEdit_Enter,
    setBeamPosition, moveToBeam, plateCoordinates, eventFilter_Escape, clickedSlot,
    StraightRectButton_clickedSlot;
    repeat first [apply update_preserves; assumption
                 | apply updateFrame_preserves
                 | preserves_step].
Qed.

Lemma reachable_forward_needs_display cv frame (s : OrthoView) :
  well_shaped cv -> reachable cv frame s -> forward_needs_display s.
Proof.
  intros Hcv H. induction H as [cfg|s e _ IH].
  - unfold construct.
    apply (preserves_bind forward_needs_display).
    + apply updateFrame_preserves.
    + intros _. apply update_preserves, Hcv.
    + intros _. reflexivity.
  - apply handle_preserves; assumption.
Qed.

(** C10.  For an OpenCV that is [well_shaped]: a completed
    [getTransform] leaves the display transform assigned; in every state
    the widget can reach in which it is not assigned, that is, in which
    no [getTransform] has completed, [transformPoint] raises
    [AttributeError] on its first read, the forward transform; and such
    a state with [canTransform()] true can be reached: start from a
    configuration that lacks the first corner, press the corner button
    and click once. *)
Theorem transformPoint_needs_completed_getTransform cv frame :
  well_shaped cv ->
  (forall s s', getTransform cv s = (Ok tt, s') -> perspectiveTransform2 s' <> None) /\
  (forall s, reachable cv frame s -> perspectiveTransform2 s = None ->
     forall p, transformPoint cv p s = (Raise AttributeError, s)) /\
  (exists s, reachable cv frame s /\ perspectiveTransform2 s = None /\
     canTransform s = true).
Proof.
  intros Hcv. split; [|split].
  - intros s s' H.
    destruct (getTransform_Ok_inv cv s s' H)
      as (src & T1 & q & rest & T2 & _ & _ & _ & _ & _ & ->).
    discriminate.
  - intros s Hr H2 p.
    pose proof (reachable_forward_needs_display cv frame s Hcv Hr H2) as H1.
    unfold transformPoint. run_method. rewrite H1. reflexivity.
  - exists (run cv frame [BaseRectClicked; Press (Some (10, 10))]
                (construct cv frame oneCornerMissing)).
    split; [|split].
    + unfold run. cbn [fold_left]. do 2 apply reachable_handle. apply reachable_construct.
    + vm_compute. reflexivity.
    + vm_compute. reflexivity.
Qed.

Lemma exact_well_shaped : well_shaped Cv2.exact.
Proof.
  split.
  - intros src dst dst' Hlen. cbn. unfold Cv2.exact_getPerspectiveTransform.
    rewrite Hlen. destruct ((length src =? 4)%nat && (length dst' =? 4)%nat); [discriminate|].
    reflexivity.
  - intros p T. cbn. discriminate.
Qed.

(** C10, witness: the exact solver on a 640x480 frame.  With the first
    corner missing from the configuration, one click completes the
    corners; the read-out then finds [canTransform()] true and
    [transformPoint] raises. *)
Lemma transformPoint_needs_completed_getTransform_witness :
  let s := run Cv2.exact vga [BaseRectClicked; Press (Some (10, 10))]
               (construct Cv2.exact vga oneCornerMissing) in
  canTransform s = true /\
  transformPoint Cv2.exact (10, 10)%Q s = (Raise AttributeError, s).
Proof.
  cbv zeta. split; [vm_compute; reflexivity|].
  apply (proj1 (proj2 (transformPoint_needs_completed_getTransform Cv2.exact vga
                         exact_well_shaped))).
  - unfold run. cbn [fold_left]. do 2 apply reachable_handle. apply reachable_construct.
  - vm_compute. reflexivity.
Defined.

(** ** The display transform *)

Lemma corresponds_translate (T : Mat3) (p : fpoint) (x y bx by_ : Z) :
  corresponds T p (to_fpoint (x - bx, y - by_)) ->
  corresponds (translate (inject_Z bx) (inject_Z by_) T) p (to_fpoint (x, y)).
Proof.
  unfold corresponds, to_fpoint, translate, Cv2.homogeneous_w. cbn [fst snd m00 m01 m02 m10 m11 m12 m20 m21 m22].
  unfold Z.sub. rewrite !inject_Z_plus, !inject_Z_opp.
  intros [Hx Hy]. split.
  - transitivity ((m00 T * fst p + m01 T * snd p + m02 T)
                  + inject_Z bx * (m20 T * fst p + m21 T * snd p + m22 T))%Q; [ring|].
    rewrite Hx. ring.
  - transitivity ((m10 T * fst p + m11 T * snd p + m12 T)
                  + inject_Z by_ * (m20 T * fst p + m21 T * snd p + m22 T))%Q; [ring|].
    rewrite Hy. ring.
Qed.

(** A solution for the shifted rectangle, shifted back, solves the
    system of the rectangle itself. *)
Lemma is_homography_unshift (T : Mat3) (src : list fpoint) (bR : Rect) (pts : list point) :
  is_homography T src (map to_fpoint (shifted bR pts)) ->
  is_homography (translate (inject_Z (rect_x bR)) (inject_Z (rect_y bR)) T) src
                (map to_fpoint pts).
Proof.
  intros [H22 HF]. split; [exact H22|].
  revert src HF. induction pts as [|[x y] pts IH]; intros src HF.
  - inversion HF. constructor.
  - cbn in HF. inversion HF as [|p q src' dst' Hpq HF' E1 E2]. subst.
    cbn. constructor.
    + apply corresponds_translate. exact Hpq.
    + apply IH. exact HF'.
Qed.

Lemma Meq_untranslate (a b : Q) (A B : Mat3) :
  Meq (translate a b A) B -> Meq A (translate (- a) (- b) B).
Proof.
  unfold Meq, translate. cbn [m00 m01 m02 m10 m11 m12 m20 m21 m22].
  intros (H00 & H01 & H02 & H10 & H11 & H12 & H20 & H21 & H22).
  rewrite <- H00, <- H01, <- H02, <- H10, <- H11, <- H12, <- H20, <- H21, <- H22.
  repeat split; ring.
Qed.

Lemma project_nonzero (T : Mat3) (p : fpoint) :
  ~ (Cv2.homogeneous_w T p == 0)%Q ->
  Cv2.project T p =
  (((m00 T * fst p + m01 T * snd p + m02 T) / Cv2.homogeneous_w T p)%Q,
   ((m10 T * fst p + m11 T * snd p + m12 T) / Cv2.homogeneous_w T p)%Q).
Proof.
  intros H. unfold Cv2.project.
  destruct (Qeq_bool (Cv2.homogeneous_w T p) 0) eqn:E; [|reflexivity].
  apply Qeq_bool_iff in E. contradiction.
Qed.

(** Equal matrices act alike, and a translated matrix acts as the
    matrix followed by the translation. *)
Lemma project_translate (A B : Mat3) (a b : Q) (p : fpoint) :
  Meq A (translate a b B) ->
  ~ (Cv2.homogeneous_w B p == 0)%Q ->
  (fst (Cv2.project A p) == fst (Cv2.project B p) + a)%Q /\
  (snd (Cv2.project A p) == snd (Cv2.project B p) + b)%Q.
Proof.
  unfold Meq, translate. cbn [m00 m01 m02 m10 m11 m12 m20 m21 m22].
  intros (H00 & H01 & H02 & H10 & H11 & H12 & H20 & H21 & H22) Hw.
  assert (Ew : (Cv2.homogeneous_w A p == Cv2.homogeneous_w B p)%Q).
  { unfold Cv2.homogeneous_w. rewrite H20, H21, H22. reflexivity. }
  assert (Hw' : ~ (Cv2.homogeneous_w A p == 0)%Q) by (rewrite Ew; exact Hw).
  rewrite (project_nonzero A p Hw'), (project_nonzero B p Hw). cbn [fst snd].
  rewrite Ew, H00, H01, H02, H10, H11, H12.
  unfold Cv2.homogeneous_w in *. split; field; exact Hw.
Qed.

(** C6.  After a completed [getTransform], the display transform [T2]
    is what the solver returned for the corners and the rectangle
    shifted by minus the origin of the bounding box.  When the solver's
    two answers solve their systems and the calibration is not
    degenerate (the system of the forward transform has one solution at
    most), [T2] is the forward transform followed by the translation by
    minus that origin: as a matrix, and so as a map on every point that
    the forward transform does not send to infinity. *)
Theorem display_transform_is_shifted_forward cv (s s' : OrthoView) :
  getTransform cv s = (Ok tt, s') ->
  exists src T1 T2 bR,
    np_float32 (corners (buttonBaseRect s)) = Ok src /\
    perspectiveTransform1 s' = Some T1 /\
    perspectiveTransform2 s' = Some T2 /\
    boundingRect s' = Some bR /\
    targetRect s' = Some (shifted bR (pOut s)) /\
    Cv2.getPerspectiveTransform cv src (map to_fpoint (pOut s)) = Some T1 /\
    Cv2.getPerspectiveTransform cv src (map to_fpoint (shifted bR (pOut s))) = Some T2 /\
    (is_homography T1 src (map to_fpoint (pOut s)) ->
     is_homography T2 src (map to_fpoint (shifted bR (pOut s))) ->
     determined src (map to_fpoint (pOut s)) ->
     Meq T2 (translate (- inject_Z (rect_x bR)) (- inject_Z (rect_y bR)) T1) /\
     forall p, ~ (Cv2.homogeneous_w T1 p == 0)%Q ->
       (fst (Cv2.project T2 p) == fst (Cv2.project T1 p) - inject_Z (rect_x bR))%Q /\
       (snd (Cv2.project T2 p) == snd (Cv2.project T1 p) - inject_Z (rect_y bR))%Q).
Proof.
  intros H.
  destruct (getTransform_Ok_inv cv s s' H)
    as (src & T1 & q & rest & T2 & _ & Hsrc & HT1 & _ & HT2 & ->).
  exists src, T1, T2, (boxOf cv s T1).
  split; [exact Hsrc|]. split; [reflexivity|]. split; [reflexivity|].
  split; [reflexivity|]. split; [reflexivity|]. split; [exact HT1|]. split; [exact HT2|].
  intros H1 H2 Hdet.
  assert (HM : Meq T2 (translate (- inject_Z (rect_x (boxOf cv s T1)))
                                 (- inject_Z (rect_y (boxOf cv s T1))) T1)).
  { apply Meq_untranslate, Hdet; [|exact H1]. apply is_homography_unshift, H2. }
  split; [exact HM|].
  intros p Hw. exact (project_translate T2 T1 _ _ p HM Hw).
Qed.

Ltac inv_Forall2 :=
  repeat match goal with
  | H : Forall2 _ (_ :: _) _ |- _ => inversion H; clear H; subst
  | H : Forall2 _ [] _ |- _ => clear H
  end.

Ltac solve_homography :=
  split; [vm_compute; reflexivity|];
  repeat (constructor; [split; vm_compute; reflexivity|]); constructor.

(** The quadrilateral of [perspectiveA] and the 640x320 rectangle have
    one homography at most. *)
Lemma perspectiveA_determined :
  determined [(12, 10); (50, 8); (47, 30); (11, 26)]%Q
             [(0, 0); (640, 0); (640, 320); (0, 320)]%Q.
Proof.
  intros A B [HA FA] [HB FB].
  inv_Forall2.
  unfold corresponds, Cv2.homogeneous_w in *. cbn [fst snd] in *.
  repeat match goal with H : _ /\ _ |- _ => destruct H end.
  unfold Meq. repeat split; lra.
Qed.

(** C6, witness: the quadrilateral of [perspectiveA] on a 640x480 frame,
    with the exact solver. *)
Lemma display_transform_is_shifted_forward_witness :
  exists T1 T2 bR,
    perspectiveTransform1 (exec (getTransform Cv2.exact) (loaded perspectiveA)) = Some T1 /\
    perspectiveTransform2 (exec (getTransform Cv2.exact) (loaded perspectiveA)) = Some T2 /\
    boundingRect (exec (getTransform Cv2.exact) (loaded perspectiveA)) = Some bR /\
    Meq T2 (translate (- inject_Z (rect_x bR)) (- inject_Z (rect_y bR)) T1).
Proof.
  assert (H : getTransform Cv2.exact (loaded perspectiveA)
              = (Ok tt, exec (getTransform Cv2.exact) (loaded perspectiveA)))
    by (vm_compute; reflexivity).
  destruct (display_transform_is_shifted_forward Cv2.exact _ _ H)
    as (src & T1 & T2 & bR & Hsrc & H1 & H2 & HbR & _ & _ & _ & Himp).
  exists T1, T2, bR. split; [exact H1|]. split; [exact H2|]. split; [exact HbR|].
  vm_compute in Hsrc, H1, H2, HbR.
  injection Hsrc as <-. injection H1 as <-. injection H2 as <-. injection HbR as <-.
  replace (map to_fpoint (pOut (loaded perspectiveA)))
    with [(0, 0); (640, 0); (640, 320); (0, 320)]%Q in Himp
    by (vm_compute; reflexivity).
  apply Himp.
  - solve_homography.
  - match goal with
    | |- is_homography _ _ ?dst =>
        let dst' := eval vm_compute in dst in
        replace dst with dst' by (vm_compute; reflexivity)
    end.
    solve_homography.
  - exact perspectiveA_determined.
Defined.

(** * Further properties *)

(** ** Packing and unpacking frames *)

Lemma unpack_pack_pixel (p : pixel) :
  byte_pixel p -> unpack_pixel (pack_pixel p) = reversed p /\ 0 <= pack_pixel p < 2 ^ 24.
Proof.
  destruct p as [[c0 c1] c2]. unfold byte_pixel, is_byte. cbn [fst snd].
  intros (H0 & H1 & H2).
  assert (E : pack_pixel (c0, c1, c2) = c0 * 65536 + c1 * 256 + c2).
  { unfold pack_pixel.
    rewrite (Z.mod_small (c0 * 0x10000)) by lia.
    rewrite (Z.mod_small (c1 * 0x100)) by lia.
    rewrite (Z.mod_small (c0 * 0x10000 + c1 * 0x100)) by lia.
    rewrite Z.mod_small by lia. reflexivity. }
  rewrite E. split; [|lia].
  unfold unpack_pixel, reversed.
  change 0xff with (Z.ones 8). rewrite !Z.land_ones, !Z.shiftr_div_pow2 by lia.
  change (2 ^ 8) with 256. change (2 ^ 16) with 65536.
  repeat f_equal.
  - symmetry. apply Z.mod_unique_pos with (q := c0 * 256 + c1); lia.
  - replace ((c0 * 65536 + c1 * 256 + c2) / 256) with (c0 * 256 + c1)
      by (apply Z.div_unique_pos with (r := c2); lia).
    symmetry. apply Z.mod_unique_pos with (q := c0); lia.
  - replace ((c0 * 65536 + c1 * 256 + c2) / 65536) with c0
      by (apply Z.div_unique_pos with (r := c1 * 256 + c2); lia).
    apply Z.mod_small; lia.
Qed.

(** X1.  A frame of byte channels that [pack_frame] packs and
    [getFrame] unpacks comes back with the same shape and the channels
    of every pixel in the opposite order (OpenCV's BGR arrives as RGB);
    no packed value needs more than 24 bits. *)
Theorem unpack_pack_frame (fr : list (list pixel)) :
  Forall (Forall byte_pixel) fr ->
  unpack_frame (pack_frame fr) = map (map reversed) fr /\
  Forall (Forall (fun v => 0 <= v < 2 ^ 24)) (pack_frame fr).
Proof.
  unfold unpack_frame, pack_frame.
  induction 1 as [|row fr Hrow _ IH].
  - split; [reflexivity | constructor].
  - destruct IH as [IH1 IH2]. cbn [map]. rewrite IH1. split.
    + f_equal. clear - Hrow.
      induction Hrow as [|p row Hp _ IHr]; [reflexivity|].
      cbn [map]. rewrite IHr. f_equal. apply unpack_pack_pixel, Hp.
    + constructor; [|exact IH2]. clear - Hrow.
      induction Hrow as [|p row Hp _ IHr]; constructor.
      * apply unpack_pack_pixel, Hp.
      * exact IHr.
Qed.

Lemma unpack_pack_frame_witness :
  unpack_frame (pack_frame [[(255, 0, 16); (1, 2, 3)]]) = [[(16, 0, 255); (3, 2, 1)]].
Proof.
  apply (unpack_pack_frame [[(255, 0, 16); (1, 2, 3)]]).
  repeat constructor; cbn; lia.
Defined.

(** ** The camera device *)

Lemma try_paths_opens (opens : nat -> bool) (paths : list nat) (last : option nat) :
  existsb opens paths = true ->
  exists p before after,
    USBCamera.try_paths opens paths last = Some p /\
    paths = before ++ p :: after /\ opens p = true /\
    forallb (fun q => negb (opens q)) before = true.
Proof.
  revert last. induction paths as [|q paths IH]; intros last H; [discriminate|].
  cbn in H |- *. destruct (opens q) eqn:E.
  - exists q, [], paths. repeat split; assumption.
  - cbn in H. destruct (IH (Some q) H) as (p & before & after & H1 & -> & H3 & H4).
    exists p, (q :: before), after. cbn. rewrite E, H4. repeat split; assumption.
Qed.

Lemma try_paths_fails (opens : nat -> bool) (paths : list nat) (last : option nat) :
  existsb opens paths = false ->
  USBCamera.try_paths opens paths last =
  match rev paths with [] => last | p :: _ => Some p end /\
  forall p, USBCamera.try_paths opens paths last = Some p -> paths <> [] -> opens p = false.
Proof.
  revert last. induction paths as [|q paths IH]; intros last H.
  - split; [reflexivity|]. intros p _ Hne. contradiction.
  - cbn in H. apply orb_false_iff in H. destruct H as [Eq H].
    cbn [USBCamera.try_paths]. rewrite Eq.
    destruct (IH (Some q) H) as [IH1 IH2]. split.
    + rewrite IH1. cbn [rev]. destruct (rev paths); reflexivity.
    + intros p Hp _. destruct paths as [|q' paths'].
      * cbn in Hp. injection Hp as <-. exact Eq.
      * apply IH2; [exact Hp | discriminate].
Qed.

Lemma init_device_ON (w : USBCamera.World) (d : USBCamera.Device) :
  USBCamera.state (USBCamera.init_device w d) =
  if existsb (USBCamera.opens w) (USBCamera.device_paths w)
  then USBCamera.ON else USBCamera.FAULT.
Proof.
  unfold USBCamera.init_device.
  destruct (USBCamera.device_paths w) as [|q paths] eqn:Hp; [reflexivity|].
  destruct (existsb (USBCamera.opens w) (q :: paths)) eqn:E.
  - destruct (try_paths_opens (USBCamera.opens w) (q :: paths) (USBCamera.camera d) E)
      as (p & before & after & H1 & H2 & H3 & H4).
    rewrite H1, H3. reflexivity.
  - destruct (try_paths_fails (USBCamera.opens w) (q :: paths) (USBCamera.camera d) E)
      as [H1 H2].
    destruct (USBCamera.try_paths (USBCamera.opens w) (q :: paths) (USBCamera.camera d))
      as [p|] eqn:Ht; [|reflexivity].
    rewrite (H2 p eq_refl) by discriminate. reflexivity.
Qed.

Lemma init_device_clears (w : USBCamera.World) (d : USBCamera.Device) :
  USBCamera.image (USBCamera.init_device w d) = None /\
  USBCamera.previous_frame (USBCamera.init_device w d) = None.
Proof.
  unfold USBCamera.init_device.
  destruct (USBCamera.device_paths w); [split; reflexivity|].
  destruct (USBCamera.try_paths _ _ _) as [p|]; [|split; reflexivity].
  destruct (USBCamera.opens w p); split; reflexivity.
Qed.

(** X2.  [init_device] leaves the device ON or in FAULT, never in INIT:
    ON exactly when one of the listed paths opens, and then [camera] is
    the first path that opens.  In either case the served image and the
    remembered frame are cleared. *)
Theorem init_device_state (w : USBCamera.World) (d : USBCamera.Device) :
  let d' := USBCamera.init_device w d in
  (USBCamera.state d' = USBCamera.ON <->
   existsb (USBCamera.opens w) (USBCamera.device_paths w) = true) /\
  (USBCamera.state d' = USBCamera.FAULT <->
   existsb (USBCamera.opens w) (USBCamera.device_paths w) = false) /\
  (USBCamera.state d' = USBCamera.ON ->
   exists p before after,
     USBCamera.camera d' = Some p /\
     USBCamera.device_paths w = before ++ p :: after /\
     USBCamera.opens w p = true /\
     forallb (fun q => negb (USBCamera.opens w q)) before = true) /\
  USBCamera.image d' = None /\ USBCamera.previous_frame d' = None.
Proof.
  cbv zeta. unfold USBCamera.init_device.
  destruct (USBCamera.device_paths w) as [|q paths] eqn:Hp.
  - cbn. repeat split; try discriminate; reflexivity.
  - destruct (existsb (USBCamera.opens w) (q :: paths)) eqn:E.
    + destruct (try_paths_opens (USBCamera.opens w) (q :: paths) (USBCamera.camera d) E)
        as (p & before & after & H1 & H2 & H3 & H4).
      rewrite H1, H3. cbn. repeat split; try discriminate; try reflexivity.
      intros _. exists p, before, after. repeat split; assumption.
    + destruct (try_paths_fails (USBCamera.opens w) (q :: paths) (USBCamera.camera d) E)
        as [H1 H2].
      destruct (USBCamera.try_paths (USBCamera.opens w) (q :: paths) (USBCamera.camera d))
        as [p|] eqn:Ht.
      * rewrite (H2 p eq_refl) by discriminate.
        cbn. repeat split; try discriminate; reflexivity.
      * cbn. repeat split; try discriminate; reflexivity.
Qed.

Lemma pixel_eqb_refl (p : pixel) : pixel_eqb p p = true.
Proof. destruct p as [[a b] c]. cbn. rewrite !Z.eqb_refl. reflexivity. Qed.

Lemma list_eqb_refl {A : Type} (eqb : A -> A -> bool) (l : list A) :
  (forall a, eqb a a = true) -> list_eqb eqb l l = true.
Proof. intros H. induction l as [|a l IH]; cbn; [|rewrite H, IH]; reflexivity. Qed.

Lemma frame_eqb_refl (f : list (list pixel)) : frame_eqb f f = true.
Proof. apply list_eqb_refl. intros r. apply list_eqb_refl, pixel_eqb_refl. Qed.

Lemma shape_pack_frame (fr : list (list pixel)) :
  USBCamera.shape (pack_frame fr) = USBCamera.shape fr.
Proof.
  unfold USBCamera.shape, pack_frame. rewrite length_map.
  destruct fr as [|r fr]; [reflexivity|]. cbn [map]. rewrite length_map. reflexivity.
Qed.

Lemma assign_shape (old packed im : list (list Z)) :
  USBCamera.assign old packed = Some im ->
  USBCamera.shape im = USBCamera.shape old /\
  (USBCamera.shape packed = USBCamera.shape old -> im = packed).
Proof.
  unfold USBCamera.assign.
  destruct (USBCamera.shape old) as [h0 w0] eqn:Ho.
  destruct (USBCamera.shape packed) as [h w] eqn:Hp.
  destruct ((Nat.eqb h h0 || Nat.eqb h 1) && (Nat.eqb w w0 || Nat.eqb w 1))%bool eqn:Hfit;
    [|discriminate].
  intros H. injection H as <-. split.
  2: { intros E. injection E as -> ->. rewrite !Nat.eqb_refl. reflexivity. }
  set (rows := if Nat.eqb w w0 then packed
               else map (fun r => repeat (hd 0 r) w0) packed).
  assert (Hrows : USBCamera.shape rows = (h, match h with O => O | S _ => w0 end)).
  { unfold rows. destruct (Nat.eqb w w0) eqn:Ew.
    - apply Nat.eqb_eq in Ew. subst w0. rewrite Hp.
      unfold USBCamera.shape in Hp. destruct packed as [|r packed]; cbn in Hp.
      + injection Hp as <- <-. reflexivity.
      + injection Hp as <- _. reflexivity.
    - unfold USBCamera.shape in *. rewrite length_map.
      destruct packed as [|r packed]; cbn in Hp |- *.
      + injection Hp as <- _. reflexivity.
      + injection Hp as <- _. rewrite repeat_length. reflexivity. }
  assert (Hold : h0 = O -> w0 = O).
  { intros ->. unfold USBCamera.shape in Ho. destruct old; cbn in Ho.
    - injection Ho as <-. reflexivity.
    - discriminate Ho. }
  destruct (Nat.eqb h h0) eqn:Eh.
  - apply Nat.eqb_eq in Eh. subst h0. rewrite Hrows.
    destruct h; [rewrite (Hold eq_refl)|]; reflexivity.
  - unfold USBCamera.shape. rewrite repeat_length.
    destruct h0 as [|h0]; [rewrite (Hold eq_refl); reflexivity|].
    cbn [repeat]. f_equal.
    apply andb_prop in Hfit. destruct Hfit as [Hh _]. cbn in Hh.
    apply Nat.eqb_eq in Hh. subst h.
    unfold USBCamera.shape in Hrows. destruct rows as [|r rows']; cbn in Hrows |- *.
    + discriminate Hrows.
    + injection Hrows as _ Hr. exact Hr.
Qed.

(** X3.  When [read_attr_hardware] returns, the device either was
    re-initialised, and then serves no image and remembers no frame, or
    it holds the frame just read: the device was not in FAULT, the read
    reported success and the frame differs from the one remembered.
    The served image then is that frame packed when no image was held
    or the packed frame has the shape of the image held; else it is the
    packed frame as NumPy broadcasts it into the image held, whose shape
    stays.  An earlier image does not survive a failed read. *)
Theorem read_attr_hardware_image (w : USBCamera.World)
        (reading : option (bool * list (list pixel))) (d d' : USBCamera.Device) :
  USBCamera.read_attr_hardware w reading d = inl d' ->
  (USBCamera.image d' = None /\ USBCamera.previous_frame d' = None) \/
  (exists frame im,
     reading = Some (true, frame) /\
     USBCamera.state d <> USBCamera.FAULT /\
     USBCamera.previous_frame d <> Some frame /\
     USBCamera.image d' = Some im /\
     match USBCamera.image d with
     | None => im = pack_frame frame
     | Some old =>
         USBCamera.assign old (pack_frame frame) = Some im /\
         USBCamera.shape im = USBCamera.shape old /\
         (USBCamera.shape frame = USBCamera.shape old -> im = pack_frame frame)
     end /\
     USBCamera.previous_frame d' = Some frame /\
     USBCamera.state d' = USBCamera.ON /\
     USBCamera.camera d' = USBCamera.camera d).
Proof.
  assert (Hreinit : forall d0 d1,
            @inl USBCamera.Device (USBCamera.fault * USBCamera.Device)
                 (USBCamera.init_device w d0) = inl d1 ->
            USBCamera.image d1 = None /\ USBCamera.previous_frame d1 = None).
  { intros d0 d1 H. injection H as <-. apply init_device_clears. }
  unfold USBCamera.read_attr_hardware, USBCamera.was_fault.
  destruct (USBCamera.state d) eqn:Hs;
    try (intros H; left; exact (Hreinit _ _ H)).
  all: destruct (USBCamera.camera d) as [cam|]; [|discriminate].
  all: destruct (USBCamera.isOpened w cam); cbn [negb];
    [|intros H; left; exact (Hreinit _ _ H)].
  all: destruct reading as [[[] frame]|]; [| |discriminate]; cbn [negb orb];
    [|intros H; left; exact (Hreinit _ _ H)].
  all: assert (Hne : (match USBCamera.previous_frame d with
                      | Some prev => frame_eqb prev frame
                      | None => false
                      end) = false -> USBCamera.previous_frame d <> Some frame)
    by (destruct (USBCamera.previous_frame d) as [prev|]; [|discriminate];
        intros Hsame E; injection E as ->; rewrite frame_eqb_refl in Hsame; discriminate).
  all: destruct (match USBCamera.previous_frame d with
                 | Some prev => frame_eqb prev frame
                 | None => false
                 end); [intros H; left; exact (Hreinit _ _ H)|].
  all: specialize (Hne eq_refl).
  all: destruct (USBCamera.image d) as [old|].
  all: try (destruct (USBCamera.assign old (pack_frame frame)) as [im|] eqn:Ha;
            [|discriminate]).
  all: intros H; injection H as <-; right.
  all: try (destruct (assign_shape _ _ _ Ha) as [Hsh Heq];
            exists frame, im;
            repeat split; try reflexivity; try discriminate; try assumption;
            intros E; apply Heq; rewrite shape_pack_frame; exact E).
  all: exists frame, (pack_frame frame);
    repeat split; try reflexivity; try discriminate; assumption.
Qed.

(** One pixel served, then a frame of two pixels in a row: the pixel
    of a later 1x1 frame fills both columns of the image held. *)
Lemma read_attr_hardware_image_witness :
  (exists d',
     USBCamera.read_attr_hardware oneCamera (Some (true, [[(1, 2, 3)]])) started = inl d' /\
     USBCamera.image d' = Some [[66051]]) /\
  (exists d1 d2,
     USBCamera.read_attr_hardware oneCamera
       (Some (true, [[(1, 2, 3); (4, 5, 6)]])) started = inl d1 /\
     USBCamera.read_attr_hardware oneCamera (Some (true, [[(7, 8, 9)]])) d1 = inl d2 /\
     USBCamera.image d2 = Some [[460809; 460809]]).
Proof.
  split.
  - eexists. split; [vm_compute; reflexivity|].
    destruct (read_attr_hardware_image oneCamera (Some (true, [[(1, 2, 3)]])) started
                _ eq_refl)
      as [[H _]|(frame & im & Hf & _ & _ & Hi & Hm & _)].
    + vm_compute in H. discriminate H.
    + injection Hf as <-. change (im = pack_frame [[(1, 2, 3)]]) in Hm.
      rewrite Hm in Hi. exact Hi.
  - eexists _, _. split; [vm_compute; reflexivity|].
    split; [vm_compute; reflexivity|]. vm_compute. reflexivity.
Defined.

(** X4.  A camera that keeps delivering one and the same frame: the
    read after the one that stored the frame finds it equal to the
    remembered frame, re-initialises the device and serves no image;
    the re-initialisation forgets the remembered frame, so the read
    after that stores the same frame again.  (The world: the capture is
    open, some path opens, and a path that opens stays open.) *)
Theorem frozen_camera_alternates (w : USBCamera.World) (d : USBCamera.Device)
        (cam : nat) (f : list (list pixel)) :
  USBCamera.state d = USBCamera.ON ->
  USBCamera.camera d = Some cam ->
  USBCamera.previous_frame d = Some f ->
  USBCamera.isOpened w cam = true ->
  existsb (USBCamera.opens w) (USBCamera.device_paths w) = true ->
  (forall p, USBCamera.opens w p = true -> USBCamera.isOpened w p = true) ->
  exists d1 d2,
    USBCamera.read_attr_hardware w (Some (true, f)) d = inl d1 /\
    USBCamera.state d1 = USBCamera.ON /\ USBCamera.image d1 = None /\
    USBCamera.read_attr_hardware w (Some (true, f)) d1 = inl d2 /\
    USBCamera.state d2 = USBCamera.ON /\ USBCamera.image d2 = Some (pack_frame f) /\
    USBCamera.previous_frame d2 = Some f.
Proof.
  intros Hs Hc Hp Ho He Hstay.
  set (d0 := USBCamera.delete_device
               (USBCamera.mkDevice USBCamera.FAULT USBCamera.ReadError
                  (USBCamera.camera d) (USBCamera.image d) (USBCamera.previous_frame d))).
  exists (USBCamera.init_device w d0).
  assert (H1 : USBCamera.read_attr_hardware w (Some (true, f)) d
               = inl (USBCamera.init_device w d0)).
  { unfold USBCamera.read_attr_hardware, USBCamera.was_fault.
    rewrite Hs, Hc, Ho, Hp, frame_eqb_refl. reflexivity. }
  assert (Hon : USBCamera.state (USBCamera.init_device w d0) = USBCamera.ON)
    by (rewrite init_device_ON, He; reflexivity).
  destruct (init_device_clears w d0) as [Hi Hprev].
  assert (Hcam : exists p, USBCamera.camera (USBCamera.init_device w d0) = Some p /\
                           USBCamera.isOpened w p = true).
  { unfold USBCamera.init_device.
    destruct (USBCamera.device_paths w) as [|q paths] eqn:Hpaths; [discriminate|].
    destruct (try_paths_opens (USBCamera.opens w) (q :: paths) (USBCamera.camera d0) He)
      as (p & before & after & E1 & _ & E3 & _).
    rewrite E1, E3. exists p. split; [reflexivity | apply Hstay, E3]. }
  destruct Hcam as (p & Hcam & Hopen).
  eexists. split; [exact H1|]. split; [exact Hon|]. split; [exact Hi|].
  unfold USBCamera.read_attr_hardware, USBCamera.was_fault.
  rewrite Hon, Hcam, Hopen, Hprev, Hi. cbn [negb orb].
  split; [reflexivity|]. repeat split; reflexivity.
Qed.

Lemma frozen_camera_alternates_witness :
  exists d0 d1 d2,
    USBCamera.read_attr_hardware oneCamera (Some (true, [[(1, 2, 3)]])) started = inl d0 /\
    USBCamera.image d0 = Some [[66051]] /\
    USBCamera.read_attr_hardware oneCamera (Some (true, [[(1, 2, 3)]])) d0 = inl d1 /\
    USBCamera.image d1 = None /\
    USBCamera.read_attr_hardware oneCamera (Some (true, [[(1, 2, 3)]])) d1 = inl d2 /\
    USBCamera.image d2 = Some [[66051]].
Proof.
  eexists. 
  destruct (frozen_camera_alternates oneCamera
              (USBCamera.mkDevice USBCamera.ON USBCamera.DeviceIsOn (Some 0%nat)
                 (Some [[66051]]) (Some [[(1, 2, 3)]]))
              0%nat [[(1, 2, 3)]])
    as (d1 & d2 & H1 & _ & Hi1 & H2 & _ & Hi2 & _);
    try reflexivity.
  exists d1, d2. split; [vm_compute; reflexivity|]. split; [reflexivity|].
  split; [exact H1|]. split; [exact Hi1|]. split; [exact H2 | exact Hi2].
Defined.

(** X5.  A device in FAULT tries to recover at every request:
    [is_image_allowed] answers whether the device is out of FAULT after
    that attempt, that is, whether it was not in FAULT or a listed path
    opens now; and [read_image] on a device in FAULT returns no image,
    whatever image it held. *)
Theorem is_image_allowed_iff (w : USBCamera.World) (d : USBCamera.Device) :
  (fst (USBCamera.is_image_allowed w d) = true <->
   USBCamera.state d <> USBCamera.FAULT \/
   existsb (USBCamera.opens w) (USBCamera.device_paths w) = true) /\
  (fst (USBCamera.is_image_allowed w d) = true <->
   USBCamera.state (snd (USBCamera.is_image_allowed w d)) <> USBCamera.FAULT) /\
  (USBCamera.state d = USBCamera.FAULT -> fst (USBCamera.read_image w d) = None).
Proof.
  unfold USBCamera.is_image_allowed, USBCamera.read_image, USBCamera.was_fault.
  destruct (USBCamera.state d) eqn:Hs; cbn [fst snd].
  - rewrite Hs. split; [|split]; try discriminate.
    + split; [left; discriminate | reflexivity].
    + split; [discriminate | reflexivity].
  - rewrite Hs. split; [|split]; try discriminate.
    + split; [left; discriminate | reflexivity].
    + split; [discriminate | reflexivity].
  - rewrite init_device_ON.
    destruct (existsb (USBCamera.opens w) (USBCamera.device_paths w)).
    + split; [|split].
      * split; [right; reflexivity | reflexivity].
      * split; [discriminate | reflexivity].
      * intros _. apply init_device_clears.
    + split; [|split].
      * split; [discriminate | intros [H|H]; [contradiction | discriminate]].
      * split; [discriminate | intros H; contradiction].
      * intros _. apply init_device_clears.
Qed.

(** ** The read-out *)

Lemma getTransform_fields cv (s0 s : OrthoView) :
  getTransform cv s0 = (Ok tt, s) ->
  exists T1 bR q rest T2,
    beamImage cv s0 T1 = q :: rest /\
    s = transformed s0 T1 bR (shiftBy bR q) T2.
Proof.
  intros H.
  destruct (getTransform_Ok_inv cv s0 s H)
    as (src & T1 & q & rest & T2 & _ & _ & _ & Hq & _ & ->).
  exists T1, (boxOf cv s0 T1), q, rest, T2. split; [exact Hq | reflexivity].
Qed.



(** ** The corners under the forward transform *)

Lemma corresponds_project (T : Mat3) (p q : fpoint) :
  corresponds T p q ->
  ~ (Cv2.homogeneous_w T p == 0)%Q ->
  (fst (Cv2.project T p) == fst q)%Q /\ (snd (Cv2.project T p) == snd q)%Q.
Proof.
  intros [Hx Hy] Hw. rewrite (project_nonzero T p Hw). cbn [fst snd].
  rewrite Hx, Hy. split; field; exact Hw.
Qed.

Lemma corner_image cv (s : OrthoView) (T1 : Mat3) (bR : Rect) (c q : point) :
  perspectiveTransform1 s = Some T1 ->
  boundingRect s = Some bR ->
  corresponds T1 (to_fpoint c) (to_fpoint q) ->
  ~ (Cv2.homogeneous_w T1 (to_fpoint c) == 0)%Q ->
  Cv2.perspectiveTransform cv [to_fpoint c] T1 = [Cv2.project T1 (to_fpoint c)] ->
  exists P,
    transformPoint cv (to_fpoint c) s = (Ok P, s) /\
    (fst P == inject_Z (fst q - rect_x bR))%Q /\
    (snd P == inject_Z (snd q - rect_y bR))%Q.
Proof.
  intros HT1 HbR Hc Hw Hp.
  exists (shiftBy bR (Cv2.project T1 (to_fpoint c))). split.
  - apply (transformPoint_run cv s _ _ [] T1 bR HT1 HbR).
    exact (f_equal (@rev fpoint) Hp).
  - destruct (corresponds_project T1 _ _ Hc Hw) as [Ex Ey].
    unfold shiftBy. cbn [fst snd]. rewrite Ex, Ey. unfold to_fpoint. cbn [fst snd].
    unfold Z.sub. rewrite !inject_Z_plus, !inject_Z_opp. split; reflexivity.
Qed.

(** X7.  When the forward transform solves the system of the corners
    and OpenCV applies it projectively, [transformPoint] takes the four
    stored corners, in their order, onto the four points of
    [targetRect], where the rectified view draws the corner marks. *)
Theorem corners_map_onto_targetRect cv (s0 s : OrthoView) (cs : list point) (T1 : Mat3) :
  getTransform cv s0 = (Ok tt, s) ->
  corners (buttonBaseRect s0) = map Some cs ->
  perspectiveTransform1 s = Some T1 ->
  is_homography T1 (map to_fpoint cs) (map to_fpoint (pOut s0)) ->
  (forall c, In c cs ->
     ~ (Cv2.homogeneous_w T1 (to_fpoint c) == 0)%Q /\
     Cv2.perspectiveTransform cv [to_fpoint c] T1 = [Cv2.project T1 (to_fpoint c)]) ->
  exists tR,
    targetRect s = Some tR /\
    Forall2 (fun c t =>
               exists P, transformPoint cv (to_fpoint c) s = (Ok P, s) /\
                         (fst P == inject_Z (fst t))%Q /\ (snd P == inject_Z (snd t))%Q)
            cs tR.
Proof.
  intros H Hcs HT1 [_ HF] Hside.
  destruct (getTransform_fields cv s0 s H) as (T1' & bR & q & rest & T2 & _ & Hs).
  assert (T1' = T1) as -> by (rewrite Hs in HT1; cbn in HT1; congruence).
  assert (HbR : boundingRect s = Some bR) by (rewrite Hs; reflexivity).
  exists (shifted bR (pOut s0)). split; [rewrite Hs; reflexivity|].
  clear Hcs Hs. revert HF Hside. generalize (pOut s0) as qs.
  induction cs as [|c cs IH]; intros qs HF Hside.
  - destruct qs; [constructor | inversion HF].
  - destruct qs as [|t qs]; [inversion HF|].
    cbn in HF. inversion HF as [|? ? ? ? Hc HF']. subst.
    cbn. constructor.
    + destruct (Hside c (or_introl eq_refl)) as [Hw Hp].
      exact (corner_image cv s T1 bR c t HT1 HbR Hc Hw Hp).
    + apply IH; [exact HF'|]. intros c' Hc'. apply Hside. right. exact Hc'.
Qed.

Lemma corners_map_onto_targetRect_witness :
  exists tR,
    targetRect (exec (getTransform Cv2.exact) (loaded perspectiveA)) = Some tR /\
    Forall2 (fun c t =>
               exists P,
                 transformPoint Cv2.exact (to_fpoint c)
                   (exec (getTransform Cv2.exact) (loaded perspectiveA))
                 = (Ok P, exec (getTransform Cv2.exact) (loaded perspectiveA)) /\
                 (fst P == inject_Z (fst t))%Q /\ (snd P == inject_Z (snd t))%Q)
            [(12, 10); (50, 8); (47, 30); (11, 26)] tR.
Proof.
  assert (H : getTransform Cv2.exact (loaded perspectiveA)
              = (Ok tt, exec (getTransform Cv2.exact) (loaded perspectiveA)))
    by (vm_compute; reflexivity).
  eassert (HT1 : perspectiveTransform1 (exec (getTransform Cv2.exact) (loaded perspectiveA))
                 = Some _) by (vm_compute; reflexivity).
  apply (corners_map_onto_targetRect Cv2.exact _ _ [(12, 10); (50, 8); (47, 30); (11, 26)]
           _ H eq_refl HT1).
  - replace (map to_fpoint (pOut (loaded perspectiveA)))
      with [(0, 0); (640, 0); (640, 320); (0, 320)]%Q by (vm_compute; reflexivity).
    cbn [map]. solve_homography.
  - intros c Hc. split; [|reflexivity].
    destruct Hc as [<-|[<-|[<-|[<-|[]]]]]; vm_compute; discriminate.
Defined.

Lemma zoomOf_pos (s : OrthoView) :
  (0 < scaleX s)%Q -> 0 < snd (img s) -> (0 < zoomOf s)%Q.
Proof.
  intros Hx HW. unfold zoomOf. apply Qlt_shift_div_l; [exact Hx|].
  rewrite Qmult_0_l. change 0%Q with (inject_Z 0). rewrite <- Zlt_Qlt. exact HW.
Qed.

(** A side of the target rectangle, [int(scale * zoom)], read in
    millimetres: at most the scale, and short of it by at most one
    pixel. *)
Lemma side_bounds (sc z : Q) :
  (0 < sc)%Q -> (0 < z)%Q ->
  (inject_Z (int (sc * z)) / z <= sc)%Q /\
  (sc - 1 / z <= inject_Z (int (sc * z)) / z)%Q.
Proof.
  intros Hsc Hz.
  assert (Hz0 : ~ (z == 0)%Q) by (intros E; rewrite E in Hz; discriminate).
  assert (Hp : (0 <= sc * z)%Q) by (apply Qmult_le_0_compat; apply Qlt_le_weak; assumption).
  rewrite (int_nonneg _ Hp).
  pose proof (Qfloor_le (sc * z)) as Hlo.
  pose proof (Qlt_floor (sc * z)) as Hhi.
  rewrite inject_Z_plus in Hhi. change (inject_Z 1) with 1%Q in Hhi.
  set (n := inject_Z (Qfloor (sc * z))) in *. split.
  - apply Qle_shift_div_r; [exact Hz|exact Hlo].
  - apply Qle_shift_div_l; [exact Hz|].
    setoid_replace ((sc - 1 / z) * z)%Q with (sc * z - 1)%Q by (field; exact Hz0).
    set (v := (sc * z)%Q) in *. lra.
Qed.

(** X8.  The calibration of the read-out.  When the forward transform
    solves the system of the corners and OpenCV applies it projectively,
    the images of the corners under [transformPoint] lie apart by whole
    pixels, the sides of the target rectangle: from the first corner to
    the second by [dX] along X and by nothing along Y, from the first to
    the fourth by nothing along X and by [dY] along Y.  Read in
    millimetres, that is divided by the zoom, [dX] is at most [scaleX]
    and [dY] at most [scaleY], each short of its scale by at most one
    pixel ([1 / zoom]): the sides are the products of scale and zoom
    truncated to whole pixels, along X as along Y. *)
Theorem sides_read_the_scales cv (s0 s : OrthoView) (c0 c1 c2 c3 : point) (T1 : Mat3) :
  getTransform cv s0 = (Ok tt, s) ->
  corners (buttonBaseRect s0) = [Some c0; Some c1; Some c2; Some c3] ->
  (0 < scaleX s0)%Q -> (0 < scaleY s0)%Q -> 0 < snd (img s0) ->
  perspectiveTransform1 s = Some T1 ->
  is_homography T1 (map to_fpoint [c0; c1; c2; c3]) (map to_fpoint (pOut s0)) ->
  (forall c, In c [c0; c1; c2; c3] ->
     ~ (Cv2.homogeneous_w T1 (to_fpoint c) == 0)%Q /\
     Cv2.perspectiveTransform cv [to_fpoint c] T1 = [Cv2.project T1 (to_fpoint c)]) ->
  exists (P0 P1 P3 : fpoint) (dX dY : Z),
    transformPoint cv (to_fpoint c0) s = (Ok P0, s) /\
    transformPoint cv (to_fpoint c1) s = (Ok P1, s) /\
    transformPoint cv (to_fpoint c3) s = (Ok P3, s) /\
    (fst P1 - fst P0 == inject_Z dX)%Q /\ (snd P1 - snd P0 == 0)%Q /\
    (fst P3 - fst P0 == 0)%Q /\ (snd P3 - snd P0 == inject_Z dY)%Q /\
    (inject_Z dX / zoomOf s0 <= scaleX s0)%Q /\
    (scaleX s0 - 1 / zoomOf s0 <= inject_Z dX / zoomOf s0)%Q /\
    (inject_Z dY / zoomOf s0 <= scaleY s0)%Q /\
    (scaleY s0 - 1 / zoomOf s0 <= inject_Z dY / zoomOf s0)%Q.
Proof.
  intros H Hcs Hx Hy HW HT1 [_ HF] Hside.
  destruct (getTransform_fields cv s0 s H) as (T1' & bR & q & rest & T2 & _ & Hs).
  assert (T1' = T1) as -> by (rewrite Hs in HT1; cbn in HT1; congruence).
  assert (HbR : boundingRect s = Some bR) by (rewrite Hs; reflexivity).
  clear Hs H Hcs.
  unfold pOut, rectangle in HF. cbn [map] in HF.
  inversion HF as [|? ? ? ? Hc0 HF1]; subst. clear HF.
  inversion HF1 as [|? ? ? ? Hc1 HF2]; subst. clear HF1.
  inversion HF2 as [|? ? ? ? _ HF3]; subst. clear HF2.
  inversion HF3 as [|? ? ? ? Hc3 _]; subst. clear HF3.
  destruct (Hside c0) as [Hw0 Hp0]; [cbn; auto|].
  destruct (Hside c1) as [Hw1 Hp1]; [cbn; auto|].
  destruct (Hside c3) as [Hw3 Hp3]; [cbn; auto 6|].
  destruct (corner_image cv s T1 bR c0 _ HT1 HbR Hc0 Hw0 Hp0) as (P0 & E0 & X0 & Y0).
  destruct (corner_image cv s T1 bR c1 _ HT1 HbR Hc1 Hw1 Hp1) as (P1 & E1 & X1 & Y1).
  destruct (corner_image cv s T1 bR c3 _ HT1 HbR Hc3 Hw3 Hp3) as (P3 & E3 & X3 & Y3).
  cbn [fst snd] in X0, Y0, X1, Y1, X3, Y3.
  unfold Z.sub in X0, Y0, X1, Y1, X3, Y3.
  rewrite !inject_Z_plus, !inject_Z_opp in X0, Y0, X1, Y1, X3, Y3.
  pose proof (zoomOf_pos s0 Hx HW) as Hz.
  exists P0, P1, P3, (targetWidth s0), (targetHeight s0).
  split; [exact E0|]. split; [exact E1|]. split; [exact E3|].
  rewrite X0, Y0, X1, Y1, X3, Y3.
  split; [ring|]. split; [ring|]. split; [ring|]. split; [ring|].
  destruct (side_bounds (scaleX s0) (zoomOf s0) Hx Hz) as [HX1 HX2].
  destruct (side_bounds (scaleY s0) (zoomOf s0) Hy Hz) as [HY1 HY2].
  unfold targetWidth, targetHeight. repeat split; assumption.
Qed.

Lemma sides_read_the_scales_witness :
  let s0 := loaded perspectiveA in
  let s := exec (getTransform Cv2.exact) s0 in
  exists (P0 P1 P3 : fpoint) (dX dY : Z),
    transformPoint Cv2.exact (to_fpoint (12, 10)) s = (Ok P0, s) /\
    transformPoint Cv2.exact (to_fpoint (50, 8)) s = (Ok P1, s) /\
    transformPoint Cv2.exact (to_fpoint (11, 26)) s = (Ok P3, s) /\
    (fst P1 - fst P0 == inject_Z dX)%Q /\ (snd P1 - snd P0 == 0)%Q /\
    (fst P3 - fst P0 == 0)%Q /\ (snd P3 - snd P0 == inject_Z dY)%Q /\
    (inject_Z dX / zoomOf s0 <= scaleX s0)%Q /\
    (scaleX s0 - 1 / zoomOf s0 <= inject_Z dX / zoomOf s0)%Q /\
    (inject_Z dY / zoomOf s0 <= scaleY s0)%Q /\
    (scaleY s0 - 1 / zoomOf s0 <= inject_Z dY / zoomOf s0)%Q.
Proof.
  cbv zeta.
  assert (H : getTransform Cv2.exact (loaded perspectiveA)
              = (Ok tt, exec (getTransform Cv2.exact) (loaded perspectiveA)))
    by (vm_compute; reflexivity).
  eassert (HT1 : perspectiveTransform1 (exec (getTransform Cv2.exact) (loaded perspectiveA))
                 = Some _) by (vm_compute; reflexivity).
  match type of HT1 with
  | _ = Some ?T =>
      apply (sides_read_the_scales Cv2.exact _ _ (12, 10) (50, 8) (47, 30) (11, 26) T H eq_refl)
  end.
  - vm_compute. reflexivity.
  - vm_compute. reflexivity.
  - vm_compute. reflexivity.
  - exact HT1.
  - replace (map to_fpoint (pOut (loaded perspectiveA)))
      with [(0, 0); (640, 0); (640, 320); (0, 320)]%Q by (vm_compute; reflexivity).
    cbn [map]. solve_homography.
  - intros c Hc. split; [|reflexivity].
    destruct Hc as [<-|[<-|[<-|[<-|[]]]]]; vm_compute; discriminate.
Defined.

(** ** Redefining the beam position *)

Lemma canTransform_set_beamPos c s : canTransform (set_beamPos c s) = canTransform s.
Proof. reflexivity. Qed.

Lemma keeps_getTransform_straight cv : keeps buttonStraightRect (getTransform cv).
Proof.
  unfold getTransform.
  repeat first [apply keeps_transformPoint | apply keeps_solver | keeps_step].
Qed.

(** X9.  [setBeamPosition] with a click at [c].  When the beam has a
    positive coordinate and the user declines, nothing changes.  In
    every other case the beam moves to [c], whatever the calibration,
    the view and the outcome of the button update that follows; the
    click stays.  When moreover the calibration is complete, the view is
    the perspective view and the update returns, the read-out at [c] is
    (0, 0): the new beam is the origin of the plate coordinates at
    once. *)
Theorem setBeamPosition_moves_origin cv (s : OrthoView) (c : point) (confirmed : bool) :
  mouseClickPos (plotCanvas s) = Some c ->
  let b := beamPos (plotCanvas s) in
  let s' := exec (setBeamPosition cv confirmed) s in
  ((0 < fst b \/ 0 < snd b) -> confirmed = false ->
   setBeamPosition cv confirmed s = (Ok tt, s)) /\
  ((fst b <= 0 /\ snd b <= 0) \/ confirmed = true ->
   plotCanvas s' = mkCanvas c (Some c) /\
   (canTransform s = true ->
    straightChecked (buttonStraightRect s) = false ->
    result (setBeamPosition cv confirmed) s = Ok tt ->
    exists x0 y0,
      result (set_message cv (inject_Z (fst c)) (inject_Z (snd c))) s'
        = Ok (ImageAndPlate (inject_Z (fst c)) (inject_Z (snd c)) x0 y0) /\
      (x0 == 0)%Q /\ (y0 == 0)%Q)).
Proof.
  intros Hc b s'. split.
  - intros Hpos ->. unfold setBeamPosition. run_method. fold b.
    replace ((fst b >? 0) || (snd b >? 0)) with true; [reflexivity|].
    symmetry. apply orb_true_iff. rewrite !Z.gtb_ltb, !Z.ltb_lt. exact Hpos.
  - intros Hgo.
    assert (Hbranch : ((fst b >? 0) || (snd b >? 0)) && negb confirmed = false).
    { destruct Hgo as [[H0 H1]| ->]; [|apply andb_false_r].
      replace (fst b >? 0) with false by (symmetry; rewrite Z.gtb_ltb; apply Z.ltb_ge; lia).
      replace (snd b >? 0) with false by (symmetry; rewrite Z.gtb_ltb; apply Z.ltb_ge; lia).
      reflexivity. }
    split.
    { unfold s', setBeamPosition. rewrite exec_gets_bind. fold b. rewrite Hbranch.
      rewrite exec_gets_bind, Hc, exec_modify_bind.
      assert (K : keeps plotCanvas (StraightRectButton_update cv)).
      { unfold StraightRectButton_update, getTransform.
        repeat first [apply keeps_transformPoint | apply keeps_solver | keeps_step]. }
      rewrite K. unfold set_beamPos. cbn. rewrite Hc. reflexivity. }
    intros Hcan Hmode Hres.
    set (s2 := set_wantVisibleCorners true (set_beamPos c s)).
    assert (Hrun : setBeamPosition cv confirmed s =
                   match getTransform cv s2 with
                   | (Ok _, s3) => (Ok tt, straight_setEnabled true s3)
                   | (Raise e, s3) => (Raise e, s3)
                   end).
    { unfold setBeamPosition, StraightRectButton_update. run_method. fold b.
      rewrite Hbranch, Hc. run_method.
      rewrite canTransform_set_beamPos, Hcan. fold s2.
      destruct (getTransform cv s2) as [[[]|e] s3] eqn:E.
      - assert (K : buttonStraightRect s3 = buttonStraightRect s2).
        { pose proof (keeps_getTransform_straight cv s2) as K.
          unfold exec in K. rewrite E in K. exact K. }
        rewrite K. reflexivity.
      - reflexivity. }
    unfold s', exec, result in *. rewrite Hrun in *.
    destruct (getTransform cv s2) as [[[]|e] s3] eqn:E; [|discriminate]. cbn [snd].
    destruct (getTransform_fields cv s2 s3 E) as (T1 & bR & q & rest & T2 & Hq & Hs3).
    subst s3.
    set (sf := straight_setEnabled true _).
    assert (Ht : transformPoint cv (to_fpoint c) sf = (Ok (shiftBy bR q), sf)).
    { apply (transformPoint_run cv sf _ q rest T1 bR); try reflexivity. exact Hq. }
    assert (Hm : mapped cv sf (inject_Z (fst c), inject_Z (snd c)) = Ok (shiftBy bR q)).
    { unfold mapped, result. change (straightChecked (buttonStraightRect sf))
        with (straightChecked (buttonStraightRect s)). rewrite Hmode.
      change (inject_Z (fst c), inject_Z (snd c)) with (to_fpoint c). rewrite Ht. reflexivity. }
    pose proof (plateCoordinates_run cv sf _ _ (zoomOf s2) _ eq_refl Hm) as Hpc.
    eexists _, _. split.
    + unfold set_message.
      change (canTransform sf) with (canTransform s). rewrite Hcan, Hpc.
      change (straightChecked (buttonStraightRect sf))
        with (straightChecked (buttonStraightRect s)). rewrite Hmode. reflexivity.
    + split; unfold Qdiv; cbn [beamPosRectified sf straight_setEnabled set_buttonStraightRect transformed]; ring.
Qed.

(** The beam redefined on a complete calibration (scenario A), and on a
    widget with scales but no corner yet. *)
Lemma setBeamPosition_moves_origin_witness :
  (let s' := exec (setBeamPosition Cv2.exact true) clickedA in
   plotCanvas s' = mkCanvas (110, 60) (Some (110, 60)) /\
   exists x0 y0,
     result (set_message Cv2.exact 110 60) s' = Ok (ImageAndPlate 110 60 x0 y0) /\
     (x0 == 0)%Q /\ (y0 == 0)%Q) /\
  (let s := set_mouseClickPos (Some (7, 9)) (loaded scalesOnly) in
   canTransform s = false /\
   plotCanvas (exec (setBeamPosition Cv2.exact true) s) = mkCanvas (7, 9) (Some (7, 9))).
Proof.
  split.
  - cbv zeta.
    destruct (setBeamPosition_moves_origin Cv2.exact clickedA (110, 60) true eq_refl)
      as (_ & Hgo).
    destruct (Hgo (or_intror eq_refl)) as (Hcanvas & Hread).
    split; [exact Hcanvas|].
    apply Hread; vm_compute; reflexivity.
  - cbv zeta. split; [vm_compute; reflexivity|].
    destruct (setBeamPosition_moves_origin Cv2.exact
                (set_mouseClickPos (Some (7, 9)) (loaded scalesOnly)) (7, 9) true eq_refl)
      as (_ & Hgo).
    exact (proj1 (Hgo (or_intror eq_refl))).
Defined.

(** ** The corner sort, again *)

Lemma subscriptable_Ok {A : Type} (cs : list (option A)) (pts : list A) :
  subscriptable cs = Ok pts -> cs = map Some pts.
Proof.
  revert pts. induction cs as [|[a|] cs IH]; intros pts H; cbn in H.
  - injection H as <-. reflexivity.
  - destruct (subscriptable cs) as [r|e]; [|discriminate].
    injection H as <-. cbn. rewrite (IH r eq_refl). reflexivity.
  - discriminate.
Qed.

Lemma subscriptable_Some {A : Type} (pts : list A) : subscriptable (map Some pts) = Ok pts.
Proof. induction pts as [|p pts IH]; cbn; [|rewrite IH]; reflexivity. Qed.

Lemma sorted_length {A : Type} (key : A -> Z) (l : list A) :
  length (sorted key l) = length l.
Proof. apply Permutation_length, sorted_perm. Qed.

(** The sort returns only on a list of four points. *)
Lemma sortCorners_Ok_four (cs : list (option point)) (r : list point) :
  sortCorners cs = Ok r ->
  exists a b c d, cs = [Some a; Some b; Some c; Some d].
Proof.
  unfold sortCorners. destruct (subscriptable cs) as [pts|e] eqn:Hs; [|discriminate].
  apply subscriptable_Ok in Hs. subst cs. intros H.
  assert (Hlen : length pts = 4%nat).
  { pose proof (sorted_length snd pts) as Hl.
    pose proof (sorted_length fst (firstn 2 (sorted snd pts))) as H1.
    pose proof (sorted_length fst (skipn 2 (sorted snd pts))) as H2.
    rewrite length_firstn in H1. rewrite length_skipn in H2.
    assert (L1 : length (sorted fst (firstn 2 (sorted snd pts))) = 2%nat /\
                 length (sorted fst (skipn 2 (sorted snd pts))) = 2%nat).
    { destruct (sorted fst (firstn 2 (sorted snd pts))) as [|? [|? [|? ?]]];
        try discriminate.
      destruct (sorted fst (skipn 2 (sorted snd pts))) as [|? [|? [|? ?]]];
        try discriminate.
      split; reflexivity. }
    destruct L1 as [L1 L2]. rewrite L1 in H1. rewrite L2 in H2.
    unfold point in *. lia. }
  destruct pts as [|a [|b [|c [|d [|? ?]]]]]; try discriminate.
  exists a, b, c, d. reflexivity.
Qed.

Lemma sortCorners_fixed (tl tr br bl : point) :
  snd tl <= snd br -> snd tl <= snd bl -> snd tr <= snd br -> snd tr <= snd bl ->
  lex_le tl tr -> lex_le bl br ->
  sortCorners [Some tl; Some tr; Some br; Some bl] = Ok [tl; tr; br; bl].
Proof.
  destruct tl as [x1 y1], tr as [x2 y2], br as [x3 y3], bl as [x4 y4].
  unfold lex_le. cbn [fst snd]. intros.
  unfold sortCorners, sorted; simpl; split_leb;
    try (assert (x1 = x2 /\ y1 = y2) as [-> ->] by lia);
    try (assert (x3 = x4 /\ y3 = y4) as [-> ->] by lia);
    try (assert (x2 = x3 /\ y2 = y3) as [-> ->] by lia);
    try (assert (x2 = x4 /\ y2 = y4) as [-> ->] by lia);
    try (assert (x1 = x3 /\ y1 = y3) as [-> ->] by lia);
    try (assert (x1 = x4 /\ y1 = y4) as [-> ->] by lia);
    reflexivity.
Qed.

(** X10.  The corner sort is idempotent: a list it returned is sorted
    onto itself, ties included.  So clicking the four stored corners
    again, in the stored order, leaves the stored list as it is. *)
Theorem sortCorners_idempotent (cs : list (option point)) (r : list point) :
  sortCorners cs = Ok r ->
  sortCorners (map Some r) = Ok r /\
  forall cv frame (s : OrthoView),
    length (corners (buttonBaseRect s)) = 4%nat ->
    currentDefCorner (buttonBaseRect s) = 0 ->
    corners (buttonBaseRect (setCorners cv frame r s)) = map Some r.
Proof.
  intros H.
  destruct (sortCorners_Ok_four cs r H) as (a & b & c & d & ->).
  destruct (sortCorners_sound a b c d)
    as (tl & tr & br & bl & Hs & _ & (Y1 & Y2 & Y3 & Y4) & Ht & Hb).
  assert (r = [tl; tr; br; bl]) as -> by congruence.
  assert (Hfix : sortCorners (map Some [tl; tr; br; bl]) = Ok [tl; tr; br; bl])
    by (apply sortCorners_fixed; assumption).
  split; [exact Hfix|].
  intros cv frame s Hn Hi.
  rewrite (setCorners_four cv frame s tl tr br bl _ Hn Hi Hfix). reflexivity.
Qed.

Lemma sortCorners_idempotent_witness :
  sortCorners [Some (10, 60); Some (110, 60); Some (110, 10); Some (10, 10)]
    = Ok [(10, 10); (110, 10); (110, 60); (10, 60)] /\
  sortCorners (map Some [(10, 10); (110, 10); (110, 60); (10, 60)])
    = Ok [(10, 10); (110, 10); (110, 60); (10, 60)].
Proof.
  assert (H : sortCorners [Some (10, 60); Some (110, 60); Some (110, 10); Some (10, 10)]
              = Ok [(10, 10); (110, 10); (110, 60); (10, 60)]) by reflexivity.
  split; [exact H|].
  exact (proj1 (sortCorners_idempotent _ _ H)).
Defined.
(** ** A definition pass *)

(** [setCorner] acts on the corner button as [pressed] says, whatever
    OpenCV does and whether or not the transform derivation raises. *)
Lemma setCorner_button cv frame (x y : Z) (s : OrthoView) :
  buttonBaseRect (exec (setCorner cv frame x y) s) = pressed (buttonBaseRect s) (x, y).
Proof.
  unfold pressed.
  destruct (setitem _ _ _) as [cs|e] eqn:E;
    unfold setCorner; rewrite !exec_gets_bind;
    match goal with
    | |- context [lift ?X] =>
        match type of E with _ = ?R => replace X with R by (symmetry; exact E) end
    end.
  2: { reflexivity. }
  rewrite exec_lift_bind, !exec_modify_bind, exec_gets_bind.
  cbn [set_currentDefCorner set_corners set_buttonBaseRect buttonBaseRect
       currentDefCorner corners isChecked isEnabled].
  destruct (currentDefCorner (buttonBaseRect s) + 1 >? 3).
  - rewrite exec_bind.
    match goal with
    | |- context [result ?m ?s0] =>
        assert (Hkeep : buttonBaseRect (exec m s0) =
                        match sortCorners cs with
                        | Ok srt => mkBaseRect (map Some srt) 0 false
                                      (isEnabled (buttonBaseRect s))
                        | Raise _ => mkBaseRect cs 0 (isChecked (buttonBaseRect s))
                                       (isEnabled (buttonBaseRect s))
                        end)
    end.
    { rewrite exec_modify_bind, exec_gets_bind.
      cbn [set_currentDefCorner set_corners set_buttonBaseRect buttonBaseRect
           currentDefCorner corners isChecked isEnabled].
      destruct (sortCorners cs) as [srt|e].
      - rewrite exec_lift_bind, !exec_modify_bind.
        rewrite update_keeps_buttonBaseRect. reflexivity.
      - reflexivity. }
    match goal with
    | |- context [result ?m ?s0] => destruct (result m s0)
    end.
    + rewrite updateFrame_keeps_buttonBaseRect. exact Hkeep.
    + exact Hkeep.
  - rewrite exec_ret_bind, updateFrame_keeps_buttonBaseRect. reflexivity.
Qed.

Lemma setCorners_button cv frame (ps : list point) (s : OrthoView) :
  buttonBaseRect (setCorners cv frame ps s) = fold_left pressed ps (buttonBaseRect s).
Proof.
  unfold setCorners. revert s. induction ps as [|p ps IH]; intros s; [reflexivity|].
  cbn [fold_left]. rewrite IH, setCorner_button. destruct p; reflexivity.
Qed.

Lemma clickedSlot_button frame (s : OrthoView) :
  buttonBaseRect (exec (clickedSlot frame) s) =
  let b := buttonBaseRect s in
  if isChecked b then
    if negb (contains_None (corners b))
    then mkBaseRect (corners b) 0 (isChecked b) (isEnabled b)
    else match index_None (corners b) with
         | Ok i => mkBaseRect (corners b) i (isChecked b) (isEnabled b)
         | Raise _ => b
         end
  else mkBaseRect (corners b) (-1) (isChecked b) (isEnabled b).
Proof.
  unfold clickedSlot. rewrite exec_gets_bind. cbv zeta.
  destruct (isChecked (buttonBaseRect s)) eqn:Hc.
  - rewrite exec_bind.
    match goal with
    | |- context [result ?m s] =>
        assert (Hkeep : buttonBaseRect (exec m s) =
                        if negb (contains_None (corners (buttonBaseRect s)))
                        then mkBaseRect (corners (buttonBaseRect s)) 0 true
                               (isEnabled (buttonBaseRect s))
                        else match index_None (corners (buttonBaseRect s)) with
                             | Ok i => mkBaseRect (corners (buttonBaseRect s)) i true
                                         (isEnabled (buttonBaseRect s))
                             | Raise _ => buttonBaseRect s
                             end)
    end.
    { rewrite exec_gets_bind.
      destruct (negb (contains_None (corners (buttonBaseRect s)))).
      - unfold exec, modify. cbn. rewrite Hc. reflexivity.
      - destruct (index_None (corners (buttonBaseRect s))) as [i|e].
        + rewrite exec_lift_bind. unfold exec, modify. cbn. rewrite Hc. reflexivity.
        + reflexivity. }
    match goal with
    | |- context [result ?m s] => destruct (result m s)
    end.
    + rewrite updateFrame_keeps_buttonBaseRect. exact Hkeep.
    + exact Hkeep.
  - rewrite exec_modify_bind, updateFrame_keeps_buttonBaseRect. cbn. rewrite Hc. reflexivity.
Qed.
(** X11. Checking the corner button on a list of four slots puts the
    cursor on the first empty slot, or on slot 0 when every slot is
    filled; the clicks that follow, one for each slot from the cursor to
    the end, overwrite those slots (filled or not), keep the corners
    before the cursor, and end with the sorted list stored, the cursor
    back on 0 and the button released.  The sort never raises. *)
Theorem definition_pass_completes cv frame (s : OrthoView) :
  length (corners (buttonBaseRect s)) = 4%nat ->
  isChecked (buttonBaseRect s) = true ->
  let b := buttonBaseRect s in
  let s1 := exec (clickedSlot frame) s in
  (contains_None (corners b) = false /\
   currentDefCorner (buttonBaseRect s1) = 0 /\
   forall p1 p2 p3 p4, exists srt,
     sortCorners [Some p1; Some p2; Some p3; Some p4] = Ok srt /\
     buttonBaseRect (setCorners cv frame [p1; p2; p3; p4] s1) =
     mkBaseRect (map Some srt) 0 false (isEnabled b))
  \/
  (exists kept rest,
     corners b = map Some kept ++ None :: rest /\
     currentDefCorner (buttonBaseRect s1) = Z.of_nat (length kept) /\
     forall ps, length ps = S (length rest) -> exists srt,
       sortCorners (map Some (kept ++ ps)) = Ok srt /\
       buttonBaseRect (setCorners cv frame ps s1) =
       mkBaseRect (map Some srt) 0 false (isEnabled b)).
Proof.
  intros Hlen Hc b s1. subst s1.
  assert (Hsort : forall p1 p2 p3 p4, exists srt,
             sortCorners [Some p1; Some p2; Some p3; Some p4] = Ok srt).
  { intros p1 p2 p3 p4.
    destruct (sortCorners_sound p1 p2 p3 p4) as (tl & tr & br & bl & H & _).
    eauto. }
  set (s1 := exec (clickedSlot frame) s).
  assert (H1 : buttonBaseRect s1 = _) by apply clickedSlot_button.
  assert (Hb : forall ps, buttonBaseRect (setCorners cv frame ps s1)
                          = fold_left pressed ps (buttonBaseRect s1))
    by (intros; apply setCorners_button).
  clearbody s1. cbv zeta in H1. rewrite H1 in Hb |- *. clear H1.
  fold b in Hb, Hlen, Hc |- *. clearbody b. destruct b as [cs k chk en].
  cbn [corners isChecked isEnabled currentDefCorner] in *. subst chk.
  destruct cs as [|o0 [|o1 [|o2 [|o3 [|? ?]]]]]; try discriminate Hlen. clear Hlen.
  destruct o0 as [a0|]; [destruct o1 as [a1|]; [destruct o2 as [a2|];
    [destruct o3 as [a3|]|]|]|].
  - left. split; [reflexivity|]. split; [reflexivity|].
    intros p1 p2 p3 p4. destruct (Hsort p1 p2 p3 p4) as [srt Hs].
    exists srt. split; [exact Hs|].
    rewrite Hb. revert Hs. cbv -[sortCorners map]. intros Hs. rewrite Hs. reflexivity.
  - right. exists [a0; a1; a2], [].
    split; [reflexivity|]. split; [reflexivity|].
    intros [|p1 [|? ?]] Hl; try discriminate Hl.
    destruct (Hsort a0 a1 a2 p1) as [srt Hs]. exists srt. split; [exact Hs|].
    rewrite Hb. revert Hs. cbv -[sortCorners map]. intros Hs. rewrite Hs. reflexivity.
  - right. exists [a0; a1], [o3].
    split; [reflexivity|]. split; [reflexivity|].
    intros [|p1 [|p2 [|? ?]]] Hl; try discriminate Hl.
    destruct (Hsort a0 a1 p1 p2) as [srt Hs]. exists srt. split; [exact Hs|].
    rewrite Hb. revert Hs. cbv -[sortCorners map]. intros Hs. rewrite Hs. reflexivity.
  - right. exists [a0], [o2; o3].
    split; [reflexivity|]. split; [reflexivity|].
    intros [|p1 [|p2 [|p3 [|? ?]]]] Hl; try discriminate Hl.
    destruct (Hsort a0 p1 p2 p3) as [srt Hs]. exists srt. split; [exact Hs|].
    rewrite Hb. revert Hs. cbv -[sortCorners map]. intros Hs. rewrite Hs. reflexivity.
  - right. exists [], [o1; o2; o3].
    split; [reflexivity|]. split; [reflexivity|].
    intros [|p1 [|p2 [|p3 [|p4 [|? ?]]]]] Hl; try discriminate Hl.
    destruct (Hsort p1 p2 p3 p4) as [srt Hs]. exists srt. split; [exact Hs|].
    rewrite Hb. revert Hs. cbv -[sortCorners map]. intros Hs. rewrite Hs. reflexivity.
Qed.

Lemma definition_pass_completes_witness :
  exists srt,
    sortCorners (map Some [(12, 9); (108, 11); (109, 62); (8, 61)]) = Ok srt /\
    buttonBaseRect
      (setCorners Cv2.exact vga [(12, 9); (108, 11); (109, 62); (8, 61)]
         (exec (clickedSlot vga) (base_setChecked true (loaded oneCornerMissing))))
    = mkBaseRect (map Some srt) 0 false true.
Proof.
  destruct (definition_pass_completes Cv2.exact vga
              (base_setChecked true (loaded oneCornerMissing)) eq_refl eq_refl)
    as [[Hn _] | (kept & rest & Hk & _ & Hps)].
  - discriminate Hn.
  - destruct kept as [|k kept]; [|discriminate Hk].
    injection Hk as <-.
    exact (Hps [(12, 9); (108, 11); (109, 62); (8, 61)] eq_refl).
Defined.

(** ** What the event loop maintains *)

Lemma extends_refl s : extends s s.
Proof. unfold extends. tauto. Qed.

Lemma extends_trans s1 s2 s3 : extends s1 s2 -> extends s2 s3 -> extends s1 s3.
Proof.
  unfold extends. intros (A1 & A2 & A3 & A4 & A5 & A6) (B1 & B2 & B3 & B4 & B5 & B6).
  rewrite B1, B2, B3, B4. tauto.
Qed.

Lemma canTransform_extends s s' : extends s s' -> canTransform s' = canTransform s.
Proof.
  intros (A1 & A2 & A3 & _). unfold canTransform. rewrite A1, A2, A3. reflexivity.
Qed.

Lemma coherent_extends s s' : extends s s' -> coherent s -> coherent s'.
Proof.
  intros E. pose proof (canTransform_extends s s' E) as Hc. revert E.
  unfold extends, coherent, view_backed.
  intros (A1 & A2 & A3 & A4 & A5 & A6).
  rewrite Hc, A4. tauto.
Qed.

Lemma cursor_ok_slots s s' : slots s' = slots s -> cursor_ok s -> cursor_ok s'.
Proof.
  unfold slots, cursor_ok, slots_ok. intros H. injection H as A1 A2 A3.
  rewrite A1, A2, A3. tauto.
Qed.

Ltac getTransform_cases cv s :=
  let H0 := fresh "H0" in
  let H1 := fresh "H1" in
  let H2 := fresh "H2" in
  let H3 := fresh "H3" in
  let H4 := fresh "H4" in
  let src := fresh "src" in
  let T1 := fresh "T1" in
  let T2 := fresh "T2" in
  let q := fresh "q" in
  let rest := fresh "rest" in
  let e0 := fresh "e0" in
  destruct (Qeq_bool (scaleX s) 0) eqn:H0;
  [ rewrite (getTransform_zero_scale cv s H0)
  | destruct (np_float32 (corners (buttonBaseRect s))) as [src|e0] eqn:H1;
    [ destruct (Cv2.getPerspectiveTransform cv src (map to_fpoint (pOut s)))
        as [T1|] eqn:H2;
      [ destruct (beamImage cv s T1) as [|q rest] eqn:H3;
        [ rewrite (getTransform_no_beam_image cv s src T1 H0 H1 H2 H3)
        | destruct (Cv2.getPerspectiveTransform cv src
                      (map to_fpoint (shifted (boxOf cv s T1) (pOut s))))
            as [T2|] eqn:H4;
          [ rewrite (getTransform_completes cv s src T1 q rest T2 H0 H1 H2 H3 H4)
          | rewrite (getTransform_second_solve_fails cv s src T1 q rest H0 H1 H2 H3 H4) ] ]
      | rewrite (getTransform_first_solve_fails cv s src H0 H1 H2) ]
    | rewrite (getTransform_bad_corners cv s e0 H0 H1) ] ].

(** However [getTransform] ends, it has only assigned derived
    attributes. *)
Lemma getTransform_extends cv s : extends s (exec (getTransform cv) s).
Proof.
  unfold exec. getTransform_cases cv s; cbn [snd]; unfold extends, derived; cbn;
    intuition discriminate.
Qed.

Lemma canTransform_np_float32 s :
  canTransform s = true ->
  Qeq_bool (scaleX s) 0 = false /\
  exists src, np_float32 (corners (buttonBaseRect s)) = Ok src.
Proof.
  unfold canTransform. intros H.
  apply andb_prop in H. destruct H as [H Hy].
  apply andb_prop in H. destruct H as [Hn Hx].
  split.
  - apply Qlt_bool_iff in Hx.
    destruct (Qeq_bool (scaleX s) 0) eqn:E; [|reflexivity].
    apply Qeq_bool_iff in E. rewrite E in Hx. exfalso. revert Hx. apply Qlt_irrefl.
  - apply negb_true_iff in Hn.
    unfold np_float32.
    assert (G : forall l : list (option point),
               contains_None l = false -> exists r, subscriptable l = Ok r).
    { induction l as [|[a|] l IH]; cbn; intros Hl.
      - eauto.
      - destruct (IH Hl) as [r ->]. eauto.
      - discriminate. }
    destruct (G _ Hn) as [r ->]. eauto.
Qed.

(** With complete corners and positive scales, [getTransform] raises
    only when the solver does; when it returns, everything it derives
    is assigned. *)
Lemma getTransform_benign cv s :
  well_shaped cv -> canTransform s = true ->
  benign (result (getTransform cv) s) /\
  (result (getTransform cv) s = Ok tt ->
   perspectiveTransform2 (exec (getTransform cv) s) <> None /\
   derived (exec (getTransform cv) s)).
Proof.
  intros [Hshape Hpoint] Hcan.
  destruct (canTransform_np_float32 s Hcan) as [Hx [src0 Hsrc]].
  unfold result, exec. getTransform_cases cv s; cbn [fst snd benign];
    try discriminate; try (split; [reflexivity|discriminate]).
  - exfalso. unfold beamImage in H3.
    apply (f_equal (@rev fpoint)) in H3. rewrite rev_involutive in H3.
    revert H3. apply Hpoint.
  - split; [exact I|]. intros _. unfold derived. cbn.
    repeat split; discriminate.
Qed.

Lemma ccore_extends s s' : ccore s' = ccore s -> extends s s'.
Proof.
  unfold ccore. intros H. injection H as A1 A2 A3 A4 A6 A7 A8 A9 A10.
  unfold extends, derived. rewrite A1, A2, A3, A4, A6, A7, A8, A9, A10. tauto.
Qed.

Lemma updateFrame_extends frame s : extends s (exec (updateFrame frame) s).
Proof.
  apply ccore_extends. revert s.
  change (keeps ccore (updateFrame frame)).
  unfold updateFrame. repeat keeps_step.
Qed.

(** With the rectify button backed by a display transform, the frame
    update finds every attribute it reads. *)
Lemma updateFrame_returns frame s :
  view_backed s -> result (updateFrame frame) s = Ok tt.
Proof.
  unfold view_backed, derived. intros (Hd & _ & Hc).
  unfold updateFrame, result. run_method.
  destruct s as [b sx sy sb pc im z T1 bR bpr tR T2].
  unfold canTransform, set_img in *.
  cbn [fst snd buttonBaseRect scaleX scaleY buttonStraightRect zoom perspectiveTransform1
       boundingRect targetRect perspectiveTransform2] in *.
  destruct (negb (contains_None (corners b)) && Qlt_bool 0 sx && Qlt_bool 0 sy
            && straightChecked sb) eqn:E; [|reflexivity].
  apply andb_prop in E. destruct E as [_ E]. specialize (Hc E).
  destruct (Hd Hc) as (Hz & _ & Hb & Ht).
  destruct T2; [|congruence]. destruct bR; [|congruence].
  destruct z; [|congruence]. destruct tR; [|congruence]. reflexivity.
Qed.


(** The button update: it leaves the widget [coherent] whenever the
    rectify button was backed by a display transform, whatever the
    corners and the scales have become, and it raises only when the
    solver does. *)
Lemma update_coherent cv s :
  view_backed s -> coherent (exec (StraightRectButton_update cv) s).
Proof.
  intros Hv. unfold StraightRectButton_update.
  rewrite exec_gets_bind, exec_modify_bind.
  set (s1 := set_wantVisibleCorners (canTransform s) s).
  assert (Hv1 : view_backed s1) by exact Hv.
  assert (Hc1 : canTransform s1 = canTransform s) by reflexivity.
  destruct (canTransform s) eqn:Hcan.
  - rewrite exec_bind.
    pose proof (getTransform_extends cv s1) as Hx.
    pose proof (canTransform_extends _ _ Hx) as Hcx.
    destruct (result (getTransform cv) s1) as [[]|e] eqn:Hr.
    + destruct Hx as (_ & _ & _ & _ & A6 & _).
      rewrite exec_gets_bind. unfold exec at 1, modify. cbn [snd].
      set (s2 := exec (getTransform cv) s1) in *.
      assert (F1 : derived s2) by (apply A6, Hv1).
      assert (F2 : perspectiveTransform2 s2 <> None).
      { unfold s2, exec. unfold result in Hr.
        destruct (getTransform cv s1) as [r s3] eqn:E. cbn in Hr |- *. subst r.
        destruct (getTransform_Ok_inv cv s1 s3 E)
          as (? & ? & ? & ? & ? & _ & _ & _ & _ & _ & ->).
        discriminate. }
      split; [split; [exact F1|split; intros _; exact F2]|].
      intros _. change (canTransform s2 = true). rewrite Hcx, Hc1. reflexivity.
    + apply (coherent_extends s1); [exact Hx|].
      split; [exact Hv1|]. intros _. rewrite Hc1. reflexivity.
  - rewrite exec_ret_bind, exec_gets_bind. unfold exec, modify. cbn [snd].
    destruct Hv as (Hd & He & Hk).
    split; [split; [exact Hd|split; [intros H; discriminate H|exact Hk]]|].
    intros H; discriminate H.
Qed.

Lemma update_benign cv s :
  well_shaped cv -> benign (result (StraightRectButton_update cv) s).
Proof.
  intros Hcv. unfold StraightRectButton_update, result. run_method.
  destruct (canTransform s) eqn:Hcan; [|exact I].
  pose proof (getTransform_benign cv (set_wantVisibleCorners true s) Hcv Hcan) as [Hb _].
  unfold result in Hb.
  destruct (getTransform cv (set_wantVisibleCorners true s)) as [[[]|e] s2]; cbn in *;
    [exact I|exact Hb].
Qed.

Lemma holds_bind {A B : Type} (P : OrthoView -> Prop) (m : M A) (k : A -> M B) s :
  P (exec m s) -> (forall a, preserves P (k a)) -> P (exec (bind m k) s).
Proof.
  intros Hm Hk. rewrite exec_bind. destruct (result m s); [apply Hk|]; exact Hm.
Qed.

Lemma keeps_coherent {A : Type} (m : M A) : keeps ccore m -> preserves coherent m.
Proof. intros K s. apply coherent_extends, ccore_extends, K. Qed.

Lemma getTransform_coherent cv : preserves coherent (getTransform cv).
Proof. intros s. apply coherent_extends, getTransform_extends. Qed.

Lemma updateFrame_coherent frame : preserves coherent (updateFrame frame).
Proof. intros s. apply coherent_extends, updateFrame_extends. Qed.

(** Filling a slot leaves no new hole. *)
Lemma update_complete {A : Type} (l : list (option A)) (n : nat) (a : A) :
  contains_None l = false -> contains_None (update l n (Some a)) = false.
Proof.
  revert n. induction l as [|x l IH]; intros n H; [reflexivity|].
  cbn in H. apply orb_false_iff in H. destruct H as [Hx Hl].
  destruct n as [|n]; cbn.
  - exact Hl.
  - rewrite Hx. apply IH, Hl.
Qed.

Lemma setitem_complete {A : Type} (l cs : list (option A)) (i : Z) (a : A) :
  setitem l i (Some a) = Ok cs ->
  contains_None l = false -> contains_None cs = false.
Proof.
  unfold setitem. intros H Hl.
  destruct ((0 <=? i) && (i <? Z.of_nat (length l))).
  - injection H as <-. apply update_complete, Hl.
  - destruct ((- Z.of_nat (length l) <=? i) && (i <? 0)); [|discriminate].
    injection H as <-. apply update_complete, Hl.
Qed.

(** New corners keep the widget [coherent] as long as they leave no new
    hole. *)
Lemma coherent_set_corners cs s :
  (contains_None (corners (buttonBaseRect s)) = false -> contains_None cs = false) ->
  coherent s -> coherent (set_corners cs s).
Proof.
  intros Hcs (Hv & Hc). split; [exact Hv|].
  intros He. specialize (Hc He). revert Hc. unfold canTransform.
  change (corners (buttonBaseRect (set_corners cs s))) with cs.
  change (scaleX (set_corners cs s)) with (scaleX s).
  change (scaleY (set_corners cs s)) with (scaleY s).
  destruct (contains_None (corners (buttonBaseRect s))); [discriminate|].
  rewrite Hcs by reflexivity. trivial.
Qed.

Lemma setCorner_coherent cv frame x y : preserves coherent (setCorner cv frame x y).
Proof.
  intros s Hs. unfold setCorner. rewrite !exec_gets_bind.
  destruct (setitem _ _ _) as [cs|e] eqn:E.
  2: { exact Hs. }
  rewrite exec_lift_bind, !exec_modify_bind, exec_gets_bind.
  assert (H1 : coherent (set_corners cs s)).
  { apply coherent_set_corners; [|exact Hs]. apply (setitem_complete _ _ _ _ E). }
  set (i := currentDefCorner (buttonBaseRect s)) in *.
  set (s1 := set_currentDefCorner (i + 1) (set_corners cs s)).
  assert (H2 : coherent s1) by exact H1.
  apply holds_bind; [|intros; apply updateFrame_coherent].
  destruct (currentDefCorner (buttonBaseRect s1) >? 3); [|exact H2].
  rewrite exec_modify_bind, exec_gets_bind.
  destruct (sortCorners (corners (buttonBaseRect (set_currentDefCorner 0 s1))))
    as [srt|e] eqn:Hs'.
  - rewrite exec_lift_bind, !exec_modify_bind. apply update_coherent.
    destruct H2 as [Hv _]. exact Hv.
  - exact H2.
Qed.

Lemma setBeamPosition_coherent cv confirmed :
  preserves coherent (setBeamPosition cv confirmed).
Proof.
  intros s Hs. unfold setBeamPosition. rewrite exec_gets_bind.
  destruct (_ && _); [exact Hs|].
  rewrite exec_gets_bind. destruct (mouseClickPos (plotCanvas s)) as [p|]; [|exact Hs].
  rewrite exec_modify_bind. apply update_coherent. destruct Hs as [Hv _]. exact Hv.
Qed.

Lemma straight_clickedSlot_coherent cv frame (c : bool) s :
  coherent s -> (c = true -> straightEnabled (buttonStraightRect s) = true) ->
  coherent (exec (modify (straight_setChecked c) ;;
                  StraightRectButton_clickedSlot cv frame) s).
Proof.
  intros ((Hd & He & Hk) & Hc) Hen.
  rewrite exec_modify_bind. unfold StraightRectButton_clickedSlot.
  rewrite exec_gets_bind, exec_modify_bind.
  apply holds_bind; [|intros; apply updateFrame_coherent].
  apply getTransform_coherent.
  split; [split; [exact Hd|split; [exact He|]]|exact Hc].
  cbn. intros ->. apply He, Hen. reflexivity.
Qed.

(** Every handler keeps the widget [coherent], whether it returns or
    raises. *)
Lemma handle_coherent cv frame (e : event) : preserves coherent (handle cv frame e).
Proof.
  destruct e as [| | | |pos|name_is_x value|confirmed| |]; intros s Hs; unfold handle.
  - revert s Hs. apply keeps_coherent. unfold clickedSlot, updateFrame.
    repeat keeps_step.
  - revert s Hs. apply keeps_coherent. unfold eventFilter_Escape, clickedSlot, updateFrame.
    repeat keeps_step.
  - rewrite exec_gets_bind.
    destruct (straightEnabled (buttonStraightRect s)) eqn:En; [|exact Hs].
    rewrite exec_gets_bind. apply straight_clickedSlot_coherent; [exact Hs|].
    intros _. exact En.
  - rewrite exec_gets_bind.
    destruct (straightEnabled (buttonStraightRect s)) eqn:En; [|exact Hs].
    apply straight_clickedSlot_coherent; [exact Hs|discriminate].
  - unfold onPress. destruct pos as [p|]; [|exact Hs].
    rewrite exec_modify_bind, exec_gets_bind.
    destruct (negb _); [exact Hs|].
    apply setCorner_coherent. exact Hs.
  - unfold ScaleEdit_Enter. rewrite exec_modify_bind. apply update_coherent.
    destruct Hs as [Hv _]. destruct name_is_x; exact Hv.
  - unfold viewMenu. rewrite exec_gets_bind.
    destruct (mouseClickPos (plotCanvas s)); [|exact Hs].
    rewrite exec_gets_bind.
    apply holds_bind; [|intros; apply updateFrame_coherent].
    destruct (negb _); [|exact Hs].
    apply setBeamPosition_coherent, Hs.
  - revert s Hs. apply keeps_coherent.
    unfold viewMenu, moveToBeam, plateCoordinates, updateFrame.
    repeat first [apply keeps_transformPoint | keeps_step].
  - apply updateFrame_coherent, Hs.
Qed.

Lemma reachable_coherent cv frame s : reachable cv frame s -> coherent s.
Proof.
  induction 1 as [cfg|s e _ IH].
  - unfold construct.
    assert (H0 : coherent (blank cfg)).
    { split; [split; [|split]|]; cbn; intros H; try discriminate H.
      exfalso. apply H. reflexivity. }
    rewrite exec_bind.
    pose proof (updateFrame_coherent frame _ H0) as H1.
    destruct (result (updateFrame frame) (blank cfg)); [|exact H1].
    apply update_coherent. destruct H1 as [Hv _]. exact Hv.
  - apply handle_coherent, IH.
Qed.

(** ** The cursor of the corner button *)

Lemma index_None_spec {A : Type} (l : list (option A)) :
  contains_None l = true ->
  exists i : nat,
    index_None l = Ok (Z.of_nat i) /\ (i < length l)%nat /\
    contains_None (firstn i l) = false.
Proof.
  induction l as [|[a|] l IH]; cbn; intros H.
  - discriminate.
  - destruct (IH H) as (i & Hi & Hlt & Hf). exists (S i). rewrite Hi.
    split; [f_equal; lia|]. split; [lia|]. cbn. exact Hf.
  - exists 0%nat. split; [reflexivity|]. split; [lia|reflexivity].
Qed.

(** Checking or releasing the corner button leaves the cursor in
    order. *)
Lemma clickedSlot_cursor_ok frame s :
  length (corners (buttonBaseRect s)) = 4%nat ->
  cursor_ok (exec (clickedSlot frame) s).
Proof.
  intros Hlen. unfold cursor_ok. rewrite clickedSlot_button. cbv zeta.
  destruct (isChecked (buttonBaseRect s)) eqn:Hc.
  - destruct (contains_None (corners (buttonBaseRect s))) eqn:Hn; cbn [negb].
    + destruct (index_None_spec _ Hn) as (i & -> & Hlt & Hf).
      split; [exact Hlen|]. intros _. cbn. rewrite Nat2Z.id. split; [lia|exact Hf].
    + split; [exact Hlen|]. intros _. cbn. split; [lia|reflexivity].
  - split; [exact Hlen|]. cbn. discriminate.
Qed.

(** A click with the cursor in order fills the slot under the cursor;
    on the last slot the sort finds four points. *)
Lemma pressed_ok (b : PerspectiveRectButton) (p : point) :
  slots_ok b -> isChecked b = true ->
  slots_ok (pressed b p) /\
  exists cs,
    setitem (corners b) (currentDefCorner b) (Some p) = Ok cs /\
    ((currentDefCorner b + 1 >? 3) = true -> exists srt, sortCorners cs = Ok srt).
Proof.
  destruct b as [cs k chk en]. unfold slots_ok. cbn [corners currentDefCorner isChecked].
  intros [Hlen Hk] ->. destruct (Hk eq_refl) as [Hr Hf]. clear Hk.
  destruct cs as [|o0 [|o1 [|o2 [|o3 [|? ?]]]]]; try discriminate Hlen. clear Hlen.
  assert (Hcases : k = 0 \/ k = 1 \/ k = 2 \/ k = 3) by lia. clear Hr.
  destruct Hcases as [->|[->|[->| ->]]].
  - split; [|eexists; split; [reflexivity|discriminate]].
    cbv. split; [reflexivity|]. intros _. split; [split; discriminate|reflexivity].
  - destruct o0 as [a0|]; [|discriminate Hf].
    split; [|eexists; split; [reflexivity|discriminate]].
    cbv. split; [reflexivity|]. intros _. split; [split; discriminate|reflexivity].
  - destruct o0 as [a0|]; [|discriminate Hf].
    destruct o1 as [a1|]; [|discriminate Hf].
    split; [|eexists; split; [reflexivity|discriminate]].
    cbv. split; [reflexivity|]. intros _. split; [split; discriminate|reflexivity].
  - destruct o0 as [a0|]; [|discriminate Hf].
    destruct o1 as [a1|]; [|discriminate Hf].
    destruct o2 as [a2|]; [|discriminate Hf].
    destruct (sortCorners_sound a0 a1 a2 p) as (tl & tr & br & bl & Hs & _).
    split.
    + unfold pressed. cbn [corners currentDefCorner isChecked isEnabled].
      change (setitem [Some a0; Some a1; Some a2; o3] 3 (Some p))
        with (Ok [Some a0; Some a1; Some a2; Some p]).
      change (3 + 1 >? 3) with true. cbv iota. rewrite Hs.
      split; [reflexivity|]. cbn. discriminate.
    + exists [Some a0; Some a1; Some a2; Some p]. split; [reflexivity|].
      intros _. eauto.
Qed.

Lemma setCorner_cursor_ok cv frame x y s :
  cursor_ok s -> isChecked (buttonBaseRect s) = true ->
  cursor_ok (exec (setCorner cv frame x y) s).
Proof.
  intros Hs Hc. unfold cursor_ok. rewrite setCorner_button.
  apply pressed_ok; assumption.
Qed.

Lemma keeps_cursor_ok {A : Type} (m : M A) : keeps slots m -> preserves cursor_ok m.
Proof. intros K s. apply cursor_ok_slots, K. Qed.

Lemma getTransform_keeps_slots cv : keeps slots (getTransform cv).
Proof.
  unfold getTransform.
  repeat first [apply keeps_transformPoint | apply keeps_solver | keeps_step].
Qed.

Lemma updateFrame_keeps_slots frame : keeps slots (updateFrame frame).
Proof. unfold updateFrame. repeat keeps_step. Qed.

Lemma update_keeps_slots cv : keeps slots (StraightRectButton_update cv).
Proof.
  unfold StraightRectButton_update.
  repeat first [apply getTransform_keeps_slots | keeps_step].
Qed.

(** Every handler leaves the cursor in order. *)
Lemma handle_cursor_ok cv frame (e : event) : preserves cursor_ok (handle cv frame e).
Proof.
  destruct e as [| | | |pos|name_is_x value|confirmed| |]; unfold handle.
  - intros s Hs. rewrite exec_gets_bind.
    destruct (isEnabled (buttonBaseRect s)); [|exact Hs].
    rewrite exec_gets_bind, exec_modify_bind.
    apply clickedSlot_cursor_ok. destruct Hs as [Hlen _]. exact Hlen.
  - intros s Hs. rewrite exec_gets_bind.
    destruct (isEnabled (buttonBaseRect s)); [|exact Hs].
    unfold eventFilter_Escape. rewrite exec_modify_bind.
    apply clickedSlot_cursor_ok. destruct Hs as [Hlen _]. exact Hlen.
  - apply keeps_cursor_ok. unfold StraightRectButton_clickedSlot.
    repeat first [apply getTransform_keeps_slots | apply updateFrame_keeps_slots
                 | keeps_step].
  - apply keeps_cursor_ok. unfold StraightRectButton_clickedSlot.
    repeat first [apply getTransform_keeps_slots | apply updateFrame_keeps_slots
                 | keeps_step].
  - intros s Hs. unfold onPress. destruct pos as [p|]; [|exact Hs].
    rewrite exec_modify_bind, exec_gets_bind.
    change (isChecked (buttonBaseRect (set_mouseClickPos (Some p) s)))
      with (isChecked (buttonBaseRect s)).
    destruct (isChecked (buttonBaseRect s)) eqn:Hc; [|exact Hs].
    apply setCorner_cursor_ok; assumption.
  - apply keeps_cursor_ok. unfold ScaleEdit_Enter.
    destruct name_is_x; repeat first [apply update_keeps_slots | keeps_step].
  - apply keeps_cursor_ok. unfold viewMenu, setBeamPosition.
    repeat first [apply update_keeps_slots | apply updateFrame_keeps_slots | keeps_step].
  - apply keeps_cursor_ok. unfold viewMenu, moveToBeam, plateCoordinates.
    repeat first [apply keeps_transformPoint | apply updateFrame_keeps_slots | keeps_step].
  - apply keeps_cursor_ok, updateFrame_keeps_slots.
Qed.

Lemma run_invariant cv frame (P : OrthoView -> Prop) (es : list event) s :
  (forall e, preserves P (handle cv frame e)) -> P s -> P (run cv frame es s).
Proof.
  intros H. unfold run. revert s. induction es as [|e es IH]; intros s Hs; [exact Hs|].
  cbn [fold_left]. apply IH, H, Hs.
Qed.

Lemma construct_cursor_ok cv frame cfg :
  length (cfg_corners cfg) = 4%nat -> cursor_ok (construct cv frame cfg).
Proof.
  intros Hlen. unfold construct.
  assert (K : keeps slots (updateFrame frame ;; StraightRectButton_update cv)).
  { apply keeps_bind; [apply updateFrame_keeps_slots|intros; apply update_keeps_slots]. }
  apply (keeps_cursor_ok _ K). split; [exact Hlen|]. cbn. discriminate.
Qed.

(** ** What a handler can raise *)

Lemma result_bind {A B : Type} (m : M A) (k : A -> M B) (s : OrthoView) :
  result (bind m k) s =
  match result m s with
  | Ok a => result (k a) (exec m s)
  | Raise e => Raise e
  end.
Proof. unfold exec, result, bind. destruct (m s) as [[a|e] s']; reflexivity. Qed.

Lemma result_gets_bind {A B : Type} (g : OrthoView -> A) (k : A -> M B) s :
  result (bind (gets g) k) s = result (k (g s)) s.
Proof. reflexivity. Qed.

Lemma result_modify_bind {B : Type} (g : OrthoView -> OrthoView) (k : unit -> M B) s :
  result (bind (modify g) k) s = result (k tt) (g s).
Proof. reflexivity. Qed.

Lemma result_lift_bind {A B : Type} (a : A) (k : A -> M B) s :
  result (bind (lift (Ok a)) k) s = result (k a) s.
Proof. reflexivity. Qed.

Lemma view_backed_extends s s' : extends s s' -> view_backed s -> view_backed s'.
Proof.
  unfold extends, view_backed. intros (A1 & A2 & A3 & A4 & A5 & A6).
  rewrite A4. tauto.
Qed.

Lemma benign_then_updateFrame {A : Type} (m : M A) frame s :
  benign (result m s) -> view_backed (exec m s) ->
  benign (result (m ;; updateFrame frame) s).
Proof.
  intros Hb Hv. rewrite result_bind. destruct (result m s) as [a|e]; [|exact Hb].
  rewrite (updateFrame_returns frame _ Hv). exact I.
Qed.

Lemma clickedSlot_benign frame s :
  view_backed s -> benign (result (clickedSlot frame) s).
Proof.
  intros Hv. unfold clickedSlot. rewrite result_gets_bind.
  apply benign_then_updateFrame.
  - destruct (isChecked (buttonBaseRect s)); [|exact I].
    rewrite result_gets_bind.
    destruct (contains_None (corners (buttonBaseRect s))) eqn:Hn; cbn [negb]; [|exact I].
    destruct (index_None_spec _ Hn) as (i & Hi & _). rewrite Hi. exact I.
  - apply (view_backed_extends s); [|exact Hv]. apply ccore_extends. revert s Hv.
    intros s _.
    match goal with
    | |- ccore (exec ?m s) = ccore s => assert (K : keeps ccore m); [|apply K]
    end.
    repeat keeps_step.
Qed.

Lemma setCorner_benign cv frame x y s :
  well_shaped cv -> coherent s -> cursor_ok s ->
  isChecked (buttonBaseRect s) = true ->
  benign (result (setCorner cv frame x y) s).
Proof.
  intros Hcv [Hv Hcan] Hs Hc.
  destruct (pressed_ok _ (x, y) Hs Hc) as (_ & cs & Hset & Hsort).
  unfold setCorner. rewrite !result_gets_bind.
  match goal with
  | |- context [lift ?X] => replace X with (@Ok (list (option point)) cs)
  end.
  rewrite result_lift_bind, !result_modify_bind, result_gets_bind.
  set (i := currentDefCorner (buttonBaseRect s)) in *.
  set (s1 := set_currentDefCorner (i + 1) (set_corners cs s)).
  assert (Hv1 : view_backed s1) by exact Hv.
  change (currentDefCorner (buttonBaseRect s1)) with (i + 1).
  apply benign_then_updateFrame.
  - destruct (i + 1 >? 3) eqn:Hi; [|exact I].
    rewrite result_modify_bind, result_gets_bind.
    change (corners (buttonBaseRect (set_currentDefCorner 0 s1))) with cs.
    destruct (Hsort eq_refl) as [srt ->].
    rewrite result_lift_bind, !result_modify_bind.
    apply update_benign, Hcv.
  - destruct (i + 1 >? 3) eqn:Hi; [|exact Hv1].
    rewrite exec_modify_bind, exec_gets_bind.
    change (corners (buttonBaseRect (set_currentDefCorner 0 s1))) with cs.
    destruct (Hsort eq_refl) as [srt ->].
    rewrite exec_lift_bind, !exec_modify_bind.
    apply update_coherent. exact Hv1.
Qed.

Lemma straight_clickedSlot_benign cv frame (c : bool) s :
  well_shaped cv -> coherent s ->
  straightEnabled (buttonStraightRect s) = true ->
  benign (result (modify (straight_setChecked c) ;;
                  StraightRectButton_clickedSlot cv frame) s).
Proof.
  intros Hcv ((Hd & He & Hk) & Hc) Hen.
  rewrite result_modify_bind. unfold StraightRectButton_clickedSlot.
  rewrite result_gets_bind, result_modify_bind.
  set (s1 := base_setEnabled _ _).
  assert (H1 : coherent s1).
  { split; [split; [exact Hd|split; [exact He|]]|exact Hc]. intros _. apply He, Hen. }
  assert (Hcan : canTransform s1 = true) by (apply Hc, Hen).
  apply benign_then_updateFrame.
  - apply getTransform_benign; assumption.
  - apply getTransform_coherent, H1.
Qed.

Lemma setBeamPosition_benign cv confirmed s p :
  well_shaped cv -> mouseClickPos (plotCanvas s) = Some p ->
  benign (result (setBeamPosition cv confirmed) s).
Proof.
  intros Hcv Hp. unfold setBeamPosition. rewrite result_gets_bind.
  destruct (_ && _); [exact I|].
  rewrite result_gets_bind, Hp, result_modify_bind. apply update_benign, Hcv.
Qed.

(** Move-to-beam on a click: it returns, or the forward transform is
    missing and [transformPoint] raises [AttributeError]. *)
Lemma moveToBeam_profile cv s (p : point) :
  well_shaped cv -> view_backed s -> forward_needs_display s ->
  mouseClickPos (plotCanvas s) = Some p ->
  (exists out, result (moveToBeam cv isTest motorX None) s = Ok out) \/
  (result (moveToBeam cv isTest motorX None) s = Raise AttributeError /\
   perspectiveTransform1 s = None /\
   straightChecked (buttonStraightRect s) = false).
Proof.
  intros [_ Hpoint] (Hd & _ & Hk) Hf Hp.
  assert (Hrun : forall z m,
             zoom s = Some z ->
             mapped cv s (inject_Z (fst p), inject_Z (snd p)) = Ok m ->
             exists out, result (moveToBeam cv isTest motorX None) s = Ok out).
  { intros z m Hz Hm.
    pose proof (plateCoordinates_run cv s _ _ z m Hz Hm) as Hpc.
    unfold moveToBeam, result. run_method. rewrite Hp, Hpc. cbn.
    eexists. reflexivity. }
  destruct (straightChecked (buttonStraightRect s)) eqn:Hchk.
  - destruct (Hd (Hk eq_refl)) as (Hz & _).
    destruct (zoom s) as [z|] eqn:Ez; [|congruence]. left.
    apply (Hrun z (inject_Z (fst p), inject_Z (snd p)) eq_refl).
    unfold mapped. rewrite Hchk. reflexivity.
  - destruct (perspectiveTransform1 s) as [T1|] eqn:HT1.
    + assert (HT2 : perspectiveTransform2 s <> None).
      { intros HN. specialize (Hf HN). congruence. }
      destruct (Hd HT2) as (Hz & _ & Hb & _).
      destruct (zoom s) as [z|] eqn:Ez; [|congruence].
      destruct (boundingRect s) as [bR|] eqn:Eb; [|congruence].
      pose proof (Hpoint (inject_Z (fst p), inject_Z (snd p)) T1) as Hne.
      destruct (rev (Cv2.perspectiveTransform cv
                       [(inject_Z (fst p), inject_Z (snd p))] T1))
        as [|q rest] eqn:Hrev.
      { exfalso. apply Hne. apply (f_equal (@rev fpoint)) in Hrev.
        rewrite rev_involutive in Hrev. exact Hrev. }
      left. apply (Hrun z (shiftBy bR q) eq_refl).
      unfold mapped, result. rewrite Hchk.
      rewrite (transformPoint_run cv s _ q rest T1 bR HT1 Eb Hrev). reflexivity.
    + right. split; [|split; reflexivity].
      unfold moveToBeam, plateCoordinates, transformPoint, result. run_method.
      rewrite Hp. destruct (beamPosRectified s) as [xC yC].
      rewrite Hchk. cbn [negb]. rewrite HT1. reflexivity.
Qed.

(** The exceptions of one turn of the event loop, in a state where the
    invariants hold. *)
Lemma handle_profile cv frame (e : event) s :
  well_shaped cv -> coherent s -> cursor_ok s -> forward_needs_display s ->
  benign (result (handle cv frame e) s) \/
  (e = MenuMoveToBeam /\
   result (handle cv frame e) s = Raise AttributeError /\
   perspectiveTransform1 s = None /\
   straightChecked (buttonStraightRect s) = false).
Proof.
  intros Hcv Hco Hcu Hf. pose proof Hco as [Hv Hcan].
  destruct e as [| | | |pos|name_is_x value|confirmed| |]; unfold handle.
  - left. rewrite result_gets_bind.
    destruct (isEnabled (buttonBaseRect s)); [|exact I].
    rewrite result_gets_bind, result_modify_bind.
    apply clickedSlot_benign. exact Hv.
  - left. rewrite result_gets_bind.
    destruct (isEnabled (buttonBaseRect s)); [|exact I].
    unfold eventFilter_Escape. rewrite result_modify_bind.
    apply clickedSlot_benign. exact Hv.
  - left. rewrite result_gets_bind.
    destruct (straightEnabled (buttonStraightRect s)) eqn:En; [|exact I].
    rewrite result_gets_bind. apply straight_clickedSlot_benign; assumption.
  - left. rewrite result_gets_bind.
    destruct (straightEnabled (buttonStraightRect s)) eqn:En; [|exact I].
    apply straight_clickedSlot_benign; assumption.
  - left. unfold onPress. destruct pos as [p|]; [|exact I].
    rewrite result_modify_bind, result_gets_bind.
    change (isChecked (buttonBaseRect (set_mouseClickPos (Some p) s)))
      with (isChecked (buttonBaseRect s)).
    destruct (isChecked (buttonBaseRect s)) eqn:Hc; [|exact I].
    apply setCorner_benign; assumption.
  - left. unfold ScaleEdit_Enter. rewrite result_modify_bind.
    apply update_benign, Hcv.
  - left. unfold viewMenu. rewrite result_gets_bind.
    destruct (mouseClickPos (plotCanvas s)) as [p|] eqn:Hp; [|exact I].
    rewrite result_gets_bind.
    apply benign_then_updateFrame.
    + destruct (negb _); [|exact I]. apply (setBeamPosition_benign cv confirmed s p Hcv Hp).
    + destruct (negb _); [|exact Hv]. apply setBeamPosition_coherent, Hco.
  - unfold viewMenu. rewrite result_gets_bind.
    destruct (mouseClickPos (plotCanvas s)) as [p|] eqn:Hp; [|left; exact I].
    rewrite result_gets_bind.
    destruct (canTransform s); cbv iota.
    2: { left. change (benign (result (updateFrame frame) s)).
         rewrite (updateFrame_returns frame s Hv). exact I. }
    rewrite result_bind, result_bind.
    destruct (moveToBeam_profile cv s p Hcv Hv Hf Hp) as [[out Ho]|(Hr & H1 & Hk)].
    + left. rewrite Ho. cbv iota. change (result (ret tt) ?x) with (@Ok unit tt).
      cbv iota.
      rewrite updateFrame_returns; [exact I|].
      apply (view_backed_extends s); [|exact Hv]. apply ccore_extends.
      match goal with
      | |- ccore (exec ?m s) = ccore s => assert (K : keeps ccore m); [|apply K]
      end.
      unfold moveToBeam, plateCoordinates.
      repeat first [apply keeps_transformPoint | keeps_step].
    + right. rewrite Hr. repeat split; assumption.
  - left. rewrite (updateFrame_returns frame s Hv). exact I.
Qed.

Lemma run_reachable cv frame (es : list event) s :
  reachable cv frame s -> reachable cv frame (run cv frame es s).
Proof.
  unfold run. revert s. induction es as [|e es IH]; intros s Hs; [exact Hs|].
  cbn [fold_left]. apply IH. apply reachable_handle, Hs.
Qed.

(** X12.  In every state the widget can reach, whatever OpenCV does:
    the rectify button is enabled only while the calibration is
    complete; it is enabled or checked only when a [getTransform] has
    completed, so that zoom, both transforms, bounding box and target
    rectangle are all assigned; and therefore the frame update of the
    refresh timer finds every attribute it reads. *)
Theorem rectify_button_is_backed cv frame (s : OrthoView) :
  reachable cv frame s ->
  (straightEnabled (buttonStraightRect s) = true -> canTransform s = true) /\
  (straightEnabled (buttonStraightRect s) = true \/
   straightChecked (buttonStraightRect s) = true ->
   exists z T1 bR tR T2,
     zoom s = Some z /\ perspectiveTransform1 s = Some T1 /\
     boundingRect s = Some bR /\ targetRect s = Some tR /\
     perspectiveTransform2 s = Some T2) /\
  result (updateFrame frame) s = Ok tt.
Proof.
  intros H. destruct (reachable_coherent cv frame s H) as [Hv Hc].
  split; [exact Hc|]. split; [|apply updateFrame_returns, Hv].
  destruct Hv as (Hd & He & Hk). intros Hor.
  assert (H2 : perspectiveTransform2 s <> None) by (destruct Hor; auto).
  destruct (Hd H2) as (Hz & H1 & Hb & Ht).
  destruct (zoom s) as [z|]; [|congruence].
  destruct (perspectiveTransform1 s) as [T1|]; [|congruence].
  destruct (boundingRect s) as [bR|]; [|congruence].
  destruct (targetRect s) as [tR|]; [|congruence].
  destruct (perspectiveTransform2 s) as [T2|]; [|congruence].
  exists z, T1, bR, tR, T2. repeat split; reflexivity.
Qed.

Lemma rectify_button_is_backed_witness :
  straightChecked
    (buttonStraightRect
       (exec (handle Cv2.exact vga StraightRectClicked)
          (construct Cv2.exact vga scenarioA))) = true /\
  result (updateFrame vga)
    (exec (handle Cv2.exact vga StraightRectClicked)
       (construct Cv2.exact vga scenarioA)) = Ok tt.
Proof.
  split; [vm_compute; reflexivity|].
  apply (rectify_button_is_backed Cv2.exact vga).
  apply reachable_handle, reachable_construct.
Defined.

(** X13.  The exceptions of the event loop.  For an OpenCV that is
    [well_shaped] and a configuration with four corner slots, in every
    state the events lead to, a handler returns or raises [cv2.error]
    from the solver inside [getTransform]; the one exception to this is
    move-to-beam in the perspective view while no forward transform
    exists, where [transformPoint] raises [AttributeError].  No handler
    meets an unfilled corner, an index out of range, a zero scale or
    another missing attribute. *)
Theorem event_loop_exceptions cv frame (cfg : Config) (es : list event) (e : event) :
  well_shaped cv ->
  length (cfg_corners cfg) = 4%nat ->
  let s := run cv frame es (construct cv frame cfg) in
  result (handle cv frame e) s = Ok tt \/
  result (handle cv frame e) s = Raise cv2_error \/
  (e = MenuMoveToBeam /\
   result (handle cv frame e) s = Raise AttributeError /\
   perspectiveTransform1 s = None /\
   straightChecked (buttonStraightRect s) = false).
Proof.
  intros Hcv Hlen s.
  assert (Hr : reachable cv frame s) by apply run_reachable, reachable_construct.
  assert (Hcu : cursor_ok s).
  { apply run_invariant; [intros; apply handle_cursor_ok|].
    apply construct_cursor_ok, Hlen. }
  destruct (handle_profile cv frame e s Hcv (reachable_coherent _ _ _ Hr) Hcu
              (reachable_forward_needs_display _ _ _ Hcv Hr)) as [Hb|Hm].
  - destruct (result (handle cv frame e) s) as [[]|x]; [left; reflexivity|].
    right. left. cbn in Hb. rewrite Hb. reflexivity.
  - right. right. exact Hm.
Qed.

(** X15.  With four corner slots in the configuration the corner list
    keeps four slots, and while the corner button is checked the cursor
    is on one of them, with every slot before it filled. *)
Theorem cursor_stays_in_order cv frame (cfg : Config) (es : list event) :
  length (cfg_corners cfg) = 4%nat ->
  let b := buttonBaseRect (run cv frame es (construct cv frame cfg)) in
  length (corners b) = 4%nat /\
  (isChecked b = true ->
   0 <= currentDefCorner b <= 3 /\
   contains_None (firstn (Z.to_nat (currentDefCorner b)) (corners b)) = false).
Proof.
  intros Hlen.
  apply (run_invariant cv frame cursor_ok); [intros; apply handle_cursor_ok|].
  apply construct_cursor_ok, Hlen.
Qed.

Lemma event_loop_exceptions_witness :
  let s := run Cv2.exact vga [BaseRectClicked; Press (Some (12, 9))]
             (construct Cv2.exact vga scalesOnly) in
  result (handle Cv2.exact vga (Press (Some (108, 11)))) s = Ok tt \/
  result (handle Cv2.exact vga (Press (Some (108, 11)))) s = Raise cv2_error \/
  (Press (Some (108, 11)) = MenuMoveToBeam /\
   result (handle Cv2.exact vga (Press (Some (108, 11)))) s = Raise AttributeError /\
   perspectiveTransform1 s = None /\
   straightChecked (buttonStraightRect s) = false).
Proof.
  apply (event_loop_exceptions Cv2.exact vga scalesOnly
           [BaseRectClicked; Press (Some (12, 9))] (Press (Some (108, 11)))).
  - apply exact_well_shaped.
  - reflexivity.
Defined.

Lemma cursor_stays_in_order_witness :
  let b := buttonBaseRect
             (run Cv2.exact vga [BaseRectClicked; Press (Some (12, 9))]
                (construct Cv2.exact vga scalesOnly)) in
  length (corners b) = 4%nat /\
  (isChecked b = true ->
   0 <= currentDefCorner b <= 3 /\
   contains_None (firstn (Z.to_nat (currentDefCorner b)) (corners b)) = false).
Proof.
  apply (cursor_stays_in_order Cv2.exact vga scalesOnly
           [BaseRectClicked; Press (Some (12, 9))]).
  reflexivity.
Defined.

(** ** Keeping the calibration *)

Lemma pressed_complete (b : PerspectiveRectButton) (p : point) :
  contains_None (corners b) = false -> contains_None (corners (pressed b p)) = false.
Proof.
  intros H. unfold pressed.
  destruct (setitem (corners b) (currentDefCorner b) (Some p)) as [cs|e] eqn:E;
    [|exact H].
  pose proof (setitem_complete _ _ _ _ E H) as Hcs.
  destruct (currentDefCorner b + 1 >? 3); [|exact Hcs].
  destruct (sortCorners cs) as [srt|e]; [|exact Hcs].
  cbn [corners]. clear. induction srt as [|q srt IH]; [reflexivity|exact IH].
Qed.

Ltac keeps_all :=
  repeat first [apply keeps_transformPoint | apply keeps_solver | keeps_step].

Lemma handle_keeps_corners cv frame (e : event) s :
  (forall pos, e <> Press pos) ->
  corners (buttonBaseRect (exec (handle cv frame e) s)) = corners (buttonBaseRect s).
Proof.
  intros He. revert s.
  change (keeps (fun s => corners (buttonBaseRect s)) (handle cv frame e)).
  destruct e as [| | | |pos|[|] value|confirmed| |];
    try (exfalso; eapply He; reflexivity);
    unfold handle, viewMenu, ScaleEdit_Enter, setBeamPosition, moveToBeam,
      plateCoordinates, eventFilter_Escape, clickedSlot, StraightRectButton_clickedSlot,
      StraightRectButton_update, getTransform, updateFrame;
    keeps_all.
Qed.

Lemma handle_keeps_scales cv frame (e : event) s :
  (forall name v, e <> ScaleEntered name v) ->
  scaleX (exec (handle cv frame e) s) = scaleX s /\
  scaleY (exec (handle cv frame e) s) = scaleY s.
Proof.
  intros He.
  assert (K : keeps (fun s => (scaleX s, scaleY s)) (handle cv frame e)).
  { destruct e as [| | | |pos|name value|confirmed| |];
      try (exfalso; eapply He; reflexivity);
      unfold handle, viewMenu, onPress, setCorner, setBeamPosition, moveToBeam,
        plateCoordinates, eventFilter_Escape, clickedSlot, StraightRectButton_clickedSlot,
        StraightRectButton_update, getTransform, updateFrame;
      keeps_all. }
  split; [exact (f_equal fst (K s))|exact (f_equal snd (K s))].
Qed.

Lemma handle_complete cv frame (e : event) s :
  contains_None (corners (buttonBaseRect s)) = false ->
  contains_None (corners (buttonBaseRect (exec (handle cv frame e) s))) = false.
Proof.
  intros H.
  destruct e as [| | | |pos|name value|confirmed| |];
    try (rewrite handle_keeps_corners by discriminate; exact H).
  unfold handle, onPress. destruct pos as [p|]; [|exact H].
  rewrite exec_modify_bind, exec_gets_bind.
  destruct (negb _); [exact H|].
  rewrite setCorner_button. apply pressed_complete. exact H.
Qed.

(** X14.  Once the calibration is complete, no event undoes it except
    the entry of a scale that is not positive: no handler empties a
    corner slot, and only the scale editors assign the scales. *)
Theorem calibration_is_kept cv frame (e : event) (s : OrthoView) :
  canTransform s = true ->
  canTransform (exec (handle cv frame e) s) = true \/
  exists name_is_x value, e = ScaleEntered name_is_x value /\ (value <= 0)%Q.
Proof.
  unfold canTransform. intros H.
  apply andb_prop in H. destruct H as [H Hy].
  apply andb_prop in H. destruct H as [Hn Hx].
  apply negb_true_iff in Hn.
  pose proof (handle_complete cv frame e s Hn) as Hn'. rewrite Hn'. cbn [negb andb].
  destruct e as [| | | |pos|name value|confirmed| |];
    try (left;
         match goal with
         | |- context [handle cv frame ?e] =>
             pose proof (handle_keeps_scales cv frame e s
                           ltac:(intros; discriminate)) as K
         end;
         destruct K as [K1 K2]; rewrite K1, K2, Hx, Hy; reflexivity).
  assert (K : keeps (fun s => (scaleX s, scaleY s)) (StraightRectButton_update cv)).
  { unfold StraightRectButton_update, getTransform. keeps_all. }
  unfold handle, ScaleEdit_Enter. rewrite exec_modify_bind.
  match goal with
  | |- context [exec _ ?s1] =>
      pose proof (f_equal fst (K s1)) as K1; pose proof (f_equal snd (K s1)) as K2
  end.
  cbn [fst snd] in K1, K2. rewrite K1, K2.
  destruct (Qlt_bool 0 value) eqn:Hv.
  - left. destruct name; cbn [scaleX scaleY set_scaleX set_scaleY];
      rewrite ?Hx, ?Hy, ?Hv; reflexivity.
  - right. exists name, value. split; [reflexivity|].
    unfold Qlt_bool in Hv. apply negb_false_iff in Hv. apply Qle_bool_iff, Hv.
Qed.

Lemma calibration_is_kept_witness :
  canTransform (exec (handle Cv2.exact vga (Press (Some (3, 4))))
                  (construct Cv2.exact vga scenarioA)) = true \/
  exists name_is_x value,
    Press (Some (3, 4)) = ScaleEntered name_is_x value /\ (value <= 0)%Q.
Proof.
  apply (calibration_is_kept Cv2.exact vga (Press (Some (3, 4)))
           (construct Cv2.exact vga scenarioA)).
  vm_compute. reflexivity.
Defined.

(** ** The rectify button and the zoom *)

(** X17.  [StraightRectButton.update].  It never changes whether the
    calibration is complete, and it records that in
    [wantVisibleCorners] before deriving the transforms.  When it
    returns, the button is enabled exactly when the calibration is
    complete.  When it raises, which needs a complete calibration, the
    button keeps the enabled state it had: [setEnabled] is not
    reached. *)
Theorem update_enables_iff cv (s : OrthoView) :
  let s' := exec (StraightRectButton_update cv) s in
  canTransform s' = canTransform s /\
  wantVisibleCorners (buttonStraightRect s') = canTransform s /\
  straightChecked (buttonStraightRect s') = straightChecked (buttonStraightRect s) /\
  (result (StraightRectButton_update cv) s = Ok tt ->
   straightEnabled (buttonStraightRect s') = canTransform s) /\
  (forall e, result (StraightRectButton_update cv) s = Raise e ->
     canTransform s = true /\
     straightEnabled (buttonStraightRect s')
     = straightEnabled (buttonStraightRect s)).
Proof.
  cbv zeta. unfold StraightRectButton_update, exec, result. run_method.
  destruct (canTransform s) eqn:Hcan.
  - set (s1 := set_wantVisibleCorners true s).
    pose proof (canTransform_extends _ _ (getTransform_extends cv s1)) as Hc.
    pose proof (keeps_getTransform_straight cv s1) as Hb.
    unfold exec in Hc, Hb.
    destruct (getTransform cv s1) as [[[]|e] s2]; cbn [fst snd] in *.
    + unfold straight_setEnabled.
      change (canTransform (set_buttonStraightRect _ s2)) with (canTransform s2).
      cbn [set_buttonStraightRect buttonStraightRect wantVisibleCorners
           straightChecked straightEnabled].
      rewrite Hb, Hc.
      split; [exact Hcan|]. split; [reflexivity|]. split; [reflexivity|].
      split; [reflexivity|]. intros e0 He. discriminate He.
    + rewrite Hb, Hc.
      split; [exact Hcan|]. split; [reflexivity|]. split; [reflexivity|].
      split; [intros He; discriminate He|]. intros e0 _. split; reflexivity.
  - cbn [fst snd].
    change (canTransform (straight_setEnabled false (set_wantVisibleCorners false s)))
      with (canTransform s).
    split; [exact Hcan|]. split; [reflexivity|]. split; [reflexivity|].
    split; [reflexivity|]. intros e0 He. discriminate He.
Qed.

Lemma getTransform_zoom cv s :
  Qeq_bool (scaleX s) 0 = false ->
  zoom (exec (getTransform cv) s) = Some (zoomOf s).
Proof.
  intros Hx. unfold exec. getTransform_cases cv s; try discriminate; reflexivity.
Qed.

(** In the rectified view the frame update leaves the size of the
    warped image in [img]. *)
Lemma updateFrame_rectified frame s bR :
  view_backed s -> canTransform s = true ->
  straightChecked (buttonStraightRect s) = true ->
  boundingRect s = Some bR ->
  exec (updateFrame frame) s = set_img (rect_h bR, rect_w bR) s.
Proof.
  unfold view_backed, derived. intros (Hd & _ & Hc) Hcan Hchk Hb.
  destruct (Hd (Hc Hchk)) as (Hz & _ & _ & Ht). specialize (Hc Hchk).
  unfold updateFrame, exec. run_method.
  destruct s as [b sx sy sb pc im z T1 bR' bpr tR T2].
  unfold canTransform, set_img in *.
  cbn [fst snd buttonBaseRect scaleX scaleY buttonStraightRect zoom perspectiveTransform1
       boundingRect targetRect perspectiveTransform2 plotCanvas img beamPosRectified] in *.
  rewrite Hcan, Hchk. cbn [andb]. subst bR'.
  destruct T2; [|congruence]. destruct z; [|congruence]. destruct tR; [|congruence].
  reflexivity.
Qed.

(** X16.  A frame update in the rectified view leaves the warped image
    in [img], and [getTransform] takes the frame size from [img].  So
    when the rectified view is left after a refresh, the zoom becomes
    the width of the bounding box divided by [scaleX], not the width of
    the camera frame divided by [scaleX]. *)
Theorem leaving_rectified_view_rescales cv frame (s : OrthoView) (bR : Rect) :
  reachable cv frame s ->
  canTransform s = true ->
  straightChecked (buttonStraightRect s) = true ->
  straightEnabled (buttonStraightRect s) = true ->
  boundingRect s = Some bR ->
  let s1 := exec (handle cv frame Tick) s in
  let s2 := exec (handle cv frame StraightRectClicked) s1 in
  img s1 = (rect_h bR, rect_w bR) /\
  straightChecked (buttonStraightRect s2) = false /\
  zoom s2 = Some (inject_Z (rect_w bR) / scaleX s)%Q.
Proof.
  intros Hr Hcan Hchk Hen Hb s1 s2.
  destruct (reachable_coherent cv frame s Hr) as [Hv _].
  assert (H1 : s1 = set_img (rect_h bR, rect_w bR) s)
    by (apply updateFrame_rectified; assumption).
  split; [rewrite H1; reflexivity|].
  subst s2. rewrite H1. clear s1 H1. unfold handle.
  rewrite exec_gets_bind.
  change (straightEnabled (buttonStraightRect (set_img (rect_h bR, rect_w bR) s)))
    with (straightEnabled (buttonStraightRect s)).
  rewrite Hen, exec_gets_bind, exec_modify_bind.
  change (straightChecked (buttonStraightRect (set_img (rect_h bR, rect_w bR) s)))
    with (straightChecked (buttonStraightRect s)).
  rewrite Hchk. unfold StraightRectButton_clickedSlot.
  rewrite exec_gets_bind, exec_modify_bind.
  set (s3 := base_setEnabled _ _).
  assert (Hx : Qeq_bool (scaleX s3) 0 = false).
  { apply (canTransform_np_float32 s3). exact Hcan. }
  pose proof (getTransform_zoom cv s3 Hx) as Hz.
  pose proof (keeps_getTransform_straight cv s3) as Hs.
  assert (Ku : keeps (fun s => (buttonStraightRect s, zoom s)) (updateFrame frame)).
  { unfold updateFrame. repeat keeps_step. }
  rewrite exec_bind.
  destruct (result (getTransform cv) s3).
  - pose proof (Ku (exec (getTransform cv) s3)) as K. injection K as K1 K2.
    rewrite K1, K2, Hs, Hz. split; reflexivity.
  - rewrite Hs, Hz. split; reflexivity.
Qed.

Lemma leaving_rectified_view_rescales_witness :
  let s := exec (handle Cv2.exact vga StraightRectClicked)
             (construct Cv2.exact vga scenarioA) in
  let s1 := exec (handle Cv2.exact vga Tick) s in
  let s2 := exec (handle Cv2.exact vga StraightRectClicked) s1 in
  img s1 = (3073, 4097) /\
  straightChecked (buttonStraightRect s2) = false /\
  zoom s2 = Some (inject_Z 4097 / scaleX s)%Q.
Proof.
  intros s.
  apply (leaving_rectified_view_rescales Cv2.exact vga s (mkRect (-64) (-64) 4097 3073)).
  - apply reachable_handle, reachable_construct.
  - vm_compute. reflexivity.
  - vm_compute. reflexivity.
  - vm_compute. reflexivity.
  - vm_compute. reflexivity.
Defined.

(** ** The faults of the camera device *)


Lemma init_device_holds_capture (w : USBCamera.World) (d : USBCamera.Device) :
  holds_capture (USBCamera.init_device w d).
Proof.
  unfold USBCamera.init_device, holds_capture.
  destruct (USBCamera.device_paths w) as [|p paths]; [exact I|].
  destruct (USBCamera.try_paths _ _ _) as [c|]; [|exact I].
  destruct (USBCamera.opens w c); [|exact I].
  cbn. discriminate.
Qed.

(** X18.  The faults of [read_attr_hardware].  [init_device] leaves
    the device out of INIT and, while ON, with a capture; a read keeps
    it so.  On such a device a read raises in two cases only, both with
    the device ON and left as it was: [camera.read()] raised, so that
    [ret] is unbound; or the frame read has another shape than the image
    held.  The [camera] attribute is never missed. *)
Theorem read_attr_hardware_faults (w : USBCamera.World)
        (reading : option (bool * list (list pixel))) (d : USBCamera.Device) :
  holds_capture (USBCamera.init_device w d) /\
  (holds_capture d ->
   match USBCamera.read_attr_hardware w reading d with
   | inl d' => holds_capture d'
   | inr (f, d') =>
       d' = d /\ USBCamera.state d = USBCamera.ON /\
       ((f = USBCamera.UnboundRet /\ reading = None) \/
        (f = USBCamera.ShapeMismatch /\
         exists frame old,
           reading = Some (true, frame) /\
           USBCamera.image d = Some old /\
           USBCamera.shape old <> USBCamera.shape frame))
   end).
Proof.
  split; [apply init_device_holds_capture|].
  unfold holds_capture at 1, USBCamera.read_attr_hardware, USBCamera.was_fault.
  destruct (USBCamera.state d) eqn:Hst; intros Hd.
  - destruct Hd.
  - destruct (USBCamera.camera d) as [cam|] eqn:Hcam; [clear Hd|congruence].
    destruct (negb (USBCamera.isOpened w cam)); [apply init_device_holds_capture|].
    destruct reading as [[ret_ frame]|].
    2: { split; [reflexivity|]. split; [reflexivity|]. left. split; reflexivity. }
    destruct (negb ret_ || _) eqn:Hbad; [apply init_device_holds_capture|].
    apply orb_false_iff in Hbad. destruct Hbad as [Hret _].
    apply negb_false_iff in Hret. subst ret_.
    destruct (USBCamera.image d) as [old|] eqn:Him.
    + destruct (USBCamera.assign old (pack_frame frame)) as [im|] eqn:Ha.
      * unfold holds_capture. cbn. discriminate.
      * split; [reflexivity|]. split; [reflexivity|]. right. split; [reflexivity|].
        exists frame, old. split; [reflexivity|]. split; [reflexivity|].
        intros Heq. unfold USBCamera.assign in Ha.
        rewrite shape_pack_frame, <- Heq in Ha.
        destruct (USBCamera.shape old) as [h0 w0].
        rewrite !Nat.eqb_refl in Ha. discriminate Ha.
    + unfold holds_capture. cbn. discriminate.
  - apply init_device_holds_capture.
Qed.
